(** * VibeLink: the game-session round machine and its real-time gateway

    A shallow embedding of the backend's session repository
    (GameSessionRepository), of the socket handlers (join-session,
    start-game, submit-response, next-round) and of the REST routes of
    routes/games.ts, over an explicit model of the PostgreSQL tables they
    read and write. *)

From Stdlib Require Import ZArith Lia.
From stdpp Require Import gmap strings list fin_maps sorting pretty.

Local Open Scope string_scope.
Local Open Scope Z_scope.
Local Open Scope list_scope.

(** ** Values shared by the tables *)

(** UUID columns and ids travel as strings; timestamps ([new Date()],
    CURRENT_TIMESTAMP) are read from a clock passed to each operation. *)
Abbreviation uuid := string.
Abbreviation timestamp := Z.

(** JavaScript truthiness of a string: only the empty string is falsy. *)
Definition truthy (s : string) : bool := negb (String.eqb s "").

(** [Array.prototype.indexOf]: position of the first equal element, -1
    when there is none. *)
Fixpoint indexOf_from (l : list string) (x : string) (i : Z) : Z :=
  match l with
  | [] => -1
  | y :: l' => if String.eqb y x then i else indexOf_from l' x (i + 1)
  end.

Definition indexOf (l : list string) (x : string) : Z := indexOf_from l x 0.

(** [arr[i]] for a numeric index: [undefined] outside the array. *)
Definition array_get (l : list string) (i : Z) : option string :=
  if i <? 0 then None else l !! Z.to_nat i.

(** [Array.prototype.includes] on an array of strings. *)
Definition includes (l : list string) (x : string) : bool :=
  existsb (String.eqb x) l.

(** ** Rows of the tables (database/init.ts, types/models.ts) *)

Module User.
Record t := mk {
  id : uuid;
  username : string;
  avatar : option string
}.
End User.

Module GameSession.
Record t := mk {
  id : uuid;
  room_id : option uuid;
  status : string;
  current_round : Z;
  game_state : option string;
  participant_ids : list uuid;
  started_at : option timestamp;
  ended_at : option timestamp;
  created_at : timestamp;
  metadata : string
}.
End GameSession.

(** [Partial<GameSession>]: a key is either absent ([None]) or carries a
    value; for a nullable column the value may itself be null.  No caller
    supplies [id], the column of the WHERE clause. *)
Module SessionUpdates.
Record t := mk {
  room_id : option (option uuid);
  status : option string;
  current_round : option Z;
  game_state : option (option string);
  participant_ids : option (list uuid);
  started_at : option (option timestamp);
  ended_at : option (option timestamp);
  created_at : option timestamp;
  metadata : option string
}.

Definition empty : t :=
  mk None None None None None None None None None.

Definition entry {A} (o : option A) : nat :=
  match o with Some _ => 1%nat | None => 0%nat end.

(** [Object.entries(updates).length], the number of SET clauses. *)
Definition length (u : t) : nat :=
  (entry (room_id u) + entry (status u) + entry (current_round u) +
   entry (game_state u) + entry (participant_ids u) +
   entry (started_at u) + entry (ended_at u) + entry (created_at u) +
   entry (metadata u))%nat.
End SessionUpdates.

Module RoundResponse.
Record t := mk {
  game_session_id : uuid;
  user_id : uuid;
  round_number : Z;
  round_type : option string;
  response_text : option string;
  response_data : option string;
  raw_score : option Z;
  submitted_at : timestamp
}.

(** The columns of UNIQUE(game_session_id, user_id, round_number). *)
Definition same_key (a b : t) : bool :=
  String.eqb (game_session_id a) (game_session_id b) &&
  String.eqb (user_id a) (user_id b) &&
  (round_number a =? round_number b).
End RoundResponse.

(** ** The database *)

(** The errors [pool.query] rejects with: no connection, and the
    SQLSTATE classes the modelled statements can raise.  A unique
    violation names the columns of the violated key, as the detail
    [Key (columns)=(values) already exists.] of the server does. *)
Inductive PgError :=
| connection_error
| syntax_error
| unique_violation (columns : string)
| foreign_key_violation
| not_null_violation
| numeric_value_out_of_range
| string_data_right_truncation
| character_not_in_repertoire.

(** ** What the column types accept *)

(** A string is its sequence of characters.  INT is a signed 32-bit
    integer; a text value cannot hold U+0000; VARCHAR(n) takes at most
    [n] characters, except that characters in excess are dropped when
    all of them are spaces. *)
Definition int4 (n : Z) : bool :=
  (-2147483648 <=? n) && (n <=? 2147483647).

Fixpoint has_nul (s : string) : bool :=
  match s with
  | EmptyString => false
  | String c s' => Ascii.eqb c Ascii.zero || has_nul s'
  end.

Fixpoint all_spaces (s : string) : bool :=
  match s with
  | EmptyString => true
  | String c s' => Ascii.eqb c (Ascii.ascii_of_nat 32) && all_spaces s'
  end.

Fixpoint keep_first (n : nat) (s : string) : string :=
  match n, s with
  | S n', String c s' => String c (keep_first n' s')
  | _, _ => EmptyString
  end.

Fixpoint excess (n : nat) (s : string) : string :=
  match n, s with
  | S n', String _ s' => excess n' s'
  | _, _ => s
  end.

Definition pg_int (n : Z) : PgError + Z :=
  if int4 n then inr n else inl numeric_value_out_of_range.

Definition pg_text (s : string) : PgError + string :=
  if has_nul s then inl character_not_in_repertoire else inr s.

Definition pg_varchar (n : nat) (s : string) : PgError + string :=
  if has_nul s then inl character_not_in_repertoire
  else if (String.length s <=? n)%nat then inr s
  else if all_spaces (excess n s) then inr (keep_first n s)
  else inl string_data_right_truncation.

(** An optional value, for a key that may be absent or a column that
    may be null: nothing is accepted as it is. *)
Definition nullable {A} (accept : A -> PgError + A) (v : option A)
  : PgError + option A :=
  match v with
  | None => inr None
  | Some a => match accept a with
              | inl e => inl e
              | inr a' => inr (Some a')
              end
  end.

(** A value that is stored as it is sent: within the width and free of
    U+0000. *)
Definition fits (n : nat) (s : string) : bool :=
  negb (has_nul s) && (String.length s <=? n)%nat.

(** The tables the modelled statements touch.  [db_up] is false when
    [pool.query] rejects before any statement runs. *)
Record Db := mkDb {
  db_up : bool;
  rooms_table : list uuid;
  users : list User.t;
  game_sessions : list GameSession.t;
  round_responses : list RoundResponse.t
}.

Definition set_game_sessions (l : list GameSession.t) (d : Db) : Db :=
  mkDb (db_up d) (rooms_table d) (users d) l (round_responses d).

Definition set_round_responses (l : list RoundResponse.t) (d : Db) : Db :=
  mkDb (db_up d) (rooms_table d) (users d) (game_sessions d) l.

(** A statement runs against the database and either throws or returns
    its result rows; a statement that throws changes nothing, but what
    earlier statements of the same handler wrote stays written. *)
Definition Query (A : Type) : Type := Db -> Db * (PgError + A).

Definition qret {A} (a : A) : Query A := fun d => (d, inr a).

Definition qthrow {A} (e : PgError) : Query A := fun d => (d, inl e).

Definition qbind {A B} (q : Query A) (k : A -> Query B) : Query B :=
  fun d => match q d with
           | (d', inl e) => (d', inl e)
           | (d', inr a) => k a d'
           end.

Notation "x <~ q ;; k" := (qbind q (fun x => k))
  (at level 100, q at next level, k at level 200, right associativity).

(** [query] of database/connection.ts: every statement goes through the
    pool, which rejects when the server cannot be reached. *)
Definition query {A} (stmt : Query A) : Query A :=
  fun d => if db_up d then stmt d else (d, inl connection_error).

(** ** Statements *)

Definition has_id (i : uuid) (s : GameSession.t) : bool :=
  String.eqb (GameSession.id s) i.

(** SELECT * FROM game_sessions WHERE id = $1 *)
Definition select_session (i : uuid) : Query (list GameSession.t) :=
  fun d => (d, inr (filter (fun s => has_id i s = true) (game_sessions d))).

(** One row after SET: supplied columns take their new value, the others
    keep theirs. *)
Definition apply_updates (u : SessionUpdates.t) (s : GameSession.t)
  : GameSession.t :=
  GameSession.mk
    (GameSession.id s)
    (default (GameSession.room_id s) (SessionUpdates.room_id u))
    (default (GameSession.status s) (SessionUpdates.status u))
    (default (GameSession.current_round s) (SessionUpdates.current_round u))
    (default (GameSession.game_state s) (SessionUpdates.game_state u))
    (default (GameSession.participant_ids s) (SessionUpdates.participant_ids u))
    (default (GameSession.started_at s) (SessionUpdates.started_at u))
    (default (GameSession.ended_at s) (SessionUpdates.ended_at u))
    (default (GameSession.created_at s) (SessionUpdates.created_at u))
    (default (GameSession.metadata s) (SessionUpdates.metadata u)).

(** The values of a field set as the columns take them: status and
    game_state are VARCHAR(50), current_round is INT.  A value one of
    them refuses makes the statement throw, whatever rows it would have
    matched.  Ids, timestamps and the metadata text stand for values
    their columns accept. *)
Definition coerce_updates (u : SessionUpdates.t)
  : PgError + SessionUpdates.t :=
  match nullable pg_int (SessionUpdates.current_round u),
        nullable (pg_varchar 50) (SessionUpdates.status u),
        nullable (nullable (pg_varchar 50)) (SessionUpdates.game_state u)
  with
  | inl e, _, _ => inl e
  | inr _, inl e, _ => inl e
  | inr _, inr _, inl e => inl e
  | inr n, inr st, inr label =>
      inr (SessionUpdates.mk (SessionUpdates.room_id u) st n label
             (SessionUpdates.participant_ids u)
             (SessionUpdates.started_at u) (SessionUpdates.ended_at u)
             (SessionUpdates.created_at u) (SessionUpdates.metadata u))
  end.

(** A field set whose values the columns store as they are sent. *)
Definition stored_as_sent (u : SessionUpdates.t) : bool :=
  match SessionUpdates.current_round u with
  | Some n => int4 n
  | None => true
  end &&
  match SessionUpdates.status u with
  | Some s => fits 50 s
  | None => true
  end &&
  match SessionUpdates.game_state u with
  | Some (Some g) => fits 50 g
  | _ => true
  end.

(** room_id REFERENCES rooms(id): a room written into a row must exist. *)
Definition room_known (u : SessionUpdates.t) (d : Db) : bool :=
  match SessionUpdates.room_id u with
  | Some (Some r) => existsb (String.eqb r) (rooms_table d)
  | _ => true
  end.

(** UPDATE game_sessions SET ... WHERE id = $1 RETURNING * *)
Definition update_session (i : uuid) (u : SessionUpdates.t)
  : Query (list GameSession.t) :=
  fun d =>
    match coerce_updates u with
    | inl e => (d, inl e)
    | inr v =>
        if existsb (has_id i) (game_sessions d) && negb (room_known v d)
        then (d, inl foreign_key_violation)
        else
          let step s := if has_id i s then apply_updates v s else s in
          let rows := step <$> game_sessions d in
          (set_game_sessions rows d,
           inr (filter (fun s => has_id i s = true) rows))
    end.

(** INSERT INTO game_sessions (room_id, status, participant_ids, metadata)
    VALUES (...) RETURNING *; [fresh] is the id gen_random_uuid() draws,
    [now] the CURRENT_TIMESTAMP of the statement.  The remaining columns
    take their defaults: current_round 0, the nullable ones NULL. *)
Definition insert_session (fresh : uuid) (now : timestamp) (room : uuid)
    (st : string) (parts : list uuid) (meta : string)
  : Query (list GameSession.t) :=
  fun d =>
    if negb (includes (rooms_table d) room)
    then (d, inl foreign_key_violation)
    else if existsb (has_id fresh) (game_sessions d)
    then (d, inl (unique_violation "id"))
    else
      let row := GameSession.mk fresh (Some room) st 0 None parts
                   None None now meta in
      (set_game_sessions (game_sessions d ++ [row]) d, inr [row]).

(** The optional clauses that follow VALUES (...) in an INSERT, in the
    order they are written in the statement text. *)
Inductive InsertClause :=
| ON_CONFLICT_DO_UPDATE
| RETURNING.

(** PostgreSQL's grammar: at most one ON CONFLICT clause, then at most
    one RETURNING clause, in that order. *)
Definition insert_clauses_ok (cs : list InsertClause) : bool :=
  match cs with
  | [] | [RETURNING] | [ON_CONFLICT_DO_UPDATE]
  | [ON_CONFLICT_DO_UPDATE; RETURNING] => true
  | _ => false
  end.

Definition session_exists (i : uuid) (d : Db) : bool :=
  existsb (has_id i) (game_sessions d).

Definition user_exists (i : uuid) (d : Db) : bool :=
  existsb (fun u => String.eqb (User.id u) i) (users d).

(** DO UPDATE SET response_text = EXCLUDED.response_text,
                  response_data = EXCLUDED.response_data *)
Definition overwrite_response (new old : RoundResponse.t) : RoundResponse.t :=
  RoundResponse.mk
    (RoundResponse.game_session_id old) (RoundResponse.user_id old)
    (RoundResponse.round_number old) (RoundResponse.round_type old)
    (RoundResponse.response_text new) (RoundResponse.response_data new)
    (RoundResponse.raw_score old) (RoundResponse.submitted_at old).

(** The values of a response as the columns take them: round_number
    is INT, round_type VARCHAR(50), response_text TEXT. *)
Definition coerce_response (row : RoundResponse.t)
  : PgError + RoundResponse.t :=
  match pg_int (RoundResponse.round_number row),
        nullable (pg_varchar 50) (RoundResponse.round_type row),
        nullable pg_text (RoundResponse.response_text row)
  with
  | inl e, _, _ => inl e
  | inr _, inl e, _ => inl e
  | inr _, inr _, inl e => inl e
  | inr n, inr ty, inr text =>
      inr (RoundResponse.mk (RoundResponse.game_session_id row)
             (RoundResponse.user_id row) n ty text
             (RoundResponse.response_data row) (RoundResponse.raw_score row)
             (RoundResponse.submitted_at row))
  end.

(** INSERT INTO round_responses (...) VALUES (...) followed by [cs].
    The table has UNIQUE(game_session_id, user_id, round_number) and
    foreign keys to game_sessions and users. *)
Definition insert_round_response (cs : list InsertClause)
    (sent : RoundResponse.t) : Query (list RoundResponse.t) :=
  fun d =>
    if negb (insert_clauses_ok cs) then (d, inl syntax_error)
    else
      match coerce_response sent with
      | inl e => (d, inl e)
      | inr row =>
          if existsb (RoundResponse.same_key row) (round_responses d) then
            if existsb (fun c => match c with ON_CONFLICT_DO_UPDATE => true
                                            | RETURNING => false end) cs
            then
              let step r := if RoundResponse.same_key row r
                            then overwrite_response row r else r in
              let rows := step <$> round_responses d in
              (set_round_responses rows d,
               inr (filter (fun r => RoundResponse.same_key row r = true)
                      rows))
            else
              (d, inl (unique_violation
                         "game_session_id, user_id, round_number"))
          else if negb (session_exists (RoundResponse.game_session_id row) d
                        && user_exists (RoundResponse.user_id row) d)
          then (d, inl foreign_key_violation)
          else (set_round_responses (round_responses d ++ [row]) d,
                inr [row])
      end.

(** SELECT * FROM rooms WHERE id = $1 (only the ids are kept). *)
Definition select_room (i : uuid) : Query (list uuid) :=
  fun d => (d, inr (filter (fun r => String.eqb r i = true) (rooms_table d))).

(** ** The leaderboard query *)

(** The driver hands a BIGINT column (ROW_NUMBER, COUNT, the SUM of an
    INT column) to JavaScript as its decimal text, not as a number. *)
Definition bigint_text (n : Z) : string := pretty n.

(** An entry as [getLeaderboard] returns it: [score] is a number
    ([parseInt] of the sum), [rank] and [roundsCompleted] are the
    values of the row as the driver returned them. *)
Module LeaderboardEntry.
Record t := mk {
  id : uuid;
  username : string;
  avatar : option string;
  score : Z;
  rank : string;
  roundsCompleted : string
}.
End LeaderboardEntry.

Module Leaderboard.

Definition sumZ (l : list Z) : Z := foldr Z.add 0 l.

(** rr.game_session_id = gs.id AND rr.user_id = u.id *)
Definition responses_of (sid user : uuid) (d : Db) : list RoundResponse.t :=
  filter (fun r => (String.eqb (RoundResponse.game_session_id r) sid &&
                    String.eqb (RoundResponse.user_id r) user) = true)
         (round_responses d).

(** LEFT JOIN: every response of the user, or one row of nulls. *)
Definition left_join (rs : list RoundResponse.t)
  : list (option RoundResponse.t) :=
  match rs with
  | [] => [None]
  | _ => Some <$> rs
  end.

(** The joined rows one entry of participant_ids contributes:
    JOIN users u ON u.id = participant_id, then the LEFT JOIN. *)
Definition participant_rows (sid : uuid) (d : Db) (participant : uuid)
  : list (User.t * option RoundResponse.t) :=
  u ← filter (fun u => String.eqb (User.id u) participant = true) (users d);
  (fun r => (u, r)) <$> left_join (responses_of sid (User.id u) d).

(** FROM game_sessions gs CROSS JOIN LATERAL unnest(gs.participant_ids)
    ... WHERE gs.id = $1 *)
Definition joined_rows (sid : uuid) (d : Db)
  : list (User.t * option RoundResponse.t) :=
  gs ← filter (fun s => has_id sid s = true) (game_sessions d);
  participant ← GameSession.participant_ids gs;
  participant_rows (GameSession.id gs) d participant.

(** GROUP BY u.id: one group per user id, in order of first appearance. *)
Fixpoint distinct_users (l : list User.t) : list User.t :=
  match l with
  | [] => []
  | u :: l' =>
      u :: filter (fun v => String.eqb (User.id v) (User.id u) = false)
             (distinct_users l')
  end.

Definition group (rows : list (User.t * option RoundResponse.t)) (u : User.t)
  : list (option RoundResponse.t) :=
  snd <$> filter (fun row => String.eqb (User.id (fst row)) (User.id u) = true)
            rows.

(** COALESCE(rr.raw_score, 0) *)
Definition coalesce_score (r : option RoundResponse.t) : Z :=
  match r with
  | Some r => default 0 (RoundResponse.raw_score r)
  | None => 0
  end.

(** COUNT(DISTINCT rr.round_number) over the rows of a group. *)
Definition distinct_rounds (rs : list (option RoundResponse.t)) : nat :=
  length (remove_dups (omap (fmap RoundResponse.round_number) rs)).

(** One row of the grouped result, before ranking. *)
Record Aggregate := mkAggregate {
  agg_user : User.t;
  total_score : Z;
  rounds_completed : nat
}.

Definition aggregates (sid : uuid) (d : Db) : list Aggregate :=
  let rows := joined_rows sid d in
  (fun u => mkAggregate u (sumZ (coalesce_score <$> group rows u))
              (distinct_rounds (group rows u)))
    <$> distinct_users (fst <$> rows).

(** ORDER BY total_score DESC: [a] may come before [b]. *)
Definition by_score_desc (a b : Aggregate) : Prop :=
  total_score b <= total_score a.

#[global] Instance by_score_desc_dec a b : Decision (by_score_desc a b).
Proof. unfold by_score_desc. apply _. Defined.

(** ROW_NUMBER() OVER (ORDER BY SUM(...) DESC), counted from [n]. *)
Fixpoint row_number (n : Z) (l : list Aggregate) : list (Z * Aggregate) :=
  match l with
  | [] => []
  | a :: l' => (n, a) :: row_number (n + 1) l'
  end.

(** The rows of the query: group, rank over the whole result, order by
    total, keep the first [limit].  The window and the ORDER BY use the
    same key; both are read as the same sort, and rows with equal
    totals, whose order the server leaves open, come in the order this
    sort gives them. *)
Definition leaderboard_rows (sid : uuid) (limit : nat)
  : Query (list (Z * Aggregate)) :=
  fun d =>
    (d, inr (take limit
               (row_number 1 (merge_sort by_score_desc (aggregates sid d))))).

(** [result.rows.map(row => ...)]; [parseInt] of the decimal text of the
    sum is the sum, [row.rank] and [row.rounds_completed] are passed on
    as they are.  The average sentiment, a float, is left out. *)
Definition entry_of (row : Z * Aggregate) : LeaderboardEntry.t :=
  LeaderboardEntry.mk
    (User.id (agg_user (snd row))) (User.username (agg_user (snd row)))
    (User.avatar (agg_user (snd row))) (total_score (snd row))
    (bigint_text (fst row))
    (bigint_text (Z.of_nat (rounds_completed (snd row)))).

(** The participant's total as the specification words it: the sum of
    the scores of that participant's responses in the session. *)
Definition participant_total (sid user : uuid) (d : Db) : Z :=
  sumZ ((fun r => default 0 (RoundResponse.raw_score r))
          <$> responses_of sid user d).


End Leaderboard.

(** ** Ordering and the read-only session queries *)

(** ORDER BY key DESC on an integer key: [a] may come before [b]. *)
Definition desc_by {A} (key : A -> Z) (a b : A) : Prop := key b <= key a.

#[global] Instance desc_by_dec {A} (key : A -> Z) a b :
  Decision (desc_by key a b).
Proof. unfold desc_by. apply _. Defined.

Definition order_desc {A} (key : A -> Z) (l : list A) : list A :=
  merge_sort (desc_by key) l.

(** status IN ('lobby', 'playing') *)
Definition is_active (s : GameSession.t) : bool :=
  includes ["lobby"; "playing"] (GameSession.status s).

(** SELECT * FROM game_sessions WHERE status IN ('lobby', 'playing')
    ORDER BY created_at DESC *)
Definition select_active : Query (list GameSession.t) :=
  fun d =>
    (d, inr (order_desc GameSession.created_at
               (filter (fun s => is_active s = true) (game_sessions d)))).

(** room_id = $1; a null room_id matches nothing. *)
Definition in_room (room : uuid) (s : GameSession.t) : bool :=
  match GameSession.room_id s with
  | Some r => String.eqb r room
  | None => false
  end.

(** SELECT * FROM game_sessions WHERE room_id = $1
    ORDER BY created_at DESC LIMIT $2 *)
Definition select_by_room (room : uuid) (limit : nat)
  : Query (list GameSession.t) :=
  fun d =>
    (d, inr (take limit
               (order_desc GameSession.created_at
                  (filter (fun s => in_room room s = true)
                     (game_sessions d))))).

(** SELECT gs.* FROM game_sessions gs WHERE $1 = ANY(gs.participant_ids)
    ORDER BY gs.created_at DESC LIMIT $2 *)
Definition select_by_user (user : uuid) (limit : nat)
  : Query (list GameSession.t) :=
  fun d =>
    (d, inr (take limit
               (order_desc GameSession.created_at
                  (filter (fun s => includes (GameSession.participant_ids s)
                                      user = true)
                     (game_sessions d))))).

(** SELECT COUNT( * ) FROM game_sessions
    WHERE id = $1 AND array_length(participant_ids, 1) > 0;
    array_length of an empty array is null, so the row is not counted. *)
Definition count_with_participants (i : uuid) : Query Z :=
  fun d =>
    (d, inr (Z.of_nat
               (length
                  (filter (fun s => (has_id i s &&
                                     negb (Nat.eqb
                                             (length
                                                (GameSession.participant_ids s))
                                             0)) = true)
                     (game_sessions d))))).

(** ** GameSessionRepository *)

Module GameSessionRepository.

(** [create(roomId, participantIds, metadata?)]; [metadata] is the
    JSON text of the bag, the empty object when it is not given. *)
Definition create (fresh : uuid) (now : timestamp) (roomId : uuid)
    (participantIds : list uuid) (metadata : option string)
  : Query (option GameSession.t) :=
  rows <~ query (insert_session fresh now roomId "lobby" participantIds
                   (default "{}" metadata)) ;;
  qret (head rows).

Definition findById (id : uuid) : Query (option GameSession.t) :=
  rows <~ query (select_session id) ;;
  qret (head rows).

Definition update (id : uuid) (updates : SessionUpdates.t)
  : Query (option GameSession.t) :=
  if (SessionUpdates.length updates =? 0)%nat then findById id
  else
    rows <~ query (update_session id updates) ;;
    qret (head rows).

Definition updateStatus (id : uuid) (status : string)
    (gameState : option string) : Query (option GameSession.t) :=
  let updates :=
    SessionUpdates.mk None (Some status) None
      (match gameState with
       | Some g => if truthy g then Some (Some g) else None
       | None => None
       end)
      None None None None None in
  update id updates.

Definition endSession (now : timestamp) (id : uuid)
  : Query (option GameSession.t) :=
  update id (SessionUpdates.mk None (Some "completed") None None None None
               (Some (Some now)) None None).

Definition getLeaderboard (sid : uuid) (limit : nat)
  : Query (list LeaderboardEntry.t) :=
  rows <~ query (Leaderboard.leaderboard_rows sid limit) ;;
  qret (Leaderboard.entry_of <$> rows).

Definition listActive : Query (list GameSession.t) :=
  query select_active.

(** [limit] defaults to 10 at the call sites that omit it. *)
Definition listByRoom (roomId : uuid) (limit : nat)
  : Query (list GameSession.t) :=
  query (select_by_room roomId limit).

(** [limit] defaults to 20 at the call sites that omit it. *)
Definition getUserSessions (userId : uuid) (limit : nat)
  : Query (list GameSession.t) :=
  query (select_by_user userId limit).

Definition countActiveParticipants (sessionId : uuid) : Query Z :=
  query (count_with_participants sessionId).

End GameSessionRepository.

(** ** The real-time gateway (socket handlers) *)

(** An authenticated socket: the middleware has set [userId] and
    [username] from the token; [sessionId] is set by join-session. *)
Record Socket := mkSocket {
  socket_id : string;
  userId : uuid;
  username : string;
  sessionId : option uuid
}.

(** Server-to-client events with their payloads. *)
Inductive ServerEvent :=
| user_joined (user_id : uuid) (user_name : string)
| game_started (session : option GameSession.t) (at_time : timestamp)
| response_submitted (user_id : uuid) (user_name : string) (roundNumber : Z)
| round_changed (round : Z) (gameState : option string) (at_time : timestamp)
| game_finished (at_time : timestamp).

(** [io.to(room).emit(ev)] reaches every socket of the room,
    [socket.broadcast.to(room).emit(ev)] every one but the sender. *)
Inductive Emission :=
| io_to (room : uuid) (ev : ServerEvent)
| broadcast_to (sender : string) (room : uuid) (ev : ServerEvent).

(** The acknowledgment envelope [{success, data?, error?}]. *)
Inductive AckData :=
| data_session (s : GameSession.t)
| data_response (r : option RoundResponse.t).

Record Ack := mkAck {
  success : bool;
  data : option AckData;
  error : option string
}.

Definition ack_ok (d : option AckData) : Ack := mkAck true d None.
Definition ack_fail (msg : string) : Ack := mkAck false None (Some msg).

(** The gateway owns the adapter's rooms (room name to socket ids) and
    talks to the database. *)
Record Gateway := mkGateway {
  db : Db;
  rooms : gmap string (gset string)
}.

Definition room_members (g : Gateway) (room : uuid) : gset string :=
  default ∅ (rooms g !! room).

(** The sockets an emission is delivered to. *)
Definition recipients (g : Gateway) (e : Emission) : gset string :=
  match e with
  | io_to room _ => room_members g room
  | broadcast_to sender room _ => room_members g room ∖ {[sender]}
  end.

Definition payload (e : Emission) : ServerEvent :=
  match e with
  | io_to _ ev => ev
  | broadcast_to _ _ ev => ev
  end.

(** What one handler run leaves behind. *)
Record Outcome := mkOutcome {
  gateway : Gateway;
  socket : Socket;
  ack : Ack;
  emitted : list Emission
}.

Definition roundSequence : list string :=
  ["questions"; "synergy"; "blindChat"; "humor"; "results"].

(** [session.game_state || 'questions'] *)
Definition state_or_questions (game_state : option string) : string :=
  match game_state with
  | Some g => if truthy g then g else "questions"
  | None => "questions"
  end.

Module SocketHandlers.

Definition join_session (g : Gateway) (sock : Socket) (sid : uuid)
  : Outcome :=
  match GameSessionRepository.findById sid (db g) with
  | (d, inl _) =>
      mkOutcome (mkGateway d (rooms g)) sock
        (ack_fail "Internal server error") []
  | (d, inr None) =>
      mkOutcome (mkGateway d (rooms g)) sock
        (ack_fail "Session not found") []
  | (d, inr (Some session)) =>
      if negb (includes (GameSession.participant_ids session) (userId sock))
      then mkOutcome (mkGateway d (rooms g)) sock
             (ack_fail "Not a participant in this session") []
      else
        mkOutcome
          (mkGateway d
             (<[sid := {[socket_id sock]} ∪ room_members g sid]> (rooms g)))
          (mkSocket (socket_id sock) (userId sock) (username sock) (Some sid))
          (ack_ok (Some (data_session session)))
          [broadcast_to (socket_id sock) sid
             (user_joined (userId sock) (username sock))]
  end.

Definition start_game (now : timestamp) (g : Gateway) (sock : Socket)
    (sid : uuid) : Outcome :=
  match GameSessionRepository.updateStatus sid "playing" (Some "questions")
          (db g) with
  | (d, inl _) =>
      mkOutcome (mkGateway d (rooms g)) sock
        (ack_fail "Failed to start game") []
  | (d, inr updated) =>
      mkOutcome (mkGateway d (rooms g)) sock (ack_ok None)
        [io_to sid (game_started updated now)]
  end.

(** The payload of submit-response. *)
Record SubmitResponse := mkSubmit {
  sr_sessionId : uuid;
  sr_roundNumber : Z;
  sr_roundType : string;
  sr_responseText : string
}.

Definition submit_response (now : timestamp) (g : Gateway) (sock : Socket)
    (msg : SubmitResponse) : Outcome :=
  let row :=
    RoundResponse.mk (sr_sessionId msg) (userId sock) (sr_roundNumber msg)
      (Some (sr_roundType msg)) (Some (sr_responseText msg)) None
      (Some 10) now in
  match query (insert_round_response [RETURNING] row) (db g) with
  | (d, inl _) =>
      mkOutcome (mkGateway d (rooms g)) sock
        (ack_fail "Failed to submit response") []
  | (d, inr rows) =>
      mkOutcome (mkGateway d (rooms g)) sock
        (ack_ok (Some (data_response (head rows))))
        [io_to (sr_sessionId msg)
           (response_submitted (userId sock) (username sock)
              (sr_roundNumber msg))]
  end.

(** The index the handler computes from the loaded session. *)
Definition currentIndex (session : GameSession.t) : Z :=
  indexOf roundSequence (state_or_questions (GameSession.game_state session)).

Definition nextIndex (session : GameSession.t) : Z :=
  currentIndex session + 1.

(** The two statements of next-round, kept apart because the handler
    suspends between them: the read with what it decides, and the
    write that follows. *)
Inductive NextRoundPlan :=
| plan_not_found
| plan_finish
| plan_advance (nextState : option string) (next : Z).

Definition plan_next_round (session : option GameSession.t)
  : NextRoundPlan :=
  match session with
  | None => plan_not_found
  | Some s =>
      if nextIndex s >=? Z.of_nat (length roundSequence) then plan_finish
      else plan_advance (array_get roundSequence (nextIndex s)) (nextIndex s)
  end.

Definition next_round_write (now : timestamp) (sid : uuid)
    (p : NextRoundPlan) : Query (Ack * list Emission) :=
  match p with
  | plan_not_found => qret (ack_fail "Session not found", [])
  | plan_finish =>
      _ <~ GameSessionRepository.endSession now sid ;;
      qret (ack_ok None, [io_to sid (game_finished now)])
  | plan_advance nextState next =>
      _ <~ GameSessionRepository.update sid
             (SessionUpdates.mk None None (Some next) (Some nextState)
                None None None None None) ;;
      qret (ack_ok None, [io_to sid (round_changed next nextState now)])
  end.

Definition next_round (now : timestamp) (g : Gateway) (sock : Socket)
    (sid : uuid) : Outcome :=
  match (session <~ GameSessionRepository.findById sid ;;
         next_round_write now sid (plan_next_round session)) (db g) with
  | (d, inl _) =>
      mkOutcome (mkGateway d (rooms g)) sock
        (ack_fail "Failed to advance round") []
  | (d, inr (a, es)) => mkOutcome (mkGateway d (rooms g)) sock a es
  end.

End SocketHandlers.

(** ** The REST routes of routes/games.ts *)

Definition dquote : string := String (Ascii.ascii_of_nat 34) EmptyString.

(** [JSON.stringify({ created_by: userId })] *)
Definition json_created_by (user : uuid) : string :=
  "{" +:+ dquote +:+ "created_by" +:+ dquote +:+ ":" +:+
  dquote +:+ user +:+ dquote +:+ "}".

Inductive Body :=
| body_session (s : option GameSession.t)
| body_response (r : option RoundResponse.t)
| body_leaderboard (l : list LeaderboardEntry.t) (total : nat).

(** A response is a success with its status code and data, or the
    envelope the error handler builds: status code and message. *)
Inductive HttpResponse :=
| http_success (code : Z) (b : Body)
| http_failure (code : Z) (message : string).

(** [errorHandler] on an error that is not an [ApiError]: 23505 and
    23503 have their own answers, the first built from the key columns
    the error's detail names; everything else is a 500 (with the
    message of the production build). *)
Definition errorHandler (e : PgError) : HttpResponse :=
  match e with
  | unique_violation columns =>
      http_failure 409 (columns +:+ " already exists")
  | foreign_key_violation =>
      http_failure 400 "Invalid reference to related data"
  | connection_error | syntax_error | not_null_violation
  | numeric_value_out_of_range | string_data_right_truncation
  | character_not_in_repertoire =>
      http_failure 500 "Internal server error"
  end.

Module Routes.

(** POST /session, after [authMiddleware] has set [user]. *)
Definition post_session (fresh : uuid) (now : timestamp) (user : uuid)
    (roomId : uuid) (participantIds : list uuid) (d : Db)
  : Db * HttpResponse :=
  if (length participantIds <? 1)%nat
  then (d, http_failure 422 "Validation failed")
  else
    match query (select_room roomId) d with
    | (d1, inl e) => (d1, errorHandler e)
    | (d1, inr []) => (d1, http_failure 404 "Room not found")
    | (d1, inr (_ :: _)) =>
        match GameSessionRepository.create fresh now roomId participantIds
                (Some (json_created_by user)) d1 with
        | (d2, inl e) => (d2, errorHandler e)
        | (d2, inr session) => (d2, http_success 201 (body_session session))
        end
    end.

(** The status of a PATCH body: a string, or an array of strings, which
    [isIn] checks element by element. *)
Inductive StatusValue :=
| status_word (s : string)
| status_words (l : list string).

(** The text the driver sends for an array of strings: the array
    literal with every element quoted, quotes and backslashes in it
    escaped. *)
Fixpoint escape_element (s : string) : string :=
  match s with
  | EmptyString => EmptyString
  | String c s' =>
      if Ascii.eqb c (Ascii.ascii_of_nat 34) || Ascii.eqb c (Ascii.ascii_of_nat 92)
      then String (Ascii.ascii_of_nat 92) (String c (escape_element s'))
      else String c (escape_element s')
  end.

Fixpoint array_elements (l : list string) : string :=
  match l with
  | [] => ""
  | [x] => dquote +:+ escape_element x +:+ dquote
  | x :: l' => dquote +:+ escape_element x +:+ dquote +:+ "," +:+ array_elements l'
  end.

Definition arrayString (l : list string) : string :=
  "{" +:+ array_elements l +:+ "}".

(** The body of PATCH /session/:sessionId; an absent key is [None].
    [gameState] and [currentRound] have the types their validators
    name. *)
Record PatchBody := mkPatch {
  p_status : option StatusValue;
  p_gameState : option string;
  p_currentRound : option Z
}.

Definition status_word_ok (s : string) : bool :=
  includes ["lobby"; "playing"; "completed"; "cancelled"] s.

Definition patch_valid (b : PatchBody) : bool :=
  match p_status b with
  | Some (status_word s) => status_word_ok s
  | Some (status_words l) => forallb status_word_ok l
  | None => true
  end &&
  match p_currentRound b with
  | Some n => 0 <=? n
  | None => true
  end.

(** [if (status) ...; if (gameState) ...; if (currentRound !== undefined) ...];
    an array is truthy whatever it holds. *)
Definition patch_updates (b : PatchBody) : SessionUpdates.t :=
  SessionUpdates.mk None
    (match p_status b with
     | Some (status_word s) => if truthy s then Some s else None
     | Some (status_words l) => Some (arrayString l)
     | None => None
     end)
    (p_currentRound b)
    (match p_gameState b with
     | Some g => if truthy g then Some (Some g) else None
     | None => None
     end)
    None None None None None.

Definition patch_session (sid : uuid) (b : PatchBody) (d : Db)
  : Db * HttpResponse :=
  if negb (patch_valid b) then (d, http_failure 422 "Validation failed")
  else
    match GameSessionRepository.findById sid d with
    | (d1, inl e) => (d1, errorHandler e)
    | (d1, inr None) => (d1, http_failure 404 "Game session not found")
    | (d1, inr (Some _)) =>
        match GameSessionRepository.update sid (patch_updates b) d1 with
        | (d2, inl e) => (d2, errorHandler e)
        | (d2, inr updated) => (d2, http_success 200 (body_session updated))
        end
    end.

(** The body of POST /session/:sessionId/response; [responseData] is
    the JSON text of the object when the key is present. *)
Record ResponseBody := mkResponseBody {
  b_roundNumber : Z;
  b_roundType : string;
  b_responseText : option string;
  b_responseData : option string
}.

(** The statement of this route is written
    INSERT ... VALUES (...) RETURNING * ON CONFLICT (...) DO UPDATE SET
    ... RETURNING *. *)
Definition post_response_clauses : list InsertClause :=
  [RETURNING; ON_CONFLICT_DO_UPDATE; RETURNING].

Definition post_response (now : timestamp) (user : uuid) (sid : uuid)
    (b : ResponseBody) (d : Db) : Db * HttpResponse :=
  if b_roundNumber b <? 1 then (d, http_failure 422 "Validation failed")
  else
    match GameSessionRepository.findById sid d with
    | (d1, inl e) => (d1, errorHandler e)
    | (d1, inr None) => (d1, http_failure 404 "Game session not found")
    | (d1, inr (Some session)) =>
        if negb (includes (GameSession.participant_ids session) user)
        then (d1, http_failure 403
                    "You are not participating in this session")
        else
          let row :=
            RoundResponse.mk sid user (b_roundNumber b)
              (Some (b_roundType b)) (b_responseText b)
              (Some (default "{}" (b_responseData b))) (Some 10) now in
          match query (insert_round_response post_response_clauses row) d1
          with
          | (d2, inl e) => (d2, errorHandler e)
          | (d2, inr rows) =>
              (d2, http_success 201 (body_response (head rows)))
          end
    end.

(** GET /session/:sessionId/leaderboard: the route reads no limit and
    [getLeaderboard] falls back on its default of 10. *)
Definition get_leaderboard (sid : uuid) (d : Db) : Db * HttpResponse :=
  match GameSessionRepository.getLeaderboard sid 10 d with
  | (d1, inl e) => (d1, errorHandler e)
  | (d1, inr leaderboard) =>
      (d1, http_success 200 (body_leaderboard leaderboard (length leaderboard)))
  end.

End Routes.

(** ** Reading the tables back *)

(** The row [findById] returns: the first row carrying the id. *)
Definition lookup_session (i : uuid) (d : Db) : option GameSession.t :=
  head (filter (fun s => has_id i s = true) (game_sessions d)).

(** What UPDATE ... WHERE id = $1 does to one row of the table. *)
Definition update_row (i : uuid) (u : SessionUpdates.t) (s : GameSession.t)
  : GameSession.t :=
  if has_id i s then apply_updates u s else s.

(** The stored responses of one (session, participant, round) key. *)
Definition responses_for (sid user : uuid) (n : Z) (d : Db)
  : list RoundResponse.t :=
  filter (fun r => (String.eqb (RoundResponse.game_session_id r) sid &&
                    String.eqb (RoundResponse.user_id r) user &&
                    (RoundResponse.round_number r =? n)) = true)
         (round_responses d).

(** ** A small world used by the examples *)

Module Fixture.

Definition alice : User.t := User.mk "user-a" "alice" None.
Definition bob : User.t := User.mk "user-b" "bob" None.
Definition carol : User.t := User.mk "user-c" "carol" None.

(** A session as [create] leaves it, with alice and bob taking part. *)
Definition fresh_session : GameSession.t :=
  GameSession.mk "s1" (Some "room-1") "lobby" 0 None ["user-a"; "user-b"]
    None None 5 "{}".

Definition world : Db :=
  mkDb true ["room-1"] [alice; bob; carol] [fresh_session] [].

Definition hub : Gateway := mkGateway world ∅.

Definition alice_socket : Socket := mkSocket "sock-a" "user-a" "alice" None.
Definition bob_socket : Socket := mkSocket "sock-b" "user-b" "bob" None.
Definition carol_socket : Socket := mkSocket "sock-c" "user-c" "carol" None.

(** The same world with the session moved to a given label and index. *)
Definition session_at (st : string) (label : option string) (n : Z)
  : GameSession.t :=
  GameSession.mk "s1" (Some "room-1") st n label ["user-a"; "user-b"]
    None None 5 "{}".

Definition world_at (st : string) (label : option string) (n : Z) : Db :=
  mkDb true ["room-1"] [alice; bob; carol] [session_at st label n] [].

(** Three participants with seeded scores 30, 50 and 10. *)
Definition seeded (user : uuid) (points : Z) : RoundResponse.t :=
  RoundResponse.mk "s2" user 1 (Some "questions") (Some "Test response")
    None (Some points) 7.

Definition trio : GameSession.t :=
  GameSession.mk "s2" (Some "room-1") "lobby" 0 None
    ["user-a"; "user-b"; "user-c"] None None 6 "{}".

Definition seeded_world : Db :=
  mkDb true ["room-1"] [alice; bob; carol] [fresh_session; trio]
    [seeded "user-a" 30; seeded "user-b" 50; seeded "user-c" 10].

(** Two submissions of alice for round 1 that differ in their text. *)
Definition first_answer : SocketHandlers.SubmitResponse :=
  SocketHandlers.mkSubmit "s1" 1 "questions" "first answer".

Definition second_answer : SocketHandlers.SubmitResponse :=
  SocketHandlers.mkSubmit "s1" 1 "questions" "second answer".

(** Two submissions of alice for round 1 that differ in their text,
    the second holding U+0000 between its two letters. *)
Definition plain_answer : SocketHandlers.SubmitResponse :=
  SocketHandlers.mkSubmit "s1" 1 "questions" "ab".

Definition answer_with_nul : SocketHandlers.SubmitResponse :=
  SocketHandlers.mkSubmit "s1" 1 "questions"
    ("a" +:+ String Ascii.zero "b").

Definition stored (user : uuid) (text : string) (at_time : timestamp)
  : RoundResponse.t :=
  RoundResponse.mk "s1" user 1 (Some "questions") (Some text) None
    (Some 10) at_time.

End Fixture.

(** ** Comparing a row before and after an operation *)

(** The rows agree on every column but [current_round] and [game_state]. *)
Definition same_but_round (a b : GameSession.t) : Prop :=
  GameSession.id a = GameSession.id b /\
  GameSession.room_id a = GameSession.room_id b /\
  GameSession.status a = GameSession.status b /\
  GameSession.participant_ids a = GameSession.participant_ids b /\
  GameSession.started_at a = GameSession.started_at b /\
  GameSession.ended_at a = GameSession.ended_at b /\
  GameSession.created_at a = GameSession.created_at b /\
  GameSession.metadata a = GameSession.metadata b.

(** The rows agree on every column but [status] and [ended_at]. *)
Definition same_but_ending (a b : GameSession.t) : Prop :=
  GameSession.id a = GameSession.id b /\
  GameSession.room_id a = GameSession.room_id b /\
  GameSession.current_round a = GameSession.current_round b /\
  GameSession.game_state a = GameSession.game_state b /\
  GameSession.participant_ids a = GameSession.participant_ids b /\
  GameSession.started_at a = GameSession.started_at b /\
  GameSession.created_at a = GameSession.created_at b /\
  GameSession.metadata a = GameSession.metadata b.

(** A column after UPDATE: the supplied value if its key was in the
    field set, the stored value otherwise. *)
Definition column_after {A} (supplied : option A) (old new : A) : Prop :=
  match supplied with
  | Some v => new = v
  | None => new = old
  end.

(** The row start-game leaves: status playing, label questions. *)
Definition started (s : GameSession.t) : GameSession.t :=
  GameSession.mk (GameSession.id s) (GameSession.room_id s) "playing"
    (GameSession.current_round s) (Some "questions")
    (GameSession.participant_ids s) (GameSession.started_at s)
    (GameSession.ended_at s) (GameSession.created_at s)
    (GameSession.metadata s).

(** ** The session life cycle as a transition system *)

(** The operations that write the session table. *)
Inductive Operation :=
| Create (fresh : uuid) (now : timestamp) (user room : uuid)
    (participantIds : list uuid)
| StartGame (now : timestamp) (sock : Socket) (sid : uuid)
| AdvanceRound (now : timestamp) (sock : Socket) (sid : uuid)
| Patch (sid : uuid) (body : Routes.PatchBody).

Definition run (op : Operation) (g : Gateway) : Gateway :=
  match op with
  | Create fresh now user room parts =>
      mkGateway (fst (Routes.post_session fresh now user room parts (db g)))
        (rooms g)
  | StartGame now sock sid =>
      gateway (SocketHandlers.start_game now g sock sid)
  | AdvanceRound now sock sid =>
      gateway (SocketHandlers.next_round now g sock sid)
  | Patch sid body =>
      mkGateway (fst (Routes.patch_session sid body (db g))) (rooms g)
  end.

(** Every state the operations can produce from an empty session table. *)
Inductive reachable : Gateway -> Prop :=
| reachable_initial g : game_sessions (db g) = [] -> reachable g
| reachable_run op g : reachable g -> reachable (run op g).

(** The stored index is the position of the stored label, a missing
    label being read as the handler reads it. *)
Definition index_matches_label (s : GameSession.t) : Prop :=
  GameSession.current_round s = SocketHandlers.currentIndex s.

Definition round_invariant (s : GameSession.t) : Prop :=
  GameSession.status s = "completed" \/ index_matches_label s.

(** Operations used in step with the round machine: start-game only on
    sessions still at index 0, PATCH only with a body that names neither
    the label nor the index. *)
Definition in_step (op : Operation) (g : Gateway) : Prop :=
  match op with
  | Create _ _ _ _ _ => True
  | AdvanceRound _ _ _ => True
  | StartGame _ _ sid =>
      forall s, s ∈ game_sessions (db g) -> has_id sid s = true ->
                GameSession.current_round s = 0
  | Patch _ body =>
      Routes.p_gameState body = None /\ Routes.p_currentRound body = None
  end.

Inductive reachable_in_step : Gateway -> Prop :=
| in_step_initial g : game_sessions (db g) = [] -> reachable_in_step g
| in_step_run op g :
    reachable_in_step g -> in_step op g -> reachable_in_step (run op g).

(** Runs of the transition system from a world without sessions. *)
Module Scenario.

Definition empty_hub : Gateway :=
  mkGateway
    (mkDb true ["room-1"] [Fixture.alice; Fixture.bob; Fixture.carol] [] [])
    ∅.

Definition created : Gateway :=
  run (Create "s1" 5 "user-a" "room-1" ["user-a"; "user-b"]) empty_hub.

Definition advanced : Gateway :=
  run (AdvanceRound 100 Fixture.alice_socket "s1") created.

(** PATCH with a label only, on the session just created. *)
Definition patched : Gateway :=
  run (Patch "s1" (Routes.mkPatch None (Some "humor") None)) created.

(** start-game on a session that has already advanced to synergy. *)
Definition restarted : Gateway :=
  run (StartGame 200 Fixture.bob_socket "s1") advanced.

Definition the_session (g : Gateway) : option GameSession.t :=
  lookup_session "s1" (db g).




End Scenario.

(** ** Two next-round handlers on the event loop *)

(** A handler suspends at each awaited statement, and the statements of
    handlers that are in flight together reach the database in any
    order.  A next-round handler is about to read the session, or about
    to write what it decided from its read, or has acknowledged. *)
Module EventLoop.

Inductive Handler :=
| reading (now : timestamp) (sid : uuid)
| writing (now : timestamp) (sid : uuid) (plan : SocketHandlers.NextRoundPlan)
| acknowledged (a : Ack) (es : list Emission).

(** The handler's next statement runs and the handler resumes up to its
    next await. *)
Definition turn (h : Handler) (d : Db) : Db * Handler :=
  match h with
  | reading now sid =>
      match GameSessionRepository.findById sid d with
      | (d', inl _) =>
          (d', acknowledged (ack_fail "Failed to advance round") [])
      | (d', inr session) =>
          match SocketHandlers.plan_next_round session with
          | SocketHandlers.plan_not_found =>
              (d', acknowledged (ack_fail "Session not found") [])
          | plan => (d', writing now sid plan)
          end
      end
  | writing now sid plan =>
      match SocketHandlers.next_round_write now sid plan d with
      | (d', inl _) =>
          (d', acknowledged (ack_fail "Failed to advance round") [])
      | (d', inr (a, es)) => (d', acknowledged a es)
      end
  | acknowledged _ _ => (d, h)
  end.

(** Two handlers and the order in which they take their turns: [true]
    lets the first one run, [false] the second. *)
Fixpoint run_schedule (schedule : list bool) (d : Db) (h1 h2 : Handler)
  : Db * Handler * Handler :=
  match schedule with
  | [] => (d, h1, h2)
  | true :: rest =>
      let (d', h1') := turn h1 d in run_schedule rest d' h1' h2
  | false :: rest =>
      let (d', h2') := turn h2 d in run_schedule rest d' h1 h2'
  end.

(** The orders in which two handlers of two statements each can run. *)
Definition serial : list (list bool) :=
  [[true; true; false; false]; [false; false; true; true]].

Definition interleaved : list (list bool) :=
  [[true; false; true; false]; [true; false; false; true];
   [false; true; true; false]; [false; true; false; true]].

End EventLoop.

(** ** The read-only routes *)

Module ReadRoutes.

(** Success data of the list routes: the rows and their number. *)
Inductive Listing :=
| listing (sessions : list GameSession.t) (total : nat).

Inductive Answer :=
| answer (code : Z) (l : Listing)
| failure (code : Z) (message : string).

Definition answer_of_error (e : PgError) : Answer :=
  match errorHandler e with
  | http_success code _ => failure code ""
  | http_failure code message => failure code message
  end.

(** GET /session/:sessionId *)
Definition get_session (sid : uuid) (d : Db) : Db * HttpResponse :=
  match GameSessionRepository.findById sid d with
  | (d1, inl e) => (d1, errorHandler e)
  | (d1, inr None) => (d1, http_failure 404 "Game session not found")
  | (d1, inr (Some session)) =>
      (d1, http_success 200 (body_session (Some session)))
  end.

(** SELECT * FROM game_sessions
    WHERE room_id = $1 AND status IN ('lobby', 'playing')
    ORDER BY created_at DESC *)
Definition select_active_in_room (room : uuid) : Query (list GameSession.t) :=
  fun d =>
    (d, inr (order_desc GameSession.created_at
               (filter (fun s => (in_room room s && is_active s) = true)
                  (game_sessions d)))).

(** GET /api/rooms/:roomId/sessions (routes/rooms.ts) *)
Definition get_room_sessions (room : uuid) (d : Db) : Db * Answer :=
  match query (select_room room) d with
  | (d1, inl e) => (d1, answer_of_error e)
  | (d1, inr []) => (d1, failure 404 "Room not found")
  | (d1, inr (_ :: _)) =>
      match query (select_active_in_room room) d1 with
      | (d2, inl e) => (d2, answer_of_error e)
      | (d2, inr sessions) =>
          (d2, answer 200 (listing sessions (length sessions)))
      end
  end.

End ReadRoutes.

(** ** The tables beside sessions and responses *)

Module ChatMessage.
Record t := mk {
  id : uuid;
  game_session_id : uuid;
  sender_id : uuid;
  message_text : string;
  round_type : option string;
  is_anonymous : bool;
  created_at : timestamp
}.
End ChatMessage.

Module MemeUpload.
Record t := mk {
  id : uuid;
  game_session_id : uuid;
  user_id : uuid;
  meme_url : string;
  caption : string;
  template_id : option string;
  total_reactions : option Z;
  created_at : timestamp
}.
End MemeUpload.

Module MemeReaction.
Record t := mk {
  meme_id : uuid;
  user_id : uuid;
  reaction_type : string;
  created_at : timestamp
}.

(** The columns of UNIQUE(meme_id, user_id). *)
Definition has_key (meme user : uuid) (r : t) : bool :=
  String.eqb (meme_id r) meme && String.eqb (user_id r) user.
End MemeReaction.

Module AudienceVote.
Record t := mk {
  game_session_id : uuid;
  voter_id : option uuid;
  category : string;
  nominee_id : uuid;
  vote_weight : option Z;
  created_at : timestamp
}.

(** game_session_id = $1 AND category = $2 AND nominee_id = $3 *)
Definition is_for (sid : uuid) (cat : string) (nominee : uuid) (v : t) : bool :=
  String.eqb (game_session_id v) sid && String.eqb (category v) cat &&
  String.eqb (nominee_id v) nominee.
End AudienceVote.

Module Match.
Record t := mk {
  game_session_id : uuid;
  user1_id : uuid;
  user2_id : uuid;
  connection_score : option Z;
  compatibility_breakdown : option string;
  match_strength : option string;
  match_tags : option (list string);
  created_at : timestamp
}.
End Match.

(** The whole database: the tables of [Db] and the ones above. *)
Record Store := mkStore {
  core : Db;
  chat_messages : list ChatMessage.t;
  meme_uploads : list MemeUpload.t;
  meme_reactions : list MemeReaction.t;
  audience_votes : list AudienceVote.t;
  matches : list Match.t
}.

Definition Statement (A : Type) : Type := Store -> Store * (PgError + A).

Definition sret {A} (a : A) : Statement A := fun st => (st, inr a).

Definition sbind {A B} (q : Statement A) (k : A -> Statement B)
  : Statement B :=
  fun st => match q st with
            | (st', inl e) => (st', inl e)
            | (st', inr a) => k a st'
            end.

Notation "x <~~ q ;; k" := (sbind q (fun x => k))
  (at level 100, q at next level, k at level 200, right associativity).

(** [query] over the whole database. *)
Definition statement {A} (stmt : Statement A) : Statement A :=
  fun st => if db_up (core st) then stmt st else (st, inl connection_error).

(** A statement on the tables of [Db], run in the whole database. *)
Definition on_core {A} (q : Query A) : Statement A :=
  fun st =>
    match q (core st) with
    | (d, r) =>
        (mkStore d (chat_messages st) (meme_uploads st) (meme_reactions st)
           (audience_votes st) (matches st), r)
    end.

Definition meme_exists (i : uuid) (st : Store) : bool :=
  existsb (fun m => String.eqb (MemeUpload.id m) i) (meme_uploads st).

(** INSERT INTO chat_messages (game_session_id, sender_id, message_text,
    round_type) VALUES (...) RETURNING *; [fresh] is the generated id.
    message_text is TEXT NOT NULL, round_type VARCHAR(50). *)
Definition insert_chat_message (fresh : uuid) (now : timestamp)
    (sid sender : uuid) (text : option string) (round_type : string)
  : Statement (list ChatMessage.t) :=
  fun st =>
    match nullable pg_text text, pg_varchar 50 round_type with
    | inl e, _ => (st, inl e)
    | inr _, inl e => (st, inl e)
    | inr None, inr _ => (st, inl not_null_violation)
    | inr (Some message_text), inr ty =>
        if negb (session_exists sid (core st) && user_exists sender (core st))
        then (st, inl foreign_key_violation)
        else if existsb (fun m => String.eqb (ChatMessage.id m) fresh)
                  (chat_messages st)
        then (st, inl (unique_violation "id"))
        else
          let row := ChatMessage.mk fresh sid sender message_text (Some ty)
                       false now in
          (mkStore (core st) (chat_messages st ++ [row]) (meme_uploads st)
             (meme_reactions st) (audience_votes st) (matches st),
           inr [row])
    end.

(** INSERT INTO meme_reactions (meme_id, user_id, reaction_type)
    VALUES (...) ON CONFLICT (meme_id, user_id)
    DO UPDATE SET reaction_type = EXCLUDED.reaction_type RETURNING * *)
Definition upsert_meme_reaction (now : timestamp) (meme user : uuid)
    (sent : string) : Statement (list MemeReaction.t) :=
  fun st =>
    match pg_varchar 50 sent with
    | inl e => (st, inl e)
    | inr reaction =>
        if existsb (MemeReaction.has_key meme user) (meme_reactions st) then
          let step r :=
            if MemeReaction.has_key meme user r
            then MemeReaction.mk (MemeReaction.meme_id r)
                   (MemeReaction.user_id r) reaction
                   (MemeReaction.created_at r)
            else r in
          let rows := step <$> meme_reactions st in
          (mkStore (core st) (chat_messages st) (meme_uploads st) rows
             (audience_votes st) (matches st),
           inr (filter (fun r => MemeReaction.has_key meme user r = true)
                  rows))
        else if negb (meme_exists meme st && user_exists user (core st))
        then (st, inl foreign_key_violation)
        else
          let row := MemeReaction.mk meme user reaction now in
          (mkStore (core st) (chat_messages st) (meme_uploads st)
             (meme_reactions st ++ [row]) (audience_votes st) (matches st),
           inr [row])
    end.

(** SELECT COUNT( * ) FROM meme_reactions WHERE meme_id = $1 *)
Definition count_reactions (meme : uuid) (st : Store) : Z :=
  Z.of_nat
    (length (filter (fun r => String.eqb (MemeReaction.meme_id r) meme = true)
               (meme_reactions st))).

(** UPDATE meme_uploads SET total_reactions = (the count above)
    WHERE id = $1 *)
Definition recount_reactions (meme : uuid) : Statement unit :=
  fun st =>
    let step m :=
      if String.eqb (MemeUpload.id m) meme
      then MemeUpload.mk (MemeUpload.id m) (MemeUpload.game_session_id m)
             (MemeUpload.user_id m) (MemeUpload.meme_url m)
             (MemeUpload.caption m) (MemeUpload.template_id m)
             (Some (count_reactions meme st)) (MemeUpload.created_at m)
      else m in
    (mkStore (core st) (chat_messages st) (step <$> meme_uploads st)
       (meme_reactions st) (audience_votes st) (matches st),
     inr tt).

(** INSERT INTO audience_votes (game_session_id, voter_id, category,
    nominee_id, vote_weight) VALUES ($1, $2, $3, $4, 1); category is
    VARCHAR(100) NOT NULL. *)
Definition insert_audience_vote (now : timestamp) (sid voter : uuid)
    (sent : option string) (nominee : uuid) : Statement unit :=
  fun st =>
    match nullable (pg_varchar 100) sent with
    | inl e => (st, inl e)
    | inr None => (st, inl not_null_violation)
    | inr (Some cat) =>
        if negb (session_exists sid (core st) && user_exists voter (core st)
                 && user_exists nominee (core st))
        then (st, inl foreign_key_violation)
        else
          (mkStore (core st) (chat_messages st) (meme_uploads st)
             (meme_reactions st)
             (audience_votes st
                ++ [AudienceVote.mk sid (Some voter) cat nominee (Some 1) now])
             (matches st),
           inr tt)
    end.

(** SELECT COUNT( * ) as count FROM audience_votes WHERE
    game_session_id = $1 AND category = $2 AND nominee_id = $3;
    the comparison is with the text sent, at its full length, and a
    null category equals nothing. *)
Definition count_votes (sid : uuid) (cat : option string) (nominee : uuid)
  : Statement Z :=
  fun st =>
    (st, inr (Z.of_nat
                (length (filter (fun v => match cat with
                                          | Some c =>
                                              AudienceVote.is_for sid c nominee v
                                          | None => false
                                          end = true)
                           (audience_votes st))))).

(** ORDER BY connection_score DESC: nulls sort first. *)
Definition score_desc (a b : Match.t) : Prop :=
  match Match.connection_score a, Match.connection_score b with
  | None, _ => True
  | Some _, None => False
  | Some x, Some y => y <= x
  end.

#[global] Instance score_desc_dec a b : Decision (score_desc a b).
Proof.
  unfold score_desc.
  destruct (Match.connection_score a), (Match.connection_score b); apply _.
Defined.

(** SELECT * FROM matches WHERE game_session_id = $1
    ORDER BY connection_score DESC *)
Definition select_matches (sid : uuid) : Statement (list Match.t) :=
  fun st =>
    (st, inr (merge_sort score_desc
                (filter (fun m => String.eqb (Match.game_session_id m) sid
                                  = true)
                   (matches st)))).

Module SessionWithMatches.

(** [GameSessionRepository.getSessionWithMatches]: the session row and
    its matches, or null when the first query returns no row. *)
Definition getSessionWithMatches (sessionId : uuid)
  : Statement (option (GameSession.t * list Match.t)) :=
  rows <~~ statement (on_core (select_session sessionId)) ;;
  match rows with
  | [] => sret None
  | session :: _ =>
      ms <~~ statement (select_matches sessionId) ;;
      sret (Some (session, ms))
  end.

End SessionWithMatches.

(** ** The other socket handlers *)

(** The events of these handlers; [message] and [category] go out as
    the payload had them, absent ([None]) when it had none. *)
Inductive RoomEvent :=
| new_message (id sender_id : uuid) (sender_name : string)
    (message : option string) (roundType : string) (at_time : timestamp)
| meme_voted (memeId user_id : uuid) (reactionType : string)
| audience_vote_recorded (category : option string) (nomineeId : uuid)
    (totalVotes : Z)
| user_left (user_id : uuid) (user_name : string).

Inductive Broadcast :=
| to_room (room : uuid) (ev : RoomEvent)
| to_others (sender : string) (room : uuid) (ev : RoomEvent).

(** The sockets a broadcast reaches, given the adapter's rooms. *)
Definition audience (rooms : gmap string (gset string)) (b : Broadcast)
  : gset string :=
  match b with
  | to_room room _ => default ∅ (rooms !! room)
  | to_others sender room _ => default ∅ (rooms !! room) ∖ {[sender]}
  end.

(** The acknowledgment of these handlers: success with its data, or the
    handler's error message. *)
Inductive Reply (A : Type) :=
| reply_ok (data : A)
| reply_fail (error : string).

Arguments reply_ok {A} data.
Arguments reply_fail {A} error.

Module RoomHandlers.

(** send-message; an absent [roundType] defaults to general. *)
Definition send_message (fresh : uuid) (now : timestamp) (st : Store)
    (sock : Socket) (sid : uuid) (message : option string)
    (roundType : option string)
  : Store * Reply unit * list Broadcast :=
  let rt := default "general" roundType in
  match statement (insert_chat_message fresh now sid (userId sock) message rt)
          st with
  | (st', inl _) => (st', reply_fail "Failed to send message", [])
  | (st', inr rows) =>
      match rows with
      | [] => (st', reply_fail "Failed to send message", [])
      | row :: _ =>
          (st', reply_ok tt,
           [to_room sid
              (new_message (ChatMessage.id row) (userId sock) (username sock)
                 message rt now)])
      end
  end.

(** vote-meme: the upsert, then the recount, then the broadcast. *)
Definition vote_meme (now : timestamp) (st : Store) (sock : Socket)
    (sid memeId : uuid) (reactionType : string)
  : Store * Reply unit * list Broadcast :=
  match (_ <~~ statement (upsert_meme_reaction now memeId (userId sock)
                            reactionType) ;;
         statement (recount_reactions memeId)) st with
  | (st', inl _) => (st', reply_fail "Failed to vote", [])
  | (st', inr _) =>
      (st', reply_ok tt,
       [to_room sid (meme_voted memeId (userId sock) reactionType)])
  end.

(** audience-vote: the insert, then the count that goes into the
    broadcast. *)
Definition audience_vote (now : timestamp) (st : Store) (sock : Socket)
    (sid : uuid) (category : option string) (nomineeId : uuid)
  : Store * Reply unit * list Broadcast :=
  match (_ <~~ statement (insert_audience_vote now sid (userId sock) category
                            nomineeId) ;;
         statement (count_votes sid category nomineeId)) st with
  | (st', inl _) => (st', reply_fail "Failed to record vote", [])
  | (st', inr total) =>
      (st', reply_ok tt,
       [to_room sid (audience_vote_recorded category nomineeId total)])
  end.

(** get-session *)
Definition get_session (st : Store) (sid : uuid)
  : Store * Reply (GameSession.t * list Match.t) :=
  match SessionWithMatches.getSessionWithMatches sid st with
  | (st', inl _) => (st', reply_fail "Failed to get session")
  | (st', inr None) => (st', reply_fail "Session not found")
  | (st', inr (Some session)) => (st', reply_ok session)
  end.

(** disconnect: the handler only notifies. *)
Definition disconnect (sock : Socket) : list Broadcast :=
  match sessionId sock with
  | Some sid =>
      if truthy sid
      then [to_others (socket_id sock) sid
              (user_left (userId sock) (username sock))]
      else []
  | None => []
  end.

End RoomHandlers.

(** ** What holds of every stored session *)

(** The columns no operation rewrites. *)
Definition identity_of (s : GameSession.t)
  : uuid * option uuid * list uuid * timestamp * string :=
  (GameSession.id s, GameSession.room_id s, GameSession.participant_ids s,
   GameSession.created_at s, GameSession.metadata s).

(** A row as the operations leave it. *)
Definition well_formed_session (s : GameSession.t) : Prop :=
  GameSession.status s <> "" /\
  int4 (GameSession.current_round s) = true /\
  0 <= GameSession.current_round s /\
  GameSession.room_id s <> None /\
  GameSession.participant_ids s <> [] /\
  GameSession.started_at s = None /\
  GameSession.game_state s <> Some "".

(** Consecutive next-round calls on one session, one per clock reading. *)
Fixpoint advance_rounds (nows : list timestamp) (g : Gateway) (sock : Socket)
    (sid : uuid) : Gateway :=
  match nows with
  | [] => g
  | now :: rest =>
      advance_rounds rest (gateway (SocketHandlers.next_round now g sock sid))
        sock sid
  end.

(** The key of UNIQUE(game_session_id, user_id, round_number). *)
Definition response_key (r : RoundResponse.t) : uuid * uuid * Z :=
  (RoundResponse.game_session_id r, RoundResponse.user_id r,
   RoundResponse.round_number r).

(** The key of UNIQUE(meme_id, user_id). *)
Definition reaction_key (r : MemeReaction.t) : uuid * uuid :=
  (MemeReaction.meme_id r, MemeReaction.user_id r).

(** One reaction row after the DO UPDATE of the upsert, and one meme row
    after the recount. *)
Definition retype (meme user : uuid) (reaction : string) (r : MemeReaction.t)
  : MemeReaction.t :=
  if MemeReaction.has_key meme user r
  then MemeReaction.mk (MemeReaction.meme_id r) (MemeReaction.user_id r)
         reaction (MemeReaction.created_at r)
  else r.

Definition with_total (meme : uuid) (n : Z) (m : MemeUpload.t)
  : MemeUpload.t :=
  if String.eqb (MemeUpload.id m) meme
  then MemeUpload.mk (MemeUpload.id m) (MemeUpload.game_session_id m)
         (MemeUpload.user_id m) (MemeUpload.meme_url m)
         (MemeUpload.caption m) (MemeUpload.template_id m)
         (Some n) (MemeUpload.created_at m)
  else m.

(** The reactions of one meme, as the recount counts them. *)
Definition reactions_of (meme : uuid) (rows : list MemeReaction.t)
  : list MemeReaction.t :=
  filter (fun r => String.eqb (MemeReaction.meme_id r) meme = true) rows.

(** The votes cast for one nominee in one category of one session. *)
Definition votes_for (sid : uuid) (cat : string) (nominee : uuid) (st : Store)
  : list AudienceVote.t :=
  filter (fun v => AudienceVote.is_for sid cat nominee v = true)
    (audience_votes st).

(** The example world with the other tables empty, and one with a meme
    of alice's in session s1. *)
Definition lobby_store : Store :=
  mkStore Fixture.world [] [] [] [] [].

Definition meme_store : Store :=
  mkStore Fixture.world []
    [MemeUpload.mk "meme-1" "s1" "user-a" "http://memes/1.png" "caption"
       None (Some 0) 8]
    [] [] [].

(** ** Basic facts about the statements *)

Lemma apply_updates_id u s :
  GameSession.id (apply_updates u s) = GameSession.id s.
Proof. reflexivity. Qed.

Lemma has_id_update_row i j u s :
  has_id j (update_row i u s) = has_id j s.
Proof. unfold update_row. destruct (has_id i s); reflexivity. Qed.

Lemma filter_update_row i u (l : list GameSession.t) :
  filter (fun s => has_id i s = true) (update_row i u <$> l)
  = apply_updates u <$> filter (fun s => has_id i s = true) l.
Proof.
  induction l as [|s l IH]; [reflexivity|].
  rewrite fmap_cons, !filter_cons, has_id_update_row.
  case_decide as Hs.
  - rewrite fmap_cons, IH. unfold update_row. now rewrite Hs.
  - apply IH.
Qed.

Lemma lookup_session_update i u d :
  lookup_session i (set_game_sessions (update_row i u <$> game_sessions d) d)
  = apply_updates u <$> lookup_session i d.
Proof.
  unfold lookup_session. cbn [game_sessions set_game_sessions].
  rewrite filter_update_row.
  now destruct (filter _ (game_sessions d)).
Qed.

Lemma lookup_session_update_ne i j u d :
  i <> j ->
  lookup_session j (set_game_sessions (update_row i u <$> game_sessions d) d)
  = lookup_session j d.
Proof.
  intros Hij. unfold lookup_session. cbn [game_sessions set_game_sessions].
  f_equal. induction (game_sessions d) as [|s l IH]; [reflexivity|].
  rewrite fmap_cons, !filter_cons, has_id_update_row.
  case_decide as Hs.
  - rewrite IH. f_equal. unfold update_row.
    destruct (has_id i s) eqn:Hi; [|reflexivity].
    unfold has_id in *. apply String.eqb_eq in Hs, Hi. congruence.
  - apply IH.
Qed.

Lemma findById_up i d :
  db_up d = true ->
  GameSessionRepository.findById i d = (d, inr (lookup_session i d)).
Proof.
  intros Hup. unfold GameSessionRepository.findById, qbind, query.
  now rewrite Hup.
Qed.

Lemma findById_down i d :
  db_up d = false ->
  GameSessionRepository.findById i d = (d, inl connection_error).
Proof.
  intros Hup. unfold GameSessionRepository.findById, qbind, query.
  now rewrite Hup.
Qed.

(** *** Values and columns *)

Lemma pg_int_fits n : int4 n = true -> pg_int n = inr n.
Proof. intros H. unfold pg_int. now rewrite H. Qed.

Lemma pg_text_fits s : has_nul s = false -> pg_text s = inr s.
Proof. intros H. unfold pg_text. now rewrite H. Qed.

Lemma pg_varchar_fits n s : fits n s = true -> pg_varchar n s = inr s.
Proof.
  unfold fits, pg_varchar. intros [Hn Hl]%andb_true_iff.
  apply negb_true_iff in Hn. now rewrite Hn, Hl.
Qed.

Lemma length_keep_first n s :
  (n <= String.length s)%nat -> String.length (keep_first n s) = n.
Proof.
  revert s. induction n as [|n IH]; intros [|c s] H; cbn in *;
    try reflexivity; try lia.
  f_equal. apply IH. lia.
Qed.

(** What VARCHAR stores of a non-empty value is not empty. *)
Lemma pg_varchar_truthy n s v :
  (0 < n)%nat -> pg_varchar n s = inr v -> truthy s = true -> truthy v = true.
Proof.
  intros Hn. unfold pg_varchar.
  destruct (has_nul s); [discriminate|].
  destruct (Nat.leb_spec (String.length s) n) as [|Hl]; [congruence|].
  destruct (all_spaces (excess n s)); [|discriminate].
  intros [= <-] _. unfold truthy.
  destruct (String.eqb_spec (keep_first n s) "") as [E|]; [|reflexivity].
  pose proof (length_keep_first n s ltac:(lia)) as L. rewrite E in L.
  cbn in L. lia.
Qed.

Lemma coerce_updates_as_sent u :
  stored_as_sent u = true -> coerce_updates u = inr u.
Proof.
  unfold stored_as_sent, coerce_updates.
  destruct u as [room st n label parts started ended created meta].
  cbn. intros [[Hn Hs]%andb_true_iff Hg]%andb_true_iff.
  assert (En : nullable pg_int n = inr n).
  { destruct n as [n|]; [|reflexivity]. cbn. now rewrite (pg_int_fits n Hn). }
  assert (Es : nullable (pg_varchar 50) st = inr st).
  { destruct st as [s|]; [|reflexivity]. cbn.
    now rewrite (pg_varchar_fits 50 s Hs). }
  assert (Eg : nullable (nullable (pg_varchar 50)) label = inr label).
  { destruct label as [[g|]|]; try reflexivity. cbn.
    now rewrite (pg_varchar_fits 50 g Hg). }
  now rewrite En, Es, Eg.
Qed.

(** Only a supplied value can be refused, and only by the INT and
    VARCHAR columns. *)
Lemma coerce_updates_refused u e :
  coerce_updates u = inl e ->
  SessionUpdates.length u <> 0%nat /\
  (e = numeric_value_out_of_range \/ e = string_data_right_truncation
   \/ e = character_not_in_repertoire).
Proof.
  intros He. split.
  - intros Hlen. unfold SessionUpdates.length in Hlen.
    assert (Hn : SessionUpdates.entry (SessionUpdates.current_round u) = 0%nat)
      by lia.
    assert (Hs : SessionUpdates.entry (SessionUpdates.status u) = 0%nat)
      by lia.
    assert (Hg : SessionUpdates.entry (SessionUpdates.game_state u) = 0%nat)
      by lia.
    unfold coerce_updates in He.
    destruct (SessionUpdates.current_round u); [discriminate|].
    destruct (SessionUpdates.status u); [discriminate|].
    destruct (SessionUpdates.game_state u); discriminate.
  - revert He. unfold coerce_updates, pg_int, pg_varchar.
    destruct (SessionUpdates.current_round u) as [n|],
      (SessionUpdates.status u) as [s|],
      (SessionUpdates.game_state u) as [[g|]|]; cbn;
      repeat match goal with
             | |- context [int4 ?x] => destruct (int4 x)
             | |- context [has_nul ?x] => destruct (has_nul x)
             | |- context [Nat.leb ?x ?y] => destruct (Nat.leb x y)
             | |- context [all_spaces ?x] => destruct (all_spaces x)
             end; cbn; intros [= <-]; tauto.
Qed.

(** What the columns change of a field set: nothing but the text of
    status and label. *)
Lemma coerce_updates_columns u v :
  coerce_updates u = inr v ->
  SessionUpdates.current_round v = SessionUpdates.current_round u /\
  nullable (pg_varchar 50) (SessionUpdates.status u)
  = inr (SessionUpdates.status v) /\
  nullable (nullable (pg_varchar 50)) (SessionUpdates.game_state u)
  = inr (SessionUpdates.game_state v) /\
  SessionUpdates.room_id v = SessionUpdates.room_id u /\
  SessionUpdates.participant_ids v = SessionUpdates.participant_ids u /\
  SessionUpdates.started_at v = SessionUpdates.started_at u /\
  SessionUpdates.ended_at v = SessionUpdates.ended_at u /\
  SessionUpdates.created_at v = SessionUpdates.created_at u /\
  SessionUpdates.metadata v = SessionUpdates.metadata u.
Proof.
  unfold coerce_updates.
  destruct (nullable pg_int (SessionUpdates.current_round u)) as [|n] eqn:En;
    [discriminate|].
  destruct (nullable (pg_varchar 50) (SessionUpdates.status u)) as [|st];
    [discriminate|].
  destruct (nullable (nullable (pg_varchar 50)) (SessionUpdates.game_state u))
    as [|label]; [discriminate|].
  intros [= <-]. cbn. repeat split.
  destruct (SessionUpdates.current_round u) as [k|]; cbn in En.
  - unfold pg_int in En. destruct (int4 k); [|discriminate]. congruence.
  - congruence.
Qed.

Lemma coerce_updates_room u v d :
  coerce_updates u = inr v -> room_known v d = room_known u d.
Proof.
  unfold coerce_updates, room_known.
  destruct (nullable pg_int (SessionUpdates.current_round u)),
    (nullable (pg_varchar 50) (SessionUpdates.status u)),
    (nullable (nullable (pg_varchar 50)) (SessionUpdates.game_state u));
    try discriminate.
  now intros [= <-].
Qed.

Lemma lookup_session_exists i d s :
  lookup_session i d = Some s -> existsb (has_id i) (game_sessions d) = true.
Proof.
  unfold lookup_session.
  induction (game_sessions d) as [|r l IH]; [discriminate|].
  rewrite filter_cons. cbn [existsb].
  case_decide as Hr; [now rewrite Hr|].
  intros H. rewrite (IH H). apply orb_true_r.
Qed.

Lemma update_run i u v d :
  db_up d = true ->
  SessionUpdates.length u <> 0%nat ->
  coerce_updates u = inr v ->
  existsb (has_id i) (game_sessions d) && negb (room_known v d) = false ->
  GameSessionRepository.update i u d
  = (set_game_sessions (update_row i v <$> game_sessions d) d,
     inr (apply_updates v <$> lookup_session i d)).
Proof.
  intros Hup Hlen Hv Hroom. unfold GameSessionRepository.update.
  destruct (Nat.eqb_spec (SessionUpdates.length u) 0) as [E|_]; [contradiction|].
  unfold qbind, query. rewrite Hup. unfold update_session, qret.
  rewrite Hv, Hroom.
  f_equal. f_equal.
  change (fun s => if has_id i s then apply_updates v s else s)
    with (update_row i v).
  rewrite filter_update_row. fold (lookup_session i d).
  unfold lookup_session. now destruct (filter _ (game_sessions d)).
Qed.

Lemma update_refused i u e d :
  SessionUpdates.length u <> 0%nat ->
  coerce_updates u = inl e ->
  GameSessionRepository.update i u d
  = (d, inl (if db_up d then e else connection_error)).
Proof.
  intros Hlen He. unfold GameSessionRepository.update.
  destruct (Nat.eqb_spec (SessionUpdates.length u) 0) as [E|_]; [contradiction|].
  unfold qbind, query. destruct (db_up d); [|reflexivity].
  unfold update_session. now rewrite He.
Qed.

Lemma update_up i u d :
  db_up d = true ->
  SessionUpdates.length u <> 0%nat ->
  stored_as_sent u = true ->
  SessionUpdates.room_id u = None ->
  GameSessionRepository.update i u d
  = (set_game_sessions (update_row i u <$> game_sessions d) d,
     inr (apply_updates u <$> lookup_session i d)).
Proof.
  intros Hup Hlen Hfit Hroom.
  apply update_run; try assumption.
  - now apply coerce_updates_as_sent.
  - unfold room_known. rewrite Hroom. apply andb_false_r.
Qed.

Lemma update_down i u d :
  db_up d = false ->
  GameSessionRepository.update i u d = (d, inl connection_error).
Proof.
  intros Hup. unfold GameSessionRepository.update.
  destruct (SessionUpdates.length u =? 0)%nat.
  - now apply findById_down.
  - unfold qbind, query. now rewrite Hup.
Qed.

(** ** The round sequencer *)

Lemma currentIndex_range s :
  -1 <= SocketHandlers.currentIndex s <= 4.
Proof.
  unfold SocketHandlers.currentIndex, indexOf, roundSequence.
  cbn [indexOf_from].
  repeat match goal with |- context [String.eqb ?a ?b] =>
    destruct (String.eqb a b) end; lia.
Qed.

Lemma roundSequence_position i label :
  array_get roundSequence i = Some label ->
  indexOf roundSequence label = i /\ 0 <= i < 5.
Proof.
  unfold array_get. destruct (Z.ltb_spec i 0) as [|Hi]; [discriminate|].
  destruct (Z.to_nat i) as [|[|[|[|[|n]]]]] eqn:E; cbn;
    intros [= <-]; split; try reflexivity; lia.
Qed.

Lemma indexOf_absent (x : string) :
  includes roundSequence x = false -> indexOf roundSequence x = -1.
Proof.
  unfold includes, indexOf, roundSequence. cbn [existsb indexOf_from].
  rewrite !(String.eqb_sym x).
  repeat match goal with |- context [String.eqb ?a ?b] =>
    destruct (String.eqb a b) end; cbn; congruence.
Qed.

Lemma indexOf_results (x : string) :
  indexOf roundSequence x = 4 -> x = "results".
Proof.
  unfold indexOf, roundSequence. cbn [indexOf_from].
  destruct (String.eqb_spec "questions" x); [lia|].
  destruct (String.eqb_spec "synergy" x); [lia|].
  destruct (String.eqb_spec "blindChat" x); [lia|].
  destruct (String.eqb_spec "humor" x); [lia|].
  destruct (String.eqb_spec "results" x); [congruence|lia].
Qed.

Lemma plan_from_questions s :
  state_or_questions (GameSession.game_state s) = "questions" ->
  SocketHandlers.plan_next_round (Some s)
  = SocketHandlers.plan_advance (Some "synergy") 1.
Proof.
  intros H. unfold SocketHandlers.plan_next_round, SocketHandlers.nextIndex,
    SocketHandlers.currentIndex. now rewrite H.
Qed.

(** The handler's decision, read off the stored label. *)
Lemma plan_next_round_cases s :
  (SocketHandlers.nextIndex s = 5 /\
   SocketHandlers.plan_next_round (Some s) = SocketHandlers.plan_finish)
  \/ (exists label,
        0 <= SocketHandlers.nextIndex s < 5 /\
        array_get roundSequence (SocketHandlers.nextIndex s) = Some label /\
        SocketHandlers.plan_next_round (Some s)
        = SocketHandlers.plan_advance (Some label) (SocketHandlers.nextIndex s)).
Proof.
  pose proof (currentIndex_range s) as R.
  unfold SocketHandlers.plan_next_round, SocketHandlers.nextIndex in *.
  change (Z.of_nat (length roundSequence)) with 5.
  destruct (Z.geb_spec (SocketHandlers.currentIndex s + 1) 5) as [H|H].
  - left. split; [lia|reflexivity].
  - right.
    assert (C : SocketHandlers.currentIndex s = -1
             \/ SocketHandlers.currentIndex s = 0
             \/ SocketHandlers.currentIndex s = 1
             \/ SocketHandlers.currentIndex s = 2
             \/ SocketHandlers.currentIndex s = 3) by lia.
    destruct C as [C|[C|[C|[C|C]]]]; rewrite C; cbn;
      eexists; (split; [lia|split; reflexivity]).
Qed.

Lemma roundSequence_fits i label :
  array_get roundSequence i = Some label -> fits 50 label = true.
Proof.
  unfold array_get. destruct (Z.ltb_spec i 0) as [|Hi]; [discriminate|].
  destruct (Z.to_nat i) as [|[|[|[|[|n]]]]] eqn:E; cbn;
    intros [= <-]; reflexivity.
Qed.

Lemma int4_small n : 0 <= n < 5 -> int4 n = true.
Proof. unfold int4. lia. Qed.

(** The field set of an advancing next-round fits its columns. *)
Lemma advance_as_sent i label :
  0 <= i < 5 ->
  array_get roundSequence i = Some label ->
  stored_as_sent
    (SessionUpdates.mk None None (Some i) (Some (Some label)) None None None
       None None) = true.
Proof.
  intros Hi Hl. unfold stored_as_sent. cbn.
  now rewrite (int4_small i Hi), (roundSequence_fits i _ Hl).
Qed.

(** Running next-round on a reachable database and an existing session:
    the outcome is the write the plan asks for. *)
Lemma next_round_run now g sock sid s :
  db_up (db g) = true ->
  lookup_session sid (db g) = Some s ->
  SocketHandlers.next_round now g sock sid
  = match SocketHandlers.plan_next_round (Some s) with
    | SocketHandlers.plan_not_found =>
        mkOutcome g sock (ack_fail "Session not found") []
    | SocketHandlers.plan_finish =>
        mkOutcome
          (mkGateway
             (set_game_sessions
                (update_row sid
                   (SessionUpdates.mk None (Some "completed") None None None
                      None (Some (Some now)) None None)
                   <$> game_sessions (db g)) (db g))
             (rooms g))
          sock (ack_ok None) [io_to sid (game_finished now)]
    | SocketHandlers.plan_advance nextState next =>
        mkOutcome
          (mkGateway
             (set_game_sessions
                (update_row sid
                   (SessionUpdates.mk None None (Some next) (Some nextState)
                      None None None None None)
                   <$> game_sessions (db g)) (db g))
             (rooms g))
          sock (ack_ok None) [io_to sid (round_changed next nextState now)]
    end.
Proof.
  intros Hup Hs. unfold SocketHandlers.next_round, qbind.
  rewrite (findById_up _ _ Hup), Hs.
  destruct (plan_next_round_cases s) as [[_ ->]|(label & Hi & Hl & ->)];
    cbn [SocketHandlers.next_round_write].
  - unfold qbind, GameSessionRepository.endSession.
    rewrite update_up by (assumption || discriminate || reflexivity).
    reflexivity.
  - unfold qbind.
    rewrite update_up
      by (assumption || discriminate || reflexivity
          || now apply advance_as_sent).
    reflexivity.
Qed.

(** ** AdvanceRound *)

(** C1 (as amended): on an existing session next-round either moves the
    label to the next entry of the sequence and the index to that
    entry's position, leaving the status and every other column as they
    were, or, when the stored label is the last one, sets the status to
    completed and stamps [ended_at], leaving label and index alone. *)
Theorem next_round_contract now g sock sid s :
  db_up (db g) = true ->
  lookup_session sid (db g) = Some s ->
  let o := SocketHandlers.next_round now g sock sid in
  exists s',
    lookup_session sid (db (gateway o)) = Some s' /\
    ack o = ack_ok None /\
    ((exists label,
        array_get roundSequence (SocketHandlers.nextIndex s) = Some label /\
        GameSession.game_state s' = Some label /\
        GameSession.current_round s' = indexOf roundSequence label /\
        same_but_round s s' /\
        emitted o = [io_to sid (round_changed (indexOf roundSequence label)
                                  (Some label) now)])
     \/ (state_or_questions (GameSession.game_state s) = "results" /\
         GameSession.status s' = "completed" /\
         GameSession.ended_at s' = Some now /\
         same_but_ending s s' /\
         emitted o = [io_to sid (game_finished now)])).
Proof.
  intros Hup Hs o. subst o. rewrite (next_round_run _ _ _ _ _ Hup Hs).
  destruct (plan_next_round_cases s) as [[Hn ->]|(label & Hr & Hl & ->)];
    cbn [gateway db ack emitted]; rewrite lookup_session_update, Hs;
    eexists; (split; [reflexivity|]); (split; [reflexivity|]).
  - right. unfold SocketHandlers.nextIndex in Hn.
    split; [apply indexOf_results; unfold SocketHandlers.currentIndex in Hn; lia|].
    repeat split.
  - left. exists label. destruct (roundSequence_position _ _ Hl) as [-> _].
    repeat split. exact Hl.
Qed.

Lemma next_round_contract_witness :
  exists s',
    lookup_session "s1"
      (db (gateway (SocketHandlers.next_round 100 Fixture.hub
                      Fixture.alice_socket "s1"))) = Some s' /\
    GameSession.game_state s' = Some "synergy".
Proof.
  destruct (next_round_contract 100 Fixture.hub Fixture.alice_socket "s1"
              Fixture.fresh_session eq_refl eq_refl)
    as (s' & Hl & _ & _).
  exists s'. split; [exact Hl|].
  vm_compute in Hl. injection Hl as <-. reflexivity.
Defined.

(** C1, the stated form fails: advancing the session that [create] left
    in the lobby moves it to synergy / 1 and its status is still lobby,
    not playing. *)
Lemma next_round_leaves_status :
  let o := SocketHandlers.next_round 100 Fixture.hub Fixture.alice_socket "s1" in
  lookup_session "s1" (db (gateway o))
  = Some (Fixture.session_at "lobby" (Some "synergy") 1) /\
  GameSession.status (Fixture.session_at "lobby" (Some "synergy") 1)
  <> "playing".
Proof. split; [vm_compute; reflexivity | discriminate]. Qed.

(** ** The sequencer on labels outside the sequence *)

(** C5 (as amended): a null or empty label is read as questions, so the
    session advances to synergy at index 1; a non-empty label that is
    not in the sequence has index -1, so the session advances to
    questions at index 0. *)
Theorem plan_next_round_unknown s :
  (state_or_questions (GameSession.game_state s) = "questions" ->
   SocketHandlers.plan_next_round (Some s)
   = SocketHandlers.plan_advance (Some "synergy") 1) /\
  (forall g, GameSession.game_state s = Some g -> truthy g = true ->
     includes roundSequence g = false ->
     SocketHandlers.plan_next_round (Some s)
     = SocketHandlers.plan_advance (Some "questions") 0).
Proof.
  split.
  - apply plan_from_questions.
  - intros g Hg Ht Hn.
    unfold SocketHandlers.plan_next_round, SocketHandlers.nextIndex,
      SocketHandlers.currentIndex, state_or_questions.
    rewrite Hg, Ht, (indexOf_absent _ Hn). reflexivity.
Qed.

Lemma plan_next_round_unknown_witness :
  SocketHandlers.plan_next_round
    (Some (Fixture.session_at "playing" (Some "warmup") 0))
  = SocketHandlers.plan_advance (Some "questions") 0.
Proof.
  exact (proj2 (plan_next_round_unknown
                  (Fixture.session_at "playing" (Some "warmup") 0))
           "warmup" eq_refl eq_refl eq_refl).
Defined.

(** C5, the stated form fails: from the unrecognized label warmup the
    handler lands on questions / 0, while from questions itself it
    lands on synergy / 1. *)
Lemma unknown_label_is_not_start :
  SocketHandlers.plan_next_round
    (Some (Fixture.session_at "playing" (Some "warmup") 0))
  = SocketHandlers.plan_advance (Some "questions") 0 /\
  SocketHandlers.plan_next_round
    (Some (Fixture.session_at "playing" (Some "questions") 0))
  = SocketHandlers.plan_advance (Some "synergy") 1 /\
  SocketHandlers.plan_next_round
    (Some (Fixture.session_at "playing" (Some "warmup") 0))
  <> SocketHandlers.plan_next_round
       (Some (Fixture.session_at "playing" (Some "questions") 0)).
Proof. repeat split; vm_compute; congruence. Qed.

(** ** Update *)

Lemma column_after_default {A} (supplied : option A) (old : A) :
  column_after supplied old (default old supplied).
Proof. now destruct supplied. Qed.

(** C6 (as amended): on an existing session a non-empty field set
    whose values fit their columns (the round index within INT, status
    and label within 50 characters and free of U+0000, the room an
    existing one) changes exactly the supplied columns of that
    session's row, every other column, every other row and every other
    table staying as they were (no updated-at column is written); a
    field set with a value the table refuses throws and writes nothing;
    an empty field set is a plain [findById] and writes nothing. *)
Theorem update_frame i u d s :
  db_up d = true ->
  lookup_session i d = Some s ->
  (SessionUpdates.length u = 0%nat ->
   GameSessionRepository.update i u = GameSessionRepository.findById i /\
   GameSessionRepository.update i u d = (d, inr (Some s)))
  /\
  (SessionUpdates.length u <> 0%nat ->
   stored_as_sent u = true ->
   room_known u d = true ->
   exists d' s',
     GameSessionRepository.update i u d = (d', inr (Some s')) /\
     lookup_session i d' = Some s' /\
     GameSession.id s' = GameSession.id s /\
     column_after (SessionUpdates.room_id u)
       (GameSession.room_id s) (GameSession.room_id s') /\
     column_after (SessionUpdates.status u)
       (GameSession.status s) (GameSession.status s') /\
     column_after (SessionUpdates.current_round u)
       (GameSession.current_round s) (GameSession.current_round s') /\
     column_after (SessionUpdates.game_state u)
       (GameSession.game_state s) (GameSession.game_state s') /\
     column_after (SessionUpdates.participant_ids u)
       (GameSession.participant_ids s) (GameSession.participant_ids s') /\
     column_after (SessionUpdates.started_at u)
       (GameSession.started_at s) (GameSession.started_at s') /\
     column_after (SessionUpdates.ended_at u)
       (GameSession.ended_at s) (GameSession.ended_at s') /\
     column_after (SessionUpdates.created_at u)
       (GameSession.created_at s) (GameSession.created_at s') /\
     column_after (SessionUpdates.metadata u)
       (GameSession.metadata s) (GameSession.metadata s') /\
     (forall j, j <> i -> lookup_session j d' = lookup_session j d) /\
     length (game_sessions d') = length (game_sessions d) /\
     round_responses d' = round_responses d /\
     users d' = users d /\
     rooms_table d' = rooms_table d /\
     db_up d' = db_up d)
  /\
  (SessionUpdates.length u <> 0%nat ->
   (forall e, coerce_updates u = inl e ->
              GameSessionRepository.update i u d = (d, inl e)) /\
   (forall v, coerce_updates u = inr v -> room_known u d = false ->
              GameSessionRepository.update i u d
              = (d, inl foreign_key_violation))).
Proof.
  intros Hup Hs. split; [|split].
  - intros Hlen. unfold GameSessionRepository.update. rewrite Hlen. cbn.
    split; [reflexivity|]. now rewrite findById_up, Hs.
  - intros Hlen Hfit Hroom.
    rewrite (update_run i u u d Hup Hlen (coerce_updates_as_sent u Hfit)),
      Hs by (rewrite Hroom; apply andb_false_r).
    eexists _, _. split; [reflexivity|].
    split; [now rewrite lookup_session_update, Hs|].
    split; [reflexivity|].
    cbn [apply_updates GameSession.room_id GameSession.status
         GameSession.current_round GameSession.game_state
         GameSession.participant_ids GameSession.started_at
         GameSession.ended_at GameSession.created_at GameSession.metadata].
    repeat (split; [apply column_after_default|]).
    split; [intros j Hj; now apply lookup_session_update_ne|].
    cbn. rewrite length_fmap. repeat split.
  - intros Hlen. split.
    + intros e He. rewrite (update_refused i u e d Hlen He). now rewrite Hup.
    + intros v Hv Hroom. unfold GameSessionRepository.update.
      destruct (Nat.eqb_spec (SessionUpdates.length u) 0) as [E|_];
        [contradiction|].
      unfold qbind, query. rewrite Hup. unfold update_session. rewrite Hv.
      rewrite (coerce_updates_room u v d Hv), Hroom, andb_true_r.
      now rewrite (lookup_session_exists i d s Hs).
Qed.

Lemma update_frame_witness :
  exists d' s',
    GameSessionRepository.update "s1"
      (SessionUpdates.mk None (Some "playing") None None None None None None
         None) Fixture.world = (d', inr (Some s')) /\
    GameSession.status s' = "playing".
Proof.
  destruct (proj1 (proj2 (update_frame "s1"
              (SessionUpdates.mk None (Some "playing") None None None None
                 None None None)
              Fixture.world Fixture.fresh_session eq_refl eq_refl)))
    as (d' & s' & Hu & _ & _ & _ & Hst & _).
  - discriminate.
  - reflexivity.
  - reflexivity.
  - exists d', s'. split; [exact Hu | exact Hst].
Defined.

(** C6, the stated form fails: a status update returns the stored row
    with the status replaced and nothing else; [created_at] is still 5
    and the other timestamp columns are still null, so no marker was
    refreshed. *)
Lemma update_refreshes_no_marker :
  GameSessionRepository.update "s1"
    (SessionUpdates.mk None (Some "playing") None None None None None None
       None) Fixture.world
  = (Fixture.world_at "playing" None 0,
     inr (Some (Fixture.session_at "playing" None 0))) /\
  GameSession.created_at (Fixture.session_at "playing" None 0)
  = GameSession.created_at Fixture.fresh_session /\
  GameSession.started_at (Fixture.session_at "playing" None 0) = None /\
  GameSession.ended_at (Fixture.session_at "playing" None 0) = None.
Proof. repeat split. Qed.

(** ** Start game *)

Lemma start_game_up now g sock sid :
  db_up (db g) = true ->
  SocketHandlers.start_game now g sock sid
  = mkOutcome
      (mkGateway
         (set_game_sessions
            ((fun s => if has_id sid s then started s else s)
               <$> game_sessions (db g)) (db g))
         (rooms g))
      sock (ack_ok None)
      [io_to sid (game_started (started <$> lookup_session sid (db g)) now)].
Proof.
  intros Hup. unfold SocketHandlers.start_game,
    GameSessionRepository.updateStatus. cbn [truthy String.eqb negb].
  rewrite update_up by (assumption || (cbn; discriminate) || reflexivity).
  reflexivity.
Qed.

Lemma start_game_down now g sock sid :
  db_up (db g) = false ->
  SocketHandlers.start_game now g sock sid
  = mkOutcome g sock (ack_fail "Failed to start game") [].
Proof.
  intros Hup. unfold SocketHandlers.start_game,
    GameSessionRepository.updateStatus.
  rewrite update_down by assumption. now destruct g.
Qed.

(** C10: start-game checks neither that the session exists nor that the
    caller takes part in it.  Whenever the status update does not
    throw, the handler acknowledges success, every row carrying the id
    (possibly none) has become playing / questions, and game-started
    goes to the room with the updated row, null when there is none; the
    outcome is the same for every socket; the only failure it ever
    acknowledges is its own catch-all message. *)
Theorem start_game_no_validation now g sock sid :
  let o := SocketHandlers.start_game now g sock sid in
  (forall d r,
     GameSessionRepository.updateStatus sid "playing" (Some "questions") (db g)
     = (d, inr r) ->
     ack o = ack_ok None /\
     db (gateway o) = d /\
     r = started <$> lookup_session sid (db g) /\
     game_sessions d
     = (fun s => if has_id sid s then started s else s)
         <$> game_sessions (db g) /\
     emitted o = [io_to sid (game_started r now)]) /\
  (forall sock',
     let o' := SocketHandlers.start_game now g sock' sid in
     ack o' = ack o /\ gateway o' = gateway o /\ emitted o' = emitted o) /\
  (ack o = ack_ok None \/ ack o = ack_fail "Failed to start game").
Proof.
  intros o. subst o. destruct (db_up (db g)) eqn:Hup.
  - rewrite start_game_up by assumption. split; [|split].
    + intros d r Hu.
      unfold GameSessionRepository.updateStatus in Hu.
      cbn [truthy String.eqb negb] in Hu.
      rewrite update_up in Hu
        by (assumption || (cbn; discriminate) || reflexivity).
      injection Hu as <- <-. cbn. repeat split.
    + intros sock'. cbn zeta. rewrite start_game_up by assumption.
      repeat split.
    + now left.
  - rewrite start_game_down by assumption. split; [|split].
    + intros d r Hu.
      unfold GameSessionRepository.updateStatus in Hu.
      rewrite update_down in Hu by assumption. discriminate.
    + intros sock'. cbn zeta. rewrite start_game_down by assumption.
      repeat split.
    + now right.
Qed.

(** carol, who takes no part in any session, starts a session that does
    not exist: the handler acknowledges success and announces a null
    session. *)
Lemma start_game_no_validation_witness :
  ack (SocketHandlers.start_game 100 Fixture.hub Fixture.carol_socket "s9")
  = ack_ok None /\
  emitted (SocketHandlers.start_game 100 Fixture.hub Fixture.carol_socket "s9")
  = [io_to "s9" (game_started None 100)].
Proof.
  destruct (proj1 (start_game_no_validation 100 Fixture.hub
                     Fixture.carol_socket "s9")
              Fixture.world None eq_refl) as (Ha & _ & _ & _ & He).
  split; [exact Ha | exact He].
Defined.

(** ** Submitting responses *)


(** What the columns make of a submission. *)
Lemma coerce_response_sent sid u n ty t dt sc now :
  coerce_response (RoundResponse.mk sid u n (Some ty) (Some t) dt sc now)
  = if negb (int4 n) then inl numeric_value_out_of_range
    else match pg_varchar 50 ty with
         | inl e => inl e
         | inr ty' =>
             if has_nul t then inl character_not_in_repertoire
             else inr (RoundResponse.mk sid u n (Some ty') (Some t) dt sc now)
         end.
Proof.
  unfold coerce_response, pg_int, pg_text. cbn.
  destruct (int4 n); cbn; [|reflexivity].
  destruct (pg_varchar 50 ty); cbn; [reflexivity|].
  now destruct (has_nul t).
Qed.




(** A text the TEXT column refuses: alice answers round 1 with a plain
    text and, in the same state, with one that holds U+0000.  The first
    is stored and announced to the room; the second makes the INSERT
    throw, the handler acknowledges a failure and nothing is
    announced. *)
Lemma refused_text_is_not_announced :
  let o1 := SocketHandlers.submit_response 100 Fixture.hub
              Fixture.alice_socket Fixture.plain_answer in
  let o2 := SocketHandlers.submit_response 100 Fixture.hub
              Fixture.alice_socket Fixture.answer_with_nul in
  emitted o1 = [io_to "s1" (response_submitted "user-a" "alice" 1)] /\
  ack o2 = ack_fail "Failed to submit response" /\
  emitted o2 = [] /\
  gateway o2 = Fixture.hub.
Proof. repeat split. Qed.

(** The second of two socket submissions for one key: the INSERT has no
    ON CONFLICT clause, the unique constraint makes it throw, and the
    handler acknowledges a failure. *)
Lemma submit_response_duplicate now g sock msg r :
  db_up (db g) = true ->
  r ∈ round_responses (db g) ->
  RoundResponse.game_session_id r = SocketHandlers.sr_sessionId msg ->
  RoundResponse.user_id r = userId sock ->
  RoundResponse.round_number r = SocketHandlers.sr_roundNumber msg ->
  SocketHandlers.submit_response now g sock msg
  = mkOutcome g sock (ack_fail "Failed to submit response") [].
Proof.
  intros Hup Hr Hs Hu Hn.
  unfold SocketHandlers.submit_response, query, insert_round_response.
  rewrite Hup. cbn [insert_clauses_ok negb existsb].
  rewrite coerce_response_sent.
  destruct (int4 _); cbn [negb]; [|now destruct g].
  destruct (pg_varchar 50 _) as [e|ty']; [now destruct g|].
  destruct (has_nul _); [now destruct g|].
  match goal with |- context [existsb ?f ?l] =>
    assert (E : existsb f l = true) end.
  { apply existsb_exists. exists r. split; [now apply list_elem_of_In|].
    unfold RoundResponse.same_key. cbn. rewrite Hs, Hu, Hn.
    now rewrite !String.eqb_refl, Z.eqb_refl. }
  rewrite E. cbn. now destruct g.
Qed.

(** C2, on the code: alice submits round 1 twice over the socket.  The
    second INSERT violates UNIQUE(game_session_id, user_id,
    round_number); the handler acknowledges a failure, emits nothing,
    and the one stored row still holds the first text. *)
Theorem socket_resubmission_keeps_first :
  let o1 := SocketHandlers.submit_response 100 Fixture.hub
              Fixture.alice_socket Fixture.first_answer in
  let o2 := SocketHandlers.submit_response 200 (gateway o1)
              Fixture.alice_socket Fixture.second_answer in
  ack o1 = ack_ok (Some (data_response
                           (Some (Fixture.stored "user-a" "first answer" 100)))) /\
  ack o2 = ack_fail "Failed to submit response" /\
  emitted o2 = [] /\
  responses_for "s1" "user-a" 1 (db (gateway o2))
  = [Fixture.stored "user-a" "first answer" 100] /\
  RoundResponse.response_text (Fixture.stored "user-a" "first answer" 100)
  <> Some "second answer".
Proof. repeat split; discriminate. Qed.

(** The statement of the REST route never runs: its clause list is not
    one PostgreSQL parses, so a participant's submission is answered
    with a 500 and nothing is stored. *)
Lemma post_response_statement_rejected now user sid b d s :
  db_up d = true ->
  1 <= Routes.b_roundNumber b ->
  lookup_session sid d = Some s ->
  includes (GameSession.participant_ids s) user = true ->
  Routes.post_response now user sid b d
  = (d, http_failure 500 "Internal server error").
Proof.
  intros Hup Hn Hs Hp. unfold Routes.post_response.
  destruct (Z.ltb_spec (Routes.b_roundNumber b) 1) as [|_]; [lia|].
  rewrite (findById_up _ _ Hup), Hs, Hp. cbn [negb].
  unfold query. rewrite Hup. reflexivity.
Qed.

(** ** Outsiders *)

(** The REST route turns away a caller who is not in the participant
    list before it writes. *)
Lemma post_response_rejects_outsider now user sid b d s :
  db_up d = true ->
  1 <= Routes.b_roundNumber b ->
  lookup_session sid d = Some s ->
  includes (GameSession.participant_ids s) user = false ->
  Routes.post_response now user sid b d
  = (d, http_failure 403 "You are not participating in this session").
Proof.
  intros Hup Hn Hs Hp. unfold Routes.post_response.
  destruct (Z.ltb_spec (Routes.b_roundNumber b) 1) as [|_]; [lia|].
  now rewrite (findById_up _ _ Hup), Hs, Hp.
Qed.

(** join-session turns an outsider away: no room is joined, nothing is
    emitted, the socket keeps its state. *)
Lemma join_session_rejects_outsider g sock sid s :
  db_up (db g) = true ->
  lookup_session sid (db g) = Some s ->
  includes (GameSession.participant_ids s) (userId sock) = false ->
  SocketHandlers.join_session g sock sid
  = mkOutcome g sock (ack_fail "Not a participant in this session") [].
Proof.
  intros Hup Hs Hp. unfold SocketHandlers.join_session.
  rewrite (findById_up _ _ Hup), Hs, Hp. cbn. now destruct g.
Qed.

(** C4, on the code: carol is registered and authenticated but is not a
    participant of session s1.  The REST route answers 403 and
    join-session refuses her, both without a write; the socket's
    submit-response runs its INSERT unchecked, acknowledges success and
    leaves her row in round_responses. *)
Theorem outsider_socket_submission_is_stored :
  let msg := SocketHandlers.mkSubmit "s1" 1 "questions" "peek" in
  let o := SocketHandlers.submit_response 100 Fixture.hub
             Fixture.carol_socket msg in
  includes (GameSession.participant_ids Fixture.fresh_session) "user-c"
  = false /\
  Routes.post_response 100 "user-c" "s1"
    (Routes.mkResponseBody 1 "questions" (Some "peek") None) Fixture.world
  = (Fixture.world,
     http_failure 403 "You are not participating in this session") /\
  SocketHandlers.join_session Fixture.hub Fixture.carol_socket "s1"
  = mkOutcome Fixture.hub Fixture.carol_socket
      (ack_fail "Not a participant in this session") [] /\
  success (ack o) = true /\
  round_responses (db (gateway o)) = [Fixture.stored "user-c" "peek" 100] /\
  emitted o = [io_to "s1" (response_submitted "user-c" "carol" 1)].
Proof. repeat split. Qed.

(** ** The index-label invariant *)

Section Preservation.

Variable P : GameSession.t -> Prop.

Lemma Forall_update_row i u (l : list GameSession.t) :
  (forall s, s ∈ l -> has_id i s = true -> P (apply_updates u s)) ->
  Forall P l -> Forall P (update_row i u <$> l).
Proof.
  intros Hu Hl. apply Forall_fmap, Forall_forall.
  intros s Hs. rewrite Forall_forall in Hl. cbn. unfold update_row.
  destruct (has_id i s) eqn:E; auto.
Qed.

(** [update] either leaves the table alone or rewrites the rows of one
    id. *)
Lemma update_sessions i u d :
  game_sessions (fst (GameSessionRepository.update i u d)) = game_sessions d
  \/ exists v,
       coerce_updates u = inr v /\
       game_sessions (fst (GameSessionRepository.update i u d))
       = update_row i v <$> game_sessions d.
Proof.
  unfold GameSessionRepository.update.
  destruct (SessionUpdates.length u =? 0)%nat.
  - left. unfold GameSessionRepository.findById, qbind, query.
    now destruct (db_up d).
  - unfold qbind, query. destruct (db_up d); [|now left].
    unfold update_session. destruct (coerce_updates u) as [e|v]; [now left|].
    destruct (existsb (has_id i) (game_sessions d) && negb (room_known v d));
      [now left|].
    right. exists v. split; reflexivity.
Qed.

End Preservation.

Lemma array_get_truthy i label :
  array_get roundSequence i = Some label -> truthy label = true.
Proof.
  unfold array_get. destruct (i <? 0); [discriminate|].
  destruct (Z.to_nat i) as [|[|[|[|[|n]]]]]; cbn; intros [= <-]; reflexivity.
Qed.

Lemma run_create fresh now user room parts g :
  game_sessions (db (run (Create fresh now user room parts) g))
  = game_sessions (db g)
  \/ exists meta,
       game_sessions (db (run (Create fresh now user room parts) g))
       = game_sessions (db g)
         ++ [GameSession.mk fresh (Some room) "lobby" 0 None parts None None
               now meta].
Proof.
  cbn [run db]. unfold Routes.post_session.
  destruct (length parts <? 1)%nat; [now left|].
  unfold query, select_room. destruct (db_up (db g)) eqn:Hup; [|now left].
  destruct (filter _ (rooms_table (db g))); [now left|].
  unfold GameSessionRepository.create, qbind, query. rewrite Hup.
  unfold insert_session.
  destruct (negb (includes (rooms_table (db g)) room)); [now left|].
  destruct (existsb (has_id fresh) (game_sessions (db g))); [now left|].
  right. eexists. reflexivity.
Qed.

Lemma run_patch sid body g :
  game_sessions (db (run (Patch sid body) g)) = game_sessions (db g)
  \/ exists v,
       coerce_updates (Routes.patch_updates body) = inr v /\
       game_sessions (db (run (Patch sid body) g))
       = update_row sid v <$> game_sessions (db g).
Proof.
  cbn [run db]. unfold Routes.patch_session.
  destruct (negb (Routes.patch_valid body)); [now left|].
  destruct (db_up (db g)) eqn:Hup.
  - rewrite findById_up by assumption.
    destruct (lookup_session sid (db g)); [|now left].
    destruct (update_sessions sid (Routes.patch_updates body) (db g))
      as [H|(v & Hv & H)]; [left|right; exists v; split; [exact Hv|]];
      rewrite <- H;
      now destruct (GameSessionRepository.update _ _ _) as [? [?|?]].
  - rewrite findById_down by assumption. now left.
Qed.

Lemma run_start_game now sock sid g :
  game_sessions (db (run (StartGame now sock sid) g)) = game_sessions (db g)
  \/ game_sessions (db (run (StartGame now sock sid) g))
     = (fun s => if has_id sid s then started s else s)
         <$> game_sessions (db g).
Proof.
  cbn [run]. destruct (db_up (db g)) eqn:Hup.
  - right. now rewrite start_game_up.
  - left. now rewrite start_game_down.
Qed.

Lemma run_advance_round now sock sid g :
  game_sessions (db (run (AdvanceRound now sock sid) g))
  = game_sessions (db g)
  \/ (exists label next,
        array_get roundSequence next = Some label /\
        game_sessions (db (run (AdvanceRound now sock sid) g))
        = update_row sid
            (SessionUpdates.mk None None (Some next) (Some (Some label))
               None None None None None)
            <$> game_sessions (db g))
  \/ game_sessions (db (run (AdvanceRound now sock sid) g))
     = update_row sid
         (SessionUpdates.mk None (Some "completed") None None None None
            (Some (Some now)) None None)
         <$> game_sessions (db g).
Proof.
  cbn [run]. destruct (db_up (db g)) eqn:Hup.
  - destruct (lookup_session sid (db g)) as [s|] eqn:Hs.
    + rewrite (next_round_run _ _ _ _ _ Hup Hs).
      destruct (plan_next_round_cases s) as [[_ ->]|(label & _ & Hl & ->)].
      * right. right. reflexivity.
      * right. left. exists label, (SocketHandlers.nextIndex s).
        split; [exact Hl | reflexivity].
    + left. unfold SocketHandlers.next_round, qbind.
      rewrite (findById_up _ _ Hup), Hs. reflexivity.
  - left. unfold SocketHandlers.next_round, qbind.
    now rewrite (findById_down _ _ Hup).
Qed.

(** One operation used in step keeps every row's index on its label. *)
Lemma in_step_preserves op g :
  in_step op g ->
  Forall index_matches_label (game_sessions (db g)) ->
  Forall index_matches_label (game_sessions (db (run op g))).
Proof.
  intros Hop Hinv. destruct op as [fresh now user room parts|now sock sid
                                  |now sock sid|sid body].
  - destruct (run_create fresh now user room parts g) as [->|[meta ->]];
      [exact Hinv|].
    apply Forall_app. split; [exact Hinv|]. now repeat constructor.
  - destruct (run_start_game now sock sid g) as [->| ->]; [exact Hinv|].
    apply Forall_fmap, Forall_forall. intros s Hs. cbn.
    destruct (has_id sid s) eqn:E.
    + unfold index_matches_label. cbn in Hop |- *. now apply Hop.
    + rewrite Forall_forall in Hinv. now apply Hinv.
  - destruct (run_advance_round now sock sid g)
      as [->|[(label & next & Hl & ->)| ->]]; [exact Hinv| |].
    + apply Forall_update_row; [|exact Hinv]. intros s _ _.
      unfold index_matches_label, SocketHandlers.currentIndex.
      cbn -[indexOf roundSequence truthy].
      rewrite (array_get_truthy _ _ Hl).
      now destruct (roundSequence_position _ _ Hl) as [-> _].
    + apply Forall_update_row; [|exact Hinv]. intros s Hs _.
      rewrite Forall_forall in Hinv. exact (Hinv s Hs).
  - destruct (run_patch sid body g) as [->|(v & Hv & ->)]; [exact Hinv|].
    apply Forall_update_row; [|exact Hinv]. intros s Hs _.
    rewrite Forall_forall in Hinv. specialize (Hinv s Hs).
    destruct Hop as [Hg Hn].
    destruct (coerce_updates_columns _ _ Hv) as (Hround & _ & Hlabel & _).
    unfold Routes.patch_updates in Hround, Hlabel. cbn in Hround, Hlabel.
    rewrite Hn in Hround. rewrite Hg in Hlabel. cbn in Hlabel.
    injection Hlabel as Hlabel.
    unfold index_matches_label, SocketHandlers.currentIndex in *.
    cbn [apply_updates GameSession.current_round GameSession.game_state].
    rewrite Hround, <- Hlabel. exact Hinv.
Qed.

(** C3 (as amended): create and advance-round keep the stored index on
    the position of the stored label, start-game does so on a session
    whose index is 0, and PATCH does so when its body names neither the
    label nor the index; on every state reached through such steps the
    index of every session is the position of its label, so the
    invariant holds there, finished or not. *)
Theorem index_follows_label g :
  reachable_in_step g ->
  Forall index_matches_label (game_sessions (db g)) /\
  Forall round_invariant (game_sessions (db g)).
Proof.
  intros Hr.
  assert (H : Forall index_matches_label (game_sessions (db g))).
  { induction Hr as [g Hg|op g Hr IH Hop].
    - rewrite Hg. constructor.
    - now apply in_step_preserves. }
  split; [exact H|].
  eapply Forall_impl; [exact H|]. intros s Hs. now right.
Qed.

Lemma index_follows_label_witness :
  Forall index_matches_label (game_sessions (db Scenario.advanced)) /\
  Forall round_invariant (game_sessions (db Scenario.advanced)).
Proof.
  apply index_follows_label.
  apply in_step_run; [|exact I].
  apply in_step_run; [|exact I].
  apply in_step_initial. reflexivity.
Defined.

(** C3, the stated form fails.  PATCH writes a label without its index:
    the new session becomes humor (position 3) at index 0 while in the
    lobby.  start-game writes the label questions without the index: a
    session that had advanced to synergy / 1 becomes questions at index
    1 while playing.  Both states are reachable and break the
    invariant. *)
Lemma patch_and_start_game_break_invariant :
  reachable Scenario.patched /\
  (exists s, Scenario.the_session Scenario.patched = Some s /\
             GameSession.status s = "lobby" /\
             GameSession.game_state s = Some "humor" /\
             GameSession.current_round s = 0 /\
             indexOf roundSequence "humor" = 3 /\
             ~ round_invariant s) /\
  reachable Scenario.restarted /\
  (exists s, Scenario.the_session Scenario.restarted = Some s /\
             GameSession.status s = "playing" /\
             GameSession.game_state s = Some "questions" /\
             GameSession.current_round s = 1 /\
             indexOf roundSequence "questions" = 0 /\
             ~ round_invariant s).
Proof.
  split; [|split; [|split]].
  - do 2 apply reachable_run. now apply reachable_initial.
  - eexists. split; [vm_compute; reflexivity|].
    repeat split. intros [H|H]; vm_compute in H; discriminate.
  - do 3 apply reachable_run. now apply reachable_initial.
  - eexists. split; [vm_compute; reflexivity|].
    repeat split. intros [H|H]; vm_compute in H; discriminate.
Qed.

(** ** The leaderboard *)

#[local] Instance by_score_desc_trans : Transitive Leaderboard.by_score_desc.
Proof. unfold Leaderboard.by_score_desc. intros a b c. lia. Qed.

#[local] Instance by_score_desc_total : Total Leaderboard.by_score_desc.
Proof. unfold Leaderboard.by_score_desc. intros a b. lia. Qed.

Section LeaderboardFacts.

Import Leaderboard.

Lemma sumZ_app (l1 l2 : list Z) : sumZ (l1 ++ l2) = sumZ l1 + sumZ l2.
Proof.
  unfold sumZ. induction l1 as [|x l1 IH]; cbn [app foldr]; [lia|].
  rewrite IH. lia.
Qed.

Lemma filter_none {A} (P : A -> Prop) `{forall x, Decision (P x)}
    (l : list A) :
  (forall x, x ∈ l -> ~ P x) -> filter P l = [].
Proof.
  induction l as [|x l IH]; intros Hl; [reflexivity|].
  rewrite filter_cons_False by (apply Hl; left).
  apply IH. intros y Hy. apply Hl. now right.
Qed.


(** A unique key selects at most one row. *)
Lemma filter_key_unique {A} (key : A -> string) (k : string) (l : list A) x :
  NoDup (key <$> l) -> x ∈ l -> key x = k ->
  filter (fun y => String.eqb (key y) k = true) l = [x].
Proof.
  induction l as [|a l IH]; intros Hnd Hx Hk; [inversion Hx|].
  rewrite fmap_cons in Hnd. apply NoDup_cons in Hnd as [Ha Hnd].
  apply elem_of_cons in Hx as [->|Hx].
  - rewrite filter_cons_True by (now apply String.eqb_eq).
    f_equal. apply filter_none. intros y Hy Hyk.
    apply String.eqb_eq in Hyk. apply Ha.
    rewrite Hk, <- Hyk. now apply list_elem_of_fmap_2.
  - rewrite filter_cons_False; [now apply IH|].
    intros Hak. apply String.eqb_eq in Hak. apply Ha.
    rewrite Hak, <- Hk. now apply list_elem_of_fmap_2.
Qed.

(** *** The grouping keys *)




(** *** The joined rows *)









Lemma lookup_session_Some sid d gs :
  lookup_session sid d = Some gs ->
  gs ∈ game_sessions d /\ GameSession.id gs = sid.
Proof.
  unfold lookup_session. intros H. apply head_Some_elem_of in H.
  apply list_elem_of_filter in H as [Hid H]. split; [exact H|].
  now apply String.eqb_eq.
Qed.


(** *** Ranking *)









End LeaderboardFacts.




(** ** Concurrent next-round calls *)

(** A handler that is given both its turns in a row is the handler. *)
Lemma turns_in_a_row now g sock sid :
  let o := SocketHandlers.next_round now g sock sid in
  let (d1, h1) := EventLoop.turn (EventLoop.reading now sid) (db g) in
  EventLoop.turn h1 d1
  = (db (gateway o), EventLoop.acknowledged (ack o) (emitted o)).
Proof.
  unfold SocketHandlers.next_round, qbind. cbn [EventLoop.turn].
  destruct (GameSessionRepository.findById sid (db g)) as [d1 [e|session]];
    [reflexivity|].
  destruct (SocketHandlers.plan_next_round session) eqn:Hplan;
    cbn [EventLoop.turn]; [reflexivity| |];
    now destruct (SocketHandlers.next_round_write _ _ _ _) as [d2 [e|[a es]]].
Qed.

Lemma turn_reading now sid d s label n :
  db_up d = true ->
  lookup_session sid d = Some s ->
  SocketHandlers.plan_next_round (Some s)
  = SocketHandlers.plan_advance label n ->
  EventLoop.turn (EventLoop.reading now sid) d
  = (d, EventLoop.writing now sid (SocketHandlers.plan_advance label n)).
Proof.
  intros Hup Hs Hplan. cbn [EventLoop.turn].
  now rewrite (findById_up _ _ Hup), Hs, Hplan.
Qed.

Lemma turn_writing now sid d label n :
  db_up d = true ->
  stored_as_sent
    (SessionUpdates.mk None None (Some n) (Some label) None None None None
       None) = true ->
  EventLoop.turn
    (EventLoop.writing now sid (SocketHandlers.plan_advance label n)) d
  = (set_game_sessions
       (update_row sid
          (SessionUpdates.mk None None (Some n) (Some label) None None None
             None None) <$> game_sessions d) d,
     EventLoop.acknowledged (ack_ok None)
       [io_to sid (round_changed n label now)]).
Proof.
  intros Hup Hfit. cbn [EventLoop.turn SocketHandlers.next_round_write].
  unfold qbind.
  now rewrite update_up by (assumption || discriminate || reflexivity).
Qed.

Lemma head_filter_update i u (l : list GameSession.t) :
  head (filter (fun s => has_id i s = true) (update_row i u <$> l))
  = apply_updates u <$> head (filter (fun s => has_id i s = true) l).
Proof. rewrite filter_update_row. now destruct (filter _ l). Qed.

Lemma update_row_up i u d :
  db_up (set_game_sessions (update_row i u <$> game_sessions d) d) = db_up d.
Proof. reflexivity. Qed.

(** C9 (as amended): next-round is a read followed by a separate write
    and nothing orders the statements of two calls.  From a session at
    questions, two calls whose statements interleave both read
    questions, both write synergy / 1 and both announce round 1; two
    calls that run one after the other end at blindChat / 2, one
    announcing round 1 and the other round 2.  In every order the
    session ends one or two entries further and never behind. *)
Theorem concurrent_next_round d sid s now1 now2 schedule :
  db_up d = true ->
  lookup_session sid d = Some s ->
  state_or_questions (GameSession.game_state s) = "questions" ->
  let '(d', h1, h2) :=
    EventLoop.run_schedule schedule d
      (EventLoop.reading now1 sid) (EventLoop.reading now2 sid) in
  (schedule ∈ EventLoop.interleaved ->
   h1 = EventLoop.acknowledged (ack_ok None)
          [io_to sid (round_changed 1 (Some "synergy") now1)] /\
   h2 = EventLoop.acknowledged (ack_ok None)
          [io_to sid (round_changed 1 (Some "synergy") now2)] /\
   exists s', lookup_session sid d' = Some s' /\
              GameSession.game_state s' = Some "synergy" /\
              GameSession.current_round s' = 1) /\
  (schedule ∈ EventLoop.serial ->
   (exists s', lookup_session sid d' = Some s' /\
               GameSession.game_state s' = Some "blindChat" /\
               GameSession.current_round s' = 2) /\
   ((h1 = EventLoop.acknowledged (ack_ok None)
            [io_to sid (round_changed 1 (Some "synergy") now1)] /\
     h2 = EventLoop.acknowledged (ack_ok None)
            [io_to sid (round_changed 2 (Some "blindChat") now2)])
    \/ (h1 = EventLoop.acknowledged (ack_ok None)
               [io_to sid (round_changed 2 (Some "blindChat") now1)] /\
        h2 = EventLoop.acknowledged (ack_ok None)
               [io_to sid (round_changed 1 (Some "synergy") now2)]))).
Proof.
  intros Hup Hs Hq. pose proof (plan_from_questions s Hq) as Hplan.
  pose (first_write :=
          SessionUpdates.mk None None (Some 1) (Some (Some "synergy")) None
            None None None None).
  pose (d1 := set_game_sessions
                (update_row sid first_write <$> game_sessions d) d).
  assert (Hup1 : db_up d1 = true) by exact Hup.
  assert (Hs1 : lookup_session sid d1 = Some (apply_updates first_write s))
    by (unfold d1; rewrite lookup_session_update, Hs; reflexivity).
  assert (Hplan1 : SocketHandlers.plan_next_round
                     (Some (apply_updates first_write s))
                   = SocketHandlers.plan_advance (Some "blindChat") 2)
    by reflexivity.
  destruct (EventLoop.run_schedule schedule d _ _) as [[d' h1] h2] eqn:Hrun.
  split; intros Hsched;
    repeat (apply elem_of_cons in Hsched as [->|Hsched]);
    try (now inversion Hsched);
    cbn [EventLoop.run_schedule] in Hrun.
  all: rewrite ?(turn_reading _ _ _ _ _ _ Hup Hs Hplan) in Hrun.
  all: rewrite ?turn_writing in Hrun by (exact Hup || reflexivity).
  all: fold first_write in Hrun; fold d1 in Hrun.
  all: rewrite ?(turn_reading _ _ _ _ _ _ Hup1 Hs1 Hplan1) in Hrun.
  all: rewrite ?turn_writing in Hrun by (exact Hup1 || reflexivity).
  all: unfold d1, first_write in *.
  all: injection Hrun as <- <- <-.
  all: unfold lookup_session in *; cbn [game_sessions set_game_sessions].
  all: rewrite !head_filter_update, Hs.
  all: repeat split; eauto.
Qed.

Lemma concurrent_next_round_witness :
  exists d' h1 h2,
    EventLoop.run_schedule [true; false; true; false]
      (Fixture.world_at "playing" (Some "questions") 0)
      (EventLoop.reading 100 "s1") (EventLoop.reading 101 "s1")
    = (d', h1, h2) /\
    h1 = EventLoop.acknowledged (ack_ok None)
           [io_to "s1" (round_changed 1 (Some "synergy") 100)] /\
    h2 = EventLoop.acknowledged (ack_ok None)
           [io_to "s1" (round_changed 1 (Some "synergy") 101)].
Proof.
  pose proof (concurrent_next_round
                (Fixture.world_at "playing" (Some "questions") 0) "s1"
                (Fixture.session_at "playing" (Some "questions") 0)
                100 101 [true; false; true; false]
                eq_refl eq_refl eq_refl) as H.
  destruct (EventLoop.run_schedule _ _ _ _) as [[d' h1] h2].
  exists d', h1, h2. split; [reflexivity|].
  destruct H as [H _]. destruct H as (H1 & H2 & _); [left|].
  split; assumption.
Defined.

(** C9, the stated form fails: with the reads of two calls ahead of
    their writes, both calls plan from questions, both write synergy /
    1 and both announce round 1; neither sees what the other wrote, and
    the session stands at synergy although two calls succeeded. *)
Lemma both_calls_land_on_synergy :
  EventLoop.run_schedule [true; false; true; false]
    (Fixture.world_at "playing" (Some "questions") 0)
    (EventLoop.reading 100 "s1") (EventLoop.reading 101 "s1")
  = (Fixture.world_at "playing" (Some "synergy") 1,
     EventLoop.acknowledged (ack_ok None)
       [io_to "s1" (round_changed 1 (Some "synergy") 100)],
     EventLoop.acknowledged (ack_ok None)
       [io_to "s1" (round_changed 1 (Some "synergy") 101)]).
Proof. vm_compute. reflexivity. Qed.

(** ** Creating and finding sessions *)

Lemma set_game_sessions_same d : set_game_sessions (game_sessions d) d = d.
Proof. now destruct d. Qed.

Lemma lookup_session_None_rows i d :
  lookup_session i d = None ->
  forall s, s ∈ game_sessions d -> has_id i s = false.
Proof.
  unfold lookup_session. intros H s Hs.
  destruct (has_id i s) eqn:E; [|reflexivity].
  assert (Hin : s ∈ filter (fun s => has_id i s = true) (game_sessions d))
    by (apply list_elem_of_filter; now split).
  destruct (filter _ (game_sessions d)); [inversion Hin|discriminate].
Qed.

Lemma update_row_absent i u (l : list GameSession.t) :
  (forall s, s ∈ l -> has_id i s = false) -> update_row i u <$> l = l.
Proof.
  induction l as [|s l IH]; intros H; [reflexivity|].
  rewrite fmap_cons, IH by (intros x Hx; apply H; now right).
  unfold update_row. now rewrite (H s) by left.
Qed.

Lemma session_exists_lookup i d :
  session_exists i d = false <-> lookup_session i d = None.
Proof.
  unfold session_exists, lookup_session. split.
  - intros H. rewrite filter_none; [reflexivity|].
    intros s Hs Hid. apply list_elem_of_In in Hs.
    assert (existsb (has_id i) (game_sessions d) = true)
      by (apply existsb_exists; eauto).
    congruence.
  - intros H. destruct (existsb _ _) eqn:E; [|reflexivity].
    apply existsb_exists in E as (s & Hs & Hid).
    apply list_elem_of_In in Hs.
    now rewrite (lookup_session_None_rows i d H s Hs) in Hid.
Qed.

Lemma lookup_session_snoc i d row :
  lookup_session i (set_game_sessions (game_sessions d ++ [row]) d)
  = match lookup_session i d with
    | Some s => Some s
    | None => if has_id i row then Some row else None
    end.
Proof.
  unfold lookup_session. cbn [game_sessions set_game_sessions].
  rewrite filter_app, filter_cons, filter_nil.
  destruct (filter _ (game_sessions d)); [|reflexivity].
  cbn. now destruct (has_id i row).
Qed.

Lemma create_up fresh now room parts meta d :
  db_up d = true ->
  includes (rooms_table d) room = true ->
  session_exists fresh d = false ->
  GameSessionRepository.create fresh now room parts meta d
  = (set_game_sessions
       (game_sessions d
          ++ [GameSession.mk fresh (Some room) "lobby" 0 None parts None None
                now (default "{}" meta)]) d,
     inr (Some (GameSession.mk fresh (Some room) "lobby" 0 None parts None
                  None now (default "{}" meta)))).
Proof.
  intros Hup Hroom Hfresh.
  unfold GameSessionRepository.create, qbind, query, insert_session.
  rewrite Hup, Hroom. cbn [negb].
  change (existsb (has_id fresh) (game_sessions d))
    with (session_exists fresh d). now rewrite Hfresh.
Qed.

Lemma lookup_created fresh d row :
  session_exists fresh d = false ->
  GameSession.id row = fresh ->
  lookup_session fresh (set_game_sessions (game_sessions d ++ [row]) d)
  = Some row.
Proof.
  intros Hfresh Hid. rewrite lookup_session_snoc.
  apply session_exists_lookup in Hfresh. rewrite Hfresh.
  unfold has_id. now rewrite Hid, String.eqb_refl.
Qed.

(** X1: a session created for an existing room under an unused id is
    stored in the lobby at round 0 with no label and no timestamps, with
    the given room and participants; [findById] returns exactly that
    row, and every other session is found as before. *)
Theorem create_then_findById fresh now room parts meta d :
  db_up d = true ->
  includes (rooms_table d) room = true ->
  session_exists fresh d = false ->
  exists d' s,
    GameSessionRepository.create fresh now room parts meta d
    = (d', inr (Some s)) /\
    GameSessionRepository.findById fresh d' = (d', inr (Some s)) /\
    s = GameSession.mk fresh (Some room) "lobby" 0 None parts None None now
          (default "{}" meta) /\
    (forall j, j <> fresh -> lookup_session j d' = lookup_session j d) /\
    round_responses d' = round_responses d /\
    users d' = users d.
Proof.
  intros Hup Hroom Hfresh.
  rewrite (create_up _ _ _ _ _ _ Hup Hroom Hfresh).
  eexists _, _. split; [reflexivity|].
  split; [|split; [reflexivity|split; [|split; reflexivity]]].
  - rewrite findById_up by exact Hup.
    now rewrite lookup_created.
  - intros j Hj. rewrite lookup_session_snoc.
    destruct (lookup_session j d); [reflexivity|].
    unfold has_id. cbn. destruct (String.eqb_spec fresh j); congruence.
Qed.

Lemma create_then_findById_witness :
  exists d' s,
    GameSessionRepository.create "s7" 9 "room-1" ["user-c"] None Fixture.world
    = (d', inr (Some s)) /\
    GameSessionRepository.findById "s7" d' = (d', inr (Some s)).
Proof.
  destruct (create_then_findById "s7" 9 "room-1" ["user-c"] None Fixture.world
              eq_refl eq_refl eq_refl) as (d' & s & H1 & H2 & _).
  exists d', s. split; assumption.
Defined.

(** X2: [create] throws and writes nothing when the room does not exist
    (foreign key) or the id is already taken (primary key). *)
Theorem create_rejected fresh now room parts meta d :
  db_up d = true ->
  includes (rooms_table d) room = false \/ session_exists fresh d = true ->
  exists e,
    GameSessionRepository.create fresh now room parts meta d = (d, inl e) /\
    (includes (rooms_table d) room = false -> e = foreign_key_violation).
Proof.
  intros Hup H.
  unfold GameSessionRepository.create, qbind, query, insert_session.
  rewrite Hup.
  destruct (includes (rooms_table d) room) eqn:Hroom; cbn [negb].
  - destruct H as [H|H]; [discriminate|].
    change (existsb (has_id fresh) (game_sessions d))
      with (session_exists fresh d). rewrite H.
    eexists. split; [reflexivity|discriminate].
  - eexists. split; reflexivity.
Qed.

Lemma create_rejected_witness :
  exists e,
    GameSessionRepository.create "s7" 9 "room-9" ["user-c"] None Fixture.world
    = (Fixture.world, inl e).
Proof.
  destruct (create_rejected "s7" 9 "room-9" ["user-c"] None Fixture.world
              eq_refl (or_introl eq_refl)) as (e & H & _).
  exists e. exact H.
Defined.

(** ** Updating a session that is not there *)

(** X3: [update], [updateStatus] and [endSession] on an id no row
    carries leave the database exactly as it was and never report the
    missing session: they return null, unless the field set holds a
    value its column refuses, in which case the statement throws that
    error. *)
Theorem update_missing_session i u st gs now d :
  lookup_session i d = None ->
  fst (GameSessionRepository.update i u d) = d /\
  fst (GameSessionRepository.updateStatus i st gs d) = d /\
  fst (GameSessionRepository.endSession now i d) = d /\
  (db_up d = true ->
   snd (GameSessionRepository.endSession now i d) = inr None /\
   (forall v, coerce_updates u = inr v ->
              snd (GameSessionRepository.update i u d) = inr None) /\
   (forall e, SessionUpdates.length u <> 0%nat -> coerce_updates u = inl e ->
              snd (GameSessionRepository.update i u d) = inl e) /\
   (fits 50 st = true ->
    (forall g, gs = Some g -> fits 50 g = true) ->
    snd (GameSessionRepository.updateStatus i st gs d) = inr None)).
Proof.
  intros Hnone.
  assert (Hany : forall w,
             fst (GameSessionRepository.update i w d) = d /\
             (db_up d = true ->
              (forall v, coerce_updates w = inr v ->
                 snd (GameSessionRepository.update i w d) = inr None) /\
              (forall e, SessionUpdates.length w <> 0%nat ->
                 coerce_updates w = inl e ->
                 snd (GameSessionRepository.update i w d) = inl e))).
  { intros w. destruct (db_up d) eqn:Hup.
    - destruct (Nat.eq_dec (SessionUpdates.length w) 0%nat) as [E|E].
      + unfold GameSessionRepository.update. rewrite E. cbn.
        rewrite findById_up, Hnone by exact Hup.
        split; [reflexivity|]. intros _. split; [reflexivity|].
        intros e Hlen. contradiction.
      + destruct (coerce_updates w) as [e|v] eqn:Hw.
        * rewrite (update_refused i w e d E Hw), Hup.
          split; [reflexivity|]. intros _. split; [discriminate|].
          now intros e' _ [= <-].
        * rewrite (update_run i w v d Hup E Hw), Hnone.
          -- cbn. rewrite update_row_absent
               by (now apply lookup_session_None_rows).
             rewrite set_game_sessions_same.
             split; [reflexivity|]. intros _. split; [reflexivity|].
             discriminate.
          -- apply session_exists_lookup in Hnone.
             unfold session_exists in Hnone. now rewrite Hnone.
    - rewrite update_down by exact Hup. split; [reflexivity|discriminate]. }
  unfold GameSessionRepository.updateStatus, GameSessionRepository.endSession.
  split; [apply Hany|]. split; [apply Hany|]. split; [apply Hany|].
  intros Hup. split; [|split; [|split]].
  - eapply (proj1 (proj2 (Hany _) Hup)). reflexivity.
  - apply (proj1 (proj2 (Hany u) Hup)).
  - apply (proj2 (proj2 (Hany u) Hup)).
  - intros Hst Hgs. eapply (proj1 (proj2 (Hany _) Hup)).
    apply coerce_updates_as_sent. unfold stored_as_sent. cbn.
    rewrite Hst. destruct gs as [g|]; [|reflexivity].
    destruct (truthy g); [|reflexivity]. now apply Hgs.
Qed.

Lemma update_missing_session_witness :
  GameSessionRepository.endSession 50 "s9" Fixture.world
  = (Fixture.world, inr None).
Proof.
  destruct (update_missing_session "s9" SessionUpdates.empty "playing" None 50
              Fixture.world eq_refl) as (_ & _ & H1 & H2).
  destruct (H2 eq_refl) as (H3 & _).
  destruct (GameSessionRepository.endSession 50 "s9" Fixture.world).
  cbn in H1, H3. now subst.
Defined.

(** ** Newest first *)

#[local] Instance desc_by_trans {A} (key : A -> Z) : Transitive (desc_by key).
Proof. unfold desc_by. intros a b c. lia. Qed.

#[local] Instance desc_by_total {A} (key : A -> Z) : Total (desc_by key).
Proof. unfold desc_by. intros a b. lia. Qed.

Lemma order_desc_perm {A} (key : A -> Z) (l : list A) :
  order_desc key l ≡ₚ l.
Proof. apply merge_sort_Permutation. Qed.

Lemma elem_of_order_desc {A} (key : A -> Z) (l : list A) x :
  x ∈ order_desc key l <-> x ∈ l.
Proof. now rewrite order_desc_perm. Qed.

Lemma order_desc_sorted {A} (key : A -> Z) (l : list A) :
  StronglySorted (desc_by key) (order_desc key l).
Proof. apply StronglySorted_merge_sort; apply _. Qed.

(** What SELECT ... WHERE P ORDER BY key DESC LIMIT n returns: at most
    [n] rows, all of them rows of the table that satisfy [P], newest
    first, and none of the rows left out is newer than a row kept; with
    a limit that is large enough, every row that satisfies [P]. *)
Lemma newest_first {A} (key : A -> Z) (P : A -> Prop)
    `{forall x, Decision (P x)} (l : list A) (limit : nat) :
  let r := take limit (order_desc key (filter P l)) in
  (length r <= limit)%nat /\
  StronglySorted (desc_by key) r /\
  (forall x, x ∈ r -> x ∈ l /\ P x) /\
  (exists rest, r ++ rest ≡ₚ filter P l /\
                forall x y, x ∈ r -> y ∈ rest -> key y <= key x) /\
  ((length (filter P l) <= limit)%nat -> forall x, x ∈ l -> P x -> x ∈ r).
Proof.
  intros r. subst r.
  pose proof (order_desc_sorted key (filter P l)) as Hs.
  rewrite <- (take_drop limit (order_desc key (filter P l))) in Hs.
  split; [rewrite length_take; lia|].
  split; [now apply StronglySorted_app_1_l in Hs|].
  split.
  - intros x Hx. apply subseteq_take in Hx.
    apply elem_of_order_desc, list_elem_of_filter in Hx. tauto.
  - split.
    + exists (drop limit (order_desc key (filter P l))). split.
      * rewrite take_drop. apply order_desc_perm.
      * intros x y Hx Hy.
        exact (StronglySorted_app_1_elem_of _ _ _ _ _ Hs Hx Hy).
    + intros Hlen x Hx HP. rewrite take_ge.
      * apply elem_of_order_desc, list_elem_of_filter. now split.
      * now rewrite order_desc_perm.
Qed.

Lemma listActive_up d :
  db_up d = true ->
  GameSessionRepository.listActive d
  = (d, inr (order_desc GameSession.created_at
               (filter (fun s => is_active s = true) (game_sessions d)))).
Proof.
  intros Hup. unfold GameSessionRepository.listActive, query, select_active.
  now rewrite Hup.
Qed.

Lemma is_active_status s :
  is_active s = true
  <-> GameSession.status s = "lobby" \/ GameSession.status s = "playing".
Proof.
  unfold is_active, includes. cbn [existsb].
  rewrite orb_false_r, orb_true_iff, !String.eqb_eq. tauto.
Qed.

(** X4: [listActive] returns exactly the sessions whose status is lobby
    or playing, newest first, and writes nothing. *)
Theorem listActive_lobby_or_playing d :
  db_up d = true ->
  exists l,
    GameSessionRepository.listActive d = (d, inr l) /\
    StronglySorted (desc_by GameSession.created_at) l /\
    l ≡ₚ filter (fun s => is_active s = true) (game_sessions d) /\
    (forall s, s ∈ l <->
               s ∈ game_sessions d /\
               (GameSession.status s = "lobby"
                \/ GameSession.status s = "playing")).
Proof.
  intros Hup. rewrite (listActive_up d Hup). eexists. split; [reflexivity|].
  split; [apply order_desc_sorted|]. split; [apply order_desc_perm|].
  intros s. rewrite elem_of_order_desc, list_elem_of_filter, is_active_status.
  tauto.
Qed.

Lemma listActive_lobby_or_playing_witness :
  exists l, GameSessionRepository.listActive Fixture.seeded_world
            = (Fixture.seeded_world, inr l)
            /\ l ≡ₚ [Fixture.fresh_session; Fixture.trio].
Proof.
  destruct (listActive_lobby_or_playing Fixture.seeded_world eq_refl)
    as (l & Hl & _ & Hp & _).
  exists l. split; [exact Hl | exact Hp].
Defined.

(** X5: once [endSession] has run, no session with that id is listed as
    active any more, and the sessions with other ids are listed exactly
    as before. *)
Theorem ended_session_not_active now i d :
  db_up d = true ->
  exists d' before after,
    fst (GameSessionRepository.endSession now i d) = d' /\
    GameSessionRepository.listActive d = (d, inr before) /\
    GameSessionRepository.listActive d' = (d', inr after) /\
    (forall s, s ∈ after -> GameSession.id s <> i) /\
    (forall s, GameSession.id s <> i -> s ∈ after <-> s ∈ before).
Proof.
  intros Hup. unfold GameSessionRepository.endSession.
  rewrite update_up by (exact Hup || discriminate || reflexivity). cbn [fst].
  set (u := SessionUpdates.mk _ _ _ _ _ _ _ _ _).
  eexists _, _, _. split; [reflexivity|].
  split; [apply (listActive_up d Hup)|].
  split; [apply listActive_up; exact Hup|].
  cbn [game_sessions set_game_sessions].
  assert (Hbm : forall s,
             s ∈ order_desc GameSession.created_at
                   (filter (fun s => is_active s = true) (game_sessions d))
             <-> s ∈ game_sessions d /\
                 (GameSession.status s = "lobby"
                  \/ GameSession.status s = "playing")).
  { intros s. rewrite elem_of_order_desc, list_elem_of_filter,
      is_active_status. tauto. }
  assert (Ham : forall s,
             s ∈ order_desc GameSession.created_at
                   (filter (fun s => is_active s = true)
                      (update_row i u <$> game_sessions d))
             <-> s ∈ update_row i u <$> game_sessions d /\
                 (GameSession.status s = "lobby"
                  \/ GameSession.status s = "playing")).
  { intros s. rewrite elem_of_order_desc, list_elem_of_filter,
      is_active_status. tauto. }
  assert (Hrow : forall s,
             s ∈ update_row i u <$> game_sessions d <->
             exists s0, s0 ∈ game_sessions d /\ s = update_row i u s0).
  { intros s. rewrite list_elem_of_fmap.
    split; intros (s0 & H1 & H2); exists s0; now split. }
  split.
  - intros s Hs. apply Ham in Hs as [Hin Hst].
    apply Hrow in Hin as (s0 & _ & ->). unfold update_row in *.
    destruct (has_id i s0) eqn:E.
    + cbn in Hst. destruct Hst; discriminate.
    + unfold has_id in E. intros Heq. rewrite Heq, String.eqb_refl in E.
      discriminate.
  - intros s Hne. rewrite Ham, Hbm, Hrow.
    assert (Hid : has_id i s = false).
    { unfold has_id. now apply String.eqb_neq. }
    split.
    + intros [(s0 & Hs0 & ->) Hst]. split; [|exact Hst].
      unfold update_row in *. destruct (has_id i s0) eqn:E; [|exact Hs0].
      unfold has_id in Hid, E. cbn in Hid. congruence.
    + intros [Hin Hst]. split; [|exact Hst].
      exists s. split; [exact Hin|]. unfold update_row. now rewrite Hid.
Qed.

Lemma ended_session_not_active_witness :
  exists after,
    GameSessionRepository.listActive
      (fst (GameSessionRepository.endSession 50 "s1" Fixture.seeded_world))
    = (fst (GameSessionRepository.endSession 50 "s1" Fixture.seeded_world),
       inr after) /\
    forall s, s ∈ after -> GameSession.id s <> "s1".
Proof.
  destruct (ended_session_not_active 50 "s1" Fixture.seeded_world eq_refl)
    as (d' & before & after & <- & _ & Ha & Hnot & _).
  exists after. split; [exact Ha | exact Hnot].
Defined.

(** X6: [getUserSessions] returns at most [limit] sessions, each of
    them a stored session that lists the user among its participants,
    newest first; the sessions it leaves out are not newer than the
    ones it returns, and with a large enough limit none is left out. *)
Theorem getUserSessions_lists_participant user limit d :
  db_up d = true ->
  exists l,
    GameSessionRepository.getUserSessions user limit d = (d, inr l) /\
    (length l <= limit)%nat /\
    StronglySorted (desc_by GameSession.created_at) l /\
    (forall s, s ∈ l ->
               s ∈ game_sessions d /\
               includes (GameSession.participant_ids s) user = true) /\
    (exists rest,
       l ++ rest
       ≡ₚ filter (fun s => includes (GameSession.participant_ids s) user
                           = true) (game_sessions d) /\
       forall s s', s ∈ l -> s' ∈ rest ->
                    GameSession.created_at s' <= GameSession.created_at s) /\
    ((length (game_sessions d) <= limit)%nat ->
     forall s, s ∈ game_sessions d ->
               includes (GameSession.participant_ids s) user = true ->
               s ∈ l).
Proof.
  intros Hup.
  unfold GameSessionRepository.getUserSessions, query, select_by_user.
  rewrite Hup. eexists. split; [reflexivity|].
  destruct (newest_first GameSession.created_at
              (fun s => includes (GameSession.participant_ids s) user = true)
              (game_sessions d) limit) as (H1 & H2 & H3 & H4 & H5).
  repeat split; try assumption; try (now apply H3).
  intros Hlen. apply H5.
  etransitivity; [apply length_filter|exact Hlen].
Qed.

Lemma getUserSessions_lists_participant_witness :
  exists l,
    GameSessionRepository.getUserSessions "user-c" 20 Fixture.seeded_world
    = (Fixture.seeded_world, inr l) /\
    forall s, s ∈ l ->
              includes (GameSession.participant_ids s) "user-c" = true.
Proof.
  destruct (getUserSessions_lists_participant "user-c" 20
              Fixture.seeded_world eq_refl) as (l & Hl & _ & _ & Hin & _).
  exists l. split; [exact Hl|]. intros s Hs. now apply Hin.
Defined.

(** X7: [listByRoom] returns at most [limit] sessions, all of them
    stored sessions of that room, newest first; a session whose room is
    null or another room is never returned. *)
Theorem listByRoom_only_that_room room limit d :
  db_up d = true ->
  exists l,
    GameSessionRepository.listByRoom room limit d = (d, inr l) /\
    (length l <= limit)%nat /\
    StronglySorted (desc_by GameSession.created_at) l /\
    (forall s, s ∈ l ->
               s ∈ game_sessions d /\ GameSession.room_id s = Some room) /\
    (exists rest,
       l ++ rest
       ≡ₚ filter (fun s => in_room room s = true) (game_sessions d) /\
       forall s s', s ∈ l -> s' ∈ rest ->
                    GameSession.created_at s' <= GameSession.created_at s).
Proof.
  intros Hup.
  unfold GameSessionRepository.listByRoom, query, select_by_room.
  rewrite Hup. eexists. split; [reflexivity|].
  destruct (newest_first GameSession.created_at
              (fun s => in_room room s = true)
              (game_sessions d) limit) as (H1 & H2 & H3 & H4 & _).
  repeat split; try assumption; try (now apply H3).
  apply H3 in H as [_ Hr]. unfold in_room in Hr.
  destruct (GameSession.room_id s) as [r|]; [|discriminate].
  apply String.eqb_eq in Hr. now subst.
Qed.

Lemma listByRoom_only_that_room_witness :
  exists l,
    GameSessionRepository.listByRoom "room-1" 1 Fixture.seeded_world
    = (Fixture.seeded_world, inr l) /\ (length l <= 1)%nat.
Proof.
  destruct (listByRoom_only_that_room "room-1" 1 Fixture.seeded_world eq_refl)
    as (l & Hl & Hlen & _).
  exists l. split; [exact Hl | exact Hlen].
Defined.

(** ** Counting participants *)

Lemma filter_andb {A} (f g : A -> bool) (l : list A) :
  filter (fun x => (f x && g x) = true) l
  = filter (fun x => g x = true) (filter (fun x => f x = true) l).
Proof.
  induction l as [|x l IH]; [reflexivity|].
  rewrite (filter_cons (fun x => (f x && g x) = true)),
    (filter_cons (fun x => f x = true)).
  destruct (f x) eqn:Ef; cbn [andb].
  - rewrite (decide_True (P := true = true)) by reflexivity.
    rewrite filter_cons, IH. reflexivity.
  - rewrite (decide_False (P := false = true)) by discriminate.
    rewrite (decide_False (P := false = true)) by discriminate.
    exact IH.
Qed.

(** X8: under the primary key of game_sessions,
    [countActiveParticipants] is 1 when the session exists and has a
    participant, and 0 otherwise: it counts sessions, never
    participants. *)
Theorem countActiveParticipants_counts_sessions i d :
  db_up d = true ->
  NoDup (GameSession.id <$> game_sessions d) ->
  exists n,
    GameSessionRepository.countActiveParticipants i d = (d, inr n) /\
    n = match lookup_session i d with
        | Some s =>
            match GameSession.participant_ids s with
            | [] => 0
            | _ :: _ => 1
            end
        | None => 0
        end.
Proof.
  intros Hup Hnd.
  unfold GameSessionRepository.countActiveParticipants, query,
    count_with_participants.
  rewrite Hup. eexists. split; [reflexivity|].
  rewrite filter_andb.
  destruct (lookup_session i d) as [s|] eqn:Hs.
  - pose proof Hs as Hs'. apply lookup_session_Some in Hs' as [Hin Hid].
    unfold has_id.
    rewrite (filter_key_unique GameSession.id i _ s Hnd Hin Hid).
    rewrite filter_cons, filter_nil.
    now destruct (GameSession.participant_ids s).
  - unfold lookup_session in Hs.
    now destruct (filter (fun s => has_id i s = true) (game_sessions d)).
Qed.

Lemma countActiveParticipants_counts_sessions_witness :
  GameSessionRepository.countActiveParticipants "s2" Fixture.seeded_world
  = (Fixture.seeded_world, inr 1).
Proof.
  assert (Hnd : NoDup (GameSession.id <$> game_sessions Fixture.seeded_world)).
  { vm_compute; repeat constructor;
      rewrite ?elem_of_cons, ?elem_of_nil; intuition discriminate. }
  destruct (countActiveParticipants_counts_sessions "s2" Fixture.seeded_world
              eq_refl Hnd) as (n & Hrun & ->).
  exact Hrun.
Defined.

(** ** Invariants of the session table *)

Lemma run_create_row fresh now user room parts g :
  game_sessions (db (run (Create fresh now user room parts) g))
  = game_sessions (db g)
  \/ (parts <> [] /\ session_exists fresh (db g) = false /\
      exists meta,
        game_sessions (db (run (Create fresh now user room parts) g))
        = game_sessions (db g)
          ++ [GameSession.mk fresh (Some room) "lobby" 0 None parts None None
                now meta]).
Proof.
  cbn [run db]. unfold Routes.post_session.
  destruct parts as [|p parts]; [now left|]. cbn [length Nat.ltb Nat.leb].
  unfold query, select_room. destruct (db_up (db g)) eqn:Hup; [|now left].
  destruct (filter _ (rooms_table (db g))); [now left|].
  unfold GameSessionRepository.create, qbind, query. rewrite Hup.
  unfold insert_session.
  destruct (negb (includes (rooms_table (db g)) room)); [now left|].
  change (existsb (has_id fresh) (game_sessions (db g)))
    with (session_exists fresh (db g)).
  destruct (session_exists fresh (db g)) eqn:E; [now left|].
  right. split; [discriminate|]. split; [reflexivity|].
  eexists. reflexivity.
Qed.

Lemma run_patch_valid sid body g :
  game_sessions (db (run (Patch sid body) g)) = game_sessions (db g)
  \/ (Routes.patch_valid body = true /\
      exists v,
        coerce_updates (Routes.patch_updates body) = inr v /\
        game_sessions (db (run (Patch sid body) g))
        = update_row sid v <$> game_sessions (db g)).
Proof.
  cbn [run db]. unfold Routes.patch_session.
  destruct (Routes.patch_valid body); [|now left]. cbn [negb].
  destruct (db_up (db g)) eqn:Hup.
  - rewrite findById_up by assumption.
    destruct (lookup_session sid (db g)); [|now left].
    destruct (update_sessions sid (Routes.patch_updates body) (db g))
      as [H|(v & Hv & H)];
      [left|right; split; [reflexivity|exists v; split; [exact Hv|]]];
      rewrite <- H;
      now destruct (GameSessionRepository.update _ _ _) as [? [?|?]].
  - rewrite findById_down by assumption. now left.
Qed.

Lemma truthy_nonempty s : truthy s = true -> s <> "".
Proof. unfold truthy. now intros H ->. Qed.

(** A round index a field set gets past the INT column is within INT. *)
Lemma coerce_updates_int u v n :
  coerce_updates u = inr v ->
  SessionUpdates.current_round v = Some n -> int4 n = true.
Proof.
  intros Hv Hn. destruct (coerce_updates_columns u v Hv) as (Hr & _).
  rewrite Hn in Hr. unfold coerce_updates in Hv.
  rewrite <- Hr in Hv. cbn in Hv. unfold pg_int in Hv.
  now destruct (int4 n).
Qed.

Lemma patch_keeps_well_formed body v s :
  Routes.patch_valid body = true ->
  coerce_updates (Routes.patch_updates body) = inr v ->
  well_formed_session s ->
  well_formed_session (apply_updates v s).
Proof.
  intros Hvalid Hv (Hst & Hi & Hr & Hroom & Hp & Hs & Hg).
  destruct (coerce_updates_columns _ _ Hv)
    as (Cr & Cs & Cg & Croom & Cp & Cstart & _).
  pose proof (fun n => coerce_updates_int _ v n Hv) as Cint.
  unfold Routes.patch_valid in Hvalid.
  apply andb_true_iff in Hvalid as [_ Hvr].
  unfold Routes.patch_updates in Cr, Cs, Cg, Croom, Cp, Cstart.
  cbn in Cr, Cs, Cg, Croom, Cp, Cstart.
  unfold well_formed_session. cbn. rewrite Croom, Cp, Cstart. cbn.
  repeat split; try assumption.
  - destruct (Routes.p_status body) as [[st|l]|]; cbn in Cs.
    + destruct (truthy st) eqn:E; cbn in Cs.
      * destruct (pg_varchar 50 st) as [|st'] eqn:Est; [discriminate|].
        injection Cs as <-. cbn. apply truthy_nonempty.
        apply (pg_varchar_truthy 50 st st'); [lia|exact Est|exact E].
      * injection Cs as <-. exact Hst.
    + destruct (pg_varchar 50 (Routes.arrayString l)) as [|st'] eqn:Est;
        [discriminate|].
      injection Cs as <-. cbn. apply truthy_nonempty.
      apply (pg_varchar_truthy 50 (Routes.arrayString l) st');
        [lia|exact Est|reflexivity].
    + injection Cs as <-. exact Hst.
  - destruct (SessionUpdates.current_round v) as [n|] eqn:En; [|exact Hi].
    cbn. now apply Cint.
  - rewrite Cr. destruct (Routes.p_currentRound body) as [n|]; [|exact Hr].
    cbn. lia.
  - destruct (Routes.p_gameState body) as [gs|]; cbn in Cg.
    + destruct (truthy gs) eqn:E; cbn in Cg.
      * destruct (pg_varchar 50 gs) as [|gs'] eqn:Egs; [discriminate|].
        injection Cg as <-. cbn. intros [= Hempty].
        apply (truthy_nonempty gs'); [|exact Hempty].
        apply (pg_varchar_truthy 50 gs gs'); [lia|exact Egs|exact E].
      * injection Cg as <-. exact Hg.
    + injection Cg as <-. exact Hg.
Qed.

Lemma step_well_formed op g :
  Forall well_formed_session (game_sessions (db g)) ->
  Forall well_formed_session (game_sessions (db (run op g))).
Proof.
  intros Hinv. destruct op as [fresh now user room parts|now sock sid
                              |now sock sid|sid body].
  - destruct (run_create_row fresh now user room parts g)
      as [->|(Hp & _ & meta & ->)]; [exact Hinv|].
    apply Forall_app. split; [exact Hinv|].
    constructor; [|constructor]. unfold well_formed_session. cbn.
    repeat split; try discriminate; try lia; try assumption.
  - destruct (run_start_game now sock sid g) as [->| ->]; [exact Hinv|].
    apply Forall_fmap, Forall_forall. intros s Hs. cbn.
    rewrite Forall_forall in Hinv. specialize (Hinv s Hs).
    destruct (has_id sid s); [|exact Hinv].
    destruct Hinv as (_ & Hi & Hr & Hroom & Hp & Hst & _).
    unfold well_formed_session. cbn.
    repeat split; try assumption; try discriminate.
  - destruct (run_advance_round now sock sid g)
      as [->|[(label & next & Hl & ->)| ->]]; [exact Hinv| |];
      (apply Forall_update_row; [|exact Hinv]); intros s Hs _;
      rewrite Forall_forall in Hinv;
      destruct (Hinv s Hs) as (Hst0 & Hi & Hr & Hroom & Hp & Hst & Hg);
      unfold well_formed_session; cbn.
    + destruct (roundSequence_position _ _ Hl) as [_ Hn].
      pose proof (array_get_truthy _ _ Hl) as Ht.
      repeat split; try assumption; try lia.
      * now apply int4_small.
      * intros [= ->]. discriminate.
    + repeat split; try assumption. discriminate.
  - destruct (run_patch_valid sid body g) as [->|(Hvalid & v & Hv & ->)];
      [exact Hinv|].
    apply Forall_update_row; [|exact Hinv]. intros s Hs _.
    rewrite Forall_forall in Hinv.
    now apply (patch_keeps_well_formed body v s Hvalid Hv), Hinv.
Qed.

(** X9: in every state the operations can produce (create, start-game,
    next-round and PATCH, in any order and with any arguments) every
    session has a status that is not the empty text, a round index that
    is non-negative and within INT, a room, at least one participant, a
    null [started_at], and a label that is null or non-empty. *)
Theorem reachable_sessions_well_formed g :
  reachable g -> Forall well_formed_session (game_sessions (db g)).
Proof.
  induction 1 as [g Hg|op g _ IH].
  - rewrite Hg. constructor.
  - now apply step_well_formed.
Qed.

Lemma reachable_sessions_well_formed_witness :
  Forall well_formed_session (game_sessions (db Scenario.restarted)).
Proof.
  apply reachable_sessions_well_formed.
  do 3 apply reachable_run. now apply reachable_initial.
Defined.

Lemma ids_update_row i u (l : list GameSession.t) :
  GameSession.id <$> (update_row i u <$> l) = GameSession.id <$> l.
Proof.
  rewrite <- list_fmap_compose. apply list_fmap_ext. intros _ s _. cbn.
  unfold update_row. now destruct (has_id i s).
Qed.

Lemma step_unique_ids op g :
  NoDup (GameSession.id <$> game_sessions (db g)) ->
  NoDup (GameSession.id <$> game_sessions (db (run op g))).
Proof.
  intros Hinv. destruct op as [fresh now user room parts|now sock sid
                              |now sock sid|sid body].
  - destruct (run_create_row fresh now user room parts g)
      as [->|(_ & Hfresh & meta & ->)]; [exact Hinv|].
    rewrite fmap_app. apply NoDup_app. split; [exact Hinv|]. split.
    + intros i Hi Hin. cbn in Hin. apply list_elem_of_singleton in Hin as ->.
      apply list_elem_of_fmap in Hi as (s & Hid & Hs).
      apply session_exists_lookup in Hfresh.
      pose proof (lookup_session_None_rows _ _ Hfresh s Hs) as Hne.
      unfold has_id in Hne. rewrite <- Hid, String.eqb_refl in Hne.
      discriminate.
    + cbn. apply NoDup_singleton.
  - destruct (run_start_game now sock sid g) as [->| ->]; [exact Hinv|].
    rewrite <- list_fmap_compose.
    erewrite list_fmap_ext; [exact Hinv|]. intros _ s _. cbn.
    now destruct (has_id sid s).
  - destruct (run_advance_round now sock sid g)
      as [->|[(label & next & Hl & ->)| ->]]; [exact Hinv| |];
      now rewrite ids_update_row.
  - destruct (run_patch sid body g) as [->|(v & _ & ->)]; [exact Hinv|].
    now rewrite ids_update_row.
Qed.

(** X10: session ids stay unique: in every state the operations can
    produce no two stored sessions share an id, so [findById] never has
    a second candidate. *)
Theorem reachable_unique_ids g :
  reachable g -> NoDup (GameSession.id <$> game_sessions (db g)).
Proof.
  induction 1 as [g Hg|op g _ IH].
  - rewrite Hg. constructor.
  - now apply step_unique_ids.
Qed.

Lemma reachable_unique_ids_witness :
  NoDup (GameSession.id <$> game_sessions (db Scenario.patched)).
Proof.
  apply reachable_unique_ids.
  do 2 apply reachable_run. now apply reachable_initial.
Defined.

Lemma identity_update_row i u (l : list GameSession.t) :
  SessionUpdates.room_id u = None ->
  SessionUpdates.participant_ids u = None ->
  SessionUpdates.created_at u = None ->
  SessionUpdates.metadata u = None ->
  identity_of <$> (update_row i u <$> l) = identity_of <$> l.
Proof.
  intros H1 H2 H3 H4. rewrite <- list_fmap_compose.
  apply list_fmap_ext. intros _ s _. cbn. unfold update_row.
  destruct (has_id i s); [|reflexivity].
  unfold identity_of. cbn. now rewrite H1, H2, H3, H4.
Qed.

(** X11: no operation deletes a session or rewrites its id, room,
    participant list, creation time or metadata: after any operation the
    stored sessions are the earlier ones, in place and with these
    columns unchanged, followed by at most one new session. *)
Theorem step_keeps_identity op g :
  exists added,
    identity_of <$> game_sessions (db (run op g))
    = (identity_of <$> game_sessions (db g)) ++ added /\
    (length added <= 1)%nat.
Proof.
  destruct op as [fresh now user room parts|now sock sid
                 |now sock sid|sid body].
  - destruct (run_create fresh now user room parts g) as [->|[meta ->]].
    + exists []. rewrite app_nil_r. split; [reflexivity | cbn; lia].
    + eexists [_]. rewrite fmap_app. split; [reflexivity|]. cbn. lia.
  - exists []. rewrite app_nil_r. split; [|cbn; lia].
    destruct (run_start_game now sock sid g) as [->| ->]; [reflexivity|].
    rewrite <- list_fmap_compose. apply list_fmap_ext. intros _ s _. cbn.
    now destruct (has_id sid s).
  - exists []. rewrite app_nil_r. split; [|cbn; lia].
    destruct (run_advance_round now sock sid g)
      as [->|[(label & next & Hl & ->)| ->]]; [reflexivity| |];
      now apply identity_update_row.
  - exists []. rewrite app_nil_r. split; [|cbn; lia].
    destruct (run_patch sid body g) as [->|(v & Hv & ->)]; [reflexivity|].
    destruct (coerce_updates_columns _ _ Hv) as (_ & _ & _ & H1 & H2 & _ & _
                                                   & H3 & H4).
    now apply identity_update_row; rewrite ?H1, ?H2, ?H3, ?H4.
Qed.

(** ** Playing a session through *)

Lemma next_round_step now g sock sid s k :
  db_up (db g) = true ->
  lookup_session sid (db g) = Some s ->
  SocketHandlers.currentIndex s = k -> k < 4 ->
  let g' := gateway (SocketHandlers.next_round now g sock sid) in
  db_up (db g') = true /\
  exists s',
    lookup_session sid (db g') = Some s' /\
    SocketHandlers.currentIndex s' = k + 1 /\
    GameSession.current_round s' = k + 1 /\
    GameSession.game_state s' = array_get roundSequence (k + 1) /\
    GameSession.status s' = GameSession.status s /\
    GameSession.ended_at s' = GameSession.ended_at s.
Proof.
  intros Hup Hs Hk Hlt g'. subst g'.
  rewrite (next_round_run _ _ _ _ _ Hup Hs).
  destruct (plan_next_round_cases s) as [[Hn _]|(label & Hr & Hl & ->)].
  - unfold SocketHandlers.nextIndex in Hn. lia.
  - cbn [gateway db]. split; [exact Hup|].
    rewrite lookup_session_update, Hs. eexists. split; [reflexivity|].
    unfold SocketHandlers.nextIndex in *. rewrite Hk in *.
    destruct (roundSequence_position _ _ Hl) as [Hpos _].
    unfold SocketHandlers.currentIndex. cbn.
    rewrite (array_get_truthy _ _ Hl), Hl. repeat split. exact Hpos.
Qed.

Lemma advance_rounds_from nows : forall g sock sid s k,
  db_up (db g) = true ->
  lookup_session sid (db g) = Some s ->
  SocketHandlers.currentIndex s = k ->
  k + Z.of_nat (length nows) <= 4 ->
  let g' := advance_rounds nows g sock sid in
  db_up (db g') = true /\
  exists s',
    lookup_session sid (db g') = Some s' /\
    SocketHandlers.currentIndex s' = k + Z.of_nat (length nows) /\
    GameSession.status s' = GameSession.status s /\
    GameSession.ended_at s' = GameSession.ended_at s /\
    (nows <> [] ->
     GameSession.current_round s' = k + Z.of_nat (length nows) /\
     GameSession.game_state s'
     = array_get roundSequence (k + Z.of_nat (length nows))).
Proof.
  induction nows as [|now nows IH]; intros g sock sid s k Hup Hs Hk Hle.
  - cbn. split; [exact Hup|]. exists s. rewrite Z.add_0_r.
    repeat split; try reflexivity; try assumption; congruence.
  - cbn [advance_rounds length] in *. rewrite Nat2Z.inj_succ in *.
    destruct (next_round_step now g sock sid s k Hup Hs Hk ltac:(lia))
      as (Hup1 & s1 & Hs1 & Hk1 & Hr1 & Hg1 & Hst1 & He1).
    destruct (IH _ sock sid s1 (k + 1) Hup1 Hs1 Hk1 ltac:(lia))
      as (Hup2 & s2 & Hs2 & Hk2 & Hst2 & He2 & Hne).
    split; [exact Hup2|]. exists s2.
    replace (k + Z.succ (Z.of_nat (length nows)))
      with (k + 1 + Z.of_nat (length nows)) by lia.
    split; [exact Hs2|]. split; [exact Hk2|].
    split; [congruence|]. split; [congruence|]. intros _.
    destruct nows as [|now' nows']; [|apply Hne; discriminate].
    cbn in Hs2. rewrite Hs1 in Hs2. injection Hs2 as <-.
    cbn. rewrite Z.add_0_r. now split.
Qed.

Lemma advance_rounds_app nows last g sock sid :
  advance_rounds (nows ++ [last]) g sock sid
  = gateway (SocketHandlers.next_round last (advance_rounds nows g sock sid)
               sock sid).
Proof.
  revert g. induction nows as [|now nows IH]; intros g; [reflexivity|].
  cbn. apply IH.
Qed.

(** X12: a session standing at questions (or with no label yet) is
    played through by next-round alone: after n calls, 1 <= n <= 4, its
    label is the n-th entry after questions and its index is n, with the
    status untouched; the fifth call marks it completed at results / 4
    and stamps [ended_at] with that call's time. *)
Theorem five_rounds_to_finish g sock sid s :
  db_up (db g) = true ->
  lookup_session sid (db g) = Some s ->
  state_or_questions (GameSession.game_state s) = "questions" ->
  (forall nows,
     (1 <= length nows <= 4)%nat ->
     exists s',
       lookup_session sid (db (advance_rounds nows g sock sid)) = Some s' /\
       GameSession.game_state s'
       = roundSequence !! length nows /\
       GameSession.current_round s' = Z.of_nat (length nows) /\
       GameSession.status s' = GameSession.status s) /\
  (forall nows last,
     length nows = 4%nat ->
     exists s',
       lookup_session sid (db (advance_rounds (nows ++ [last]) g sock sid))
       = Some s' /\
       GameSession.status s' = "completed" /\
       GameSession.ended_at s' = Some last /\
       GameSession.game_state s' = Some "results" /\
       GameSession.current_round s' = 4).
Proof.
  intros Hup Hs Hq.
  assert (Hk : SocketHandlers.currentIndex s = 0).
  { unfold SocketHandlers.currentIndex. now rewrite Hq. }
  split.
  - intros nows [Hlo Hhi].
    destruct (advance_rounds_from nows g sock sid s 0 Hup Hs Hk ltac:(lia))
      as (_ & s' & Hs' & _ & Hst & _ & Hne).
    exists s'. split; [exact Hs'|].
    destruct Hne as [Hr Hg]; [destruct nows; [cbn in Hlo; lia|discriminate]|].
    rewrite Z.add_0_l in Hr, Hg. split; [|split; assumption].
    rewrite Hg. unfold array_get.
    destruct (Z.ltb_spec (Z.of_nat (length nows)) 0); [lia|].
    now rewrite Nat2Z.id.
  - intros nows last Hlen. rewrite advance_rounds_app.
    destruct (advance_rounds_from nows g sock sid s 0 Hup Hs Hk ltac:(lia))
      as (Hup4 & s4 & Hs4 & Hk4 & _ & _ & Hne).
    destruct Hne as [Hr Hg]; [destruct nows; [discriminate Hlen|discriminate]|].
    rewrite Hlen in Hk4, Hr, Hg.
    change (0 + Z.of_nat 4) with 4 in Hk4, Hr, Hg.
    change (array_get roundSequence 4) with (Some "results") in Hg.
    rewrite (next_round_run _ _ _ _ _ Hup4 Hs4).
    destruct (plan_next_round_cases s4) as [[_ ->]|(label & Hrange & _)].
    + cbn [gateway db]. rewrite lookup_session_update, Hs4.
      eexists. split; [reflexivity|]. cbn. repeat split; assumption.
    + unfold SocketHandlers.nextIndex in Hrange. lia.
Qed.

Lemma five_rounds_to_finish_witness :
  exists s',
    lookup_session "s1"
      (db (advance_rounds [10; 20; 30; 40; 50] Fixture.hub
             Fixture.alice_socket "s1")) = Some s' /\
    GameSession.status s' = "completed" /\
    GameSession.ended_at s' = Some 50.
Proof.
  destruct (proj2 (five_rounds_to_finish Fixture.hub Fixture.alice_socket "s1"
                     Fixture.fresh_session eq_refl eq_refl eq_refl)
              [10; 20; 30; 40] 50 eq_refl) as (s' & Hs & Hst & He & _).
  exists s'. repeat split; assumption.
Defined.

(** ** The response table *)

Lemma same_key_response_key a b :
  RoundResponse.same_key a b = true <-> response_key a = response_key b.
Proof.
  unfold RoundResponse.same_key, response_key.
  rewrite !andb_true_iff, !String.eqb_eq, Z.eqb_eq.
  split; [intros [[-> ->] ->]; reflexivity|intros [= -> -> ->]; auto].
Qed.

Lemma insert_round_response_keys cs row d :
  NoDup (response_key <$> round_responses d) ->
  NoDup (response_key <$>
           round_responses (fst (insert_round_response cs row d))).
Proof.
  intros Hnd. unfold insert_round_response.
  destruct (negb (insert_clauses_ok cs)); [exact Hnd|].
  destruct (coerce_response row) as [e|row']; [exact Hnd|].
  rename row into sent. rename row' into row.
  destruct (existsb (RoundResponse.same_key row) (round_responses d)) eqn:E.
  - destruct (existsb _ cs); [|exact Hnd]. cbn.
    rewrite <- list_fmap_compose.
    erewrite list_fmap_ext; [exact Hnd|]. intros _ r _. cbn.
    now destruct (RoundResponse.same_key row r).
  - destruct (negb _); [exact Hnd|]. cbn. rewrite fmap_app.
    apply NoDup_app. split; [exact Hnd|]. split; [|apply NoDup_singleton].
    intros k Hk Hin. apply list_elem_of_singleton in Hin as ->.
    apply list_elem_of_fmap in Hk as (r & Hkey & Hr).
    assert (existsb (RoundResponse.same_key row) (round_responses d) = true).
    { apply existsb_exists. exists r. split; [now apply list_elem_of_In|].
      now apply same_key_response_key. }
    congruence.
Qed.

(** X13: the response table keeps at most one row per (session,
    participant, round number): neither the socket's submit-response nor
    the REST route ever stores a second row for a key, whatever they are
    sent. *)
Theorem responses_stay_unique now g sock msg user sid body :
  NoDup (response_key <$> round_responses (db g)) ->
  NoDup (response_key <$>
           round_responses
             (db (gateway (SocketHandlers.submit_response now g sock msg))))
  /\
  NoDup (response_key <$>
           round_responses
             (fst (Routes.post_response now user sid body (db g)))).
Proof.
  intros Hnd. split.
  - unfold SocketHandlers.submit_response, query.
    destruct (db_up (db g)); [|exact Hnd].
    match goal with |- context [insert_round_response ?cs ?row ?d] =>
      pose proof (insert_round_response_keys cs row d Hnd) as H;
      destruct (insert_round_response cs row d) as [d' [e|rows]] end;
      exact H.
  - unfold Routes.post_response.
    destruct (Routes.b_roundNumber body <? 1); [exact Hnd|].
    destruct (db_up (db g)) eqn:Hup.
    + rewrite findById_up by exact Hup.
      destruct (lookup_session sid (db g)) as [s|]; [|exact Hnd].
      destruct (negb _); [exact Hnd|]. unfold query. rewrite Hup.
      match goal with |- context [insert_round_response ?cs ?row ?d] =>
        pose proof (insert_round_response_keys cs row d Hnd) as H;
        destruct (insert_round_response cs row d) as [d' [e|rows]] end;
        exact H.
    + rewrite findById_down by exact Hup. exact Hnd.
Qed.

Lemma responses_stay_unique_witness :
  NoDup (response_key <$>
           round_responses
             (db (gateway (SocketHandlers.submit_response 100 Fixture.hub
                             Fixture.alice_socket Fixture.first_answer)))).
Proof.
  apply (responses_stay_unique 100 Fixture.hub Fixture.alice_socket
           Fixture.first_answer "user-a" "s1"
           (Routes.mkResponseBody 1 "questions" None None)).
  constructor.
Defined.

Lemma responses_of_snoc sid user d row :
  Leaderboard.responses_of sid user
    (set_round_responses (round_responses d ++ [row]) d)
  = Leaderboard.responses_of sid user d
    ++ (if String.eqb (RoundResponse.game_session_id row) sid
           && String.eqb (RoundResponse.user_id row) user
        then [row] else []).
Proof.
  unfold Leaderboard.responses_of. cbn [round_responses set_round_responses].
  rewrite filter_app, filter_cons, filter_nil.
  now destruct (_ && _).
Qed.

(** X14: a submission the socket handler accepts is worth ten points:
    when the session and the submitter exist, the submitter has no
    response yet for that round, the round number is within INT, the
    round type within 50 characters and neither text holds U+0000, the
    handler acknowledges success, the submitter's total in that session
    rises by exactly 10, and every other total stays as it was.  A
    round number outside INT, a round type the column refuses or a
    response text holding U+0000 makes the INSERT throw: the handler
    acknowledges a failure, stores nothing and emits nothing. *)
Theorem accepted_submission_scores_ten now g sock msg :
  let o := SocketHandlers.submit_response now g sock msg in
  (db_up (db g) = true ->
   session_exists (SocketHandlers.sr_sessionId msg) (db g) = true ->
   user_exists (userId sock) (db g) = true ->
   responses_for (SocketHandlers.sr_sessionId msg) (userId sock)
     (SocketHandlers.sr_roundNumber msg) (db g) = [] ->
   int4 (SocketHandlers.sr_roundNumber msg) = true ->
   fits 50 (SocketHandlers.sr_roundType msg) = true ->
   has_nul (SocketHandlers.sr_responseText msg) = false ->
   success (ack o) = true /\
   Leaderboard.participant_total (SocketHandlers.sr_sessionId msg)
     (userId sock) (db (gateway o))
   = Leaderboard.participant_total (SocketHandlers.sr_sessionId msg)
       (userId sock) (db g) + 10 /\
   (forall sid user,
      (sid, user) <> (SocketHandlers.sr_sessionId msg, userId sock) ->
      Leaderboard.participant_total sid user (db (gateway o))
      = Leaderboard.participant_total sid user (db g))) /\
  (int4 (SocketHandlers.sr_roundNumber msg) = false \/
   (exists e, pg_varchar 50 (SocketHandlers.sr_roundType msg) = inl e) \/
   has_nul (SocketHandlers.sr_responseText msg) = true ->
   o = mkOutcome g sock (ack_fail "Failed to submit response") []).
Proof.
  intros o. subst o. split.
  - intros Hup Hs Hu Hnone Hint Hty Htext.
    unfold SocketHandlers.submit_response, query, insert_round_response.
    rewrite Hup. cbn [insert_clauses_ok negb].
    rewrite coerce_response_sent, Hint, (pg_varchar_fits _ _ Hty), Htext.
    cbn [negb].
    match goal with |- context [existsb ?f (round_responses (db g))] =>
      assert (E : existsb f (round_responses (db g)) = false) end.
    { destruct (existsb _ _) eqn:E; [|reflexivity].
      apply existsb_exists in E as (r & Hr & Hk).
      assert (Hin : r ∈ responses_for (SocketHandlers.sr_sessionId msg)
                          (userId sock) (SocketHandlers.sr_roundNumber msg)
                          (db g)).
      { apply list_elem_of_filter. split; [|now apply list_elem_of_In].
        unfold RoundResponse.same_key in Hk. cbn in Hk.
        rewrite !andb_true_iff, !String.eqb_eq, Z.eqb_eq in Hk.
        destruct Hk as [[-> ->] ->].
        now rewrite !String.eqb_refl, Z.eqb_refl. }
      rewrite Hnone in Hin. inversion Hin. }
    rewrite E. cbn [RoundResponse.game_session_id RoundResponse.user_id].
    rewrite Hs, Hu. cbn [andb negb gateway db ack success ack_ok].
    split; [reflexivity|].
    unfold Leaderboard.participant_total. split.
    + rewrite responses_of_snoc. cbn [RoundResponse.game_session_id
        RoundResponse.user_id]. rewrite !String.eqb_refl. cbn [andb].
      rewrite fmap_app, sumZ_app. cbn. lia.
    + intros sid user Hne. rewrite responses_of_snoc.
      cbn [RoundResponse.game_session_id RoundResponse.user_id].
      destruct (String.eqb_spec (SocketHandlers.sr_sessionId msg) sid);
        destruct (String.eqb_spec (userId sock) user); cbn [andb];
        rewrite ?app_nil_r; try reflexivity.
      subst. contradiction.
  - intros Hbad.
    unfold SocketHandlers.submit_response, query, insert_round_response.
    destruct (db_up (db g)); [|now destruct g].
    cbn [insert_clauses_ok negb]. rewrite coerce_response_sent.
    destruct (int4 _); cbn [negb]; [|now destruct g].
    destruct (pg_varchar 50 _) as [e|ty]; [now destruct g|].
    destruct (has_nul (SocketHandlers.sr_responseText msg));
      [now destruct g|].
    destruct Hbad as [|[[e He]|]]; discriminate.
Qed.

Lemma accepted_submission_scores_ten_witness :
  Leaderboard.participant_total "s1" "user-a"
    (db (gateway (SocketHandlers.submit_response 100 Fixture.hub
                    Fixture.alice_socket Fixture.first_answer)))
  = Leaderboard.participant_total "s1" "user-a" Fixture.world + 10.
Proof.
  exact (proj1 (proj2 (proj1 (accepted_submission_scores_ten 100 Fixture.hub
                                Fixture.alice_socket Fixture.first_answer)
                         eq_refl eq_refl eq_refl eq_refl eq_refl eq_refl
                         eq_refl))).
Defined.

(** ** Joining and leaving a room *)

(** X15: join-session never writes to the database, and for a session
    id no row carries it answers "Session not found" and leaves the
    rooms, the socket and the wire untouched. *)
Theorem join_session_reads_only g sock sid :
  db (gateway (SocketHandlers.join_session g sock sid)) = db g /\
  (db_up (db g) = true -> lookup_session sid (db g) = None ->
   SocketHandlers.join_session g sock sid
   = mkOutcome g sock (ack_fail "Session not found") []).
Proof.
  unfold SocketHandlers.join_session. destruct (db_up (db g)) eqn:Hup.
  - rewrite findById_up by exact Hup. split.
    + destruct (lookup_session sid (db g)) as [s|]; [|reflexivity].
      now destruct (negb _).
    + intros _ ->. now destruct g.
  - rewrite findById_down by exact Hup. split; [reflexivity|discriminate].
Qed.

Lemma join_session_reads_only_witness :
  SocketHandlers.join_session Fixture.hub Fixture.alice_socket "s9"
  = mkOutcome Fixture.hub Fixture.alice_socket
      (ack_fail "Session not found") [].
Proof.
  exact (proj2 (join_session_reads_only Fixture.hub Fixture.alice_socket "s9")
           eq_refl eq_refl).
Defined.

Lemma join_session_accepts g sock sid s :
  db_up (db g) = true ->
  lookup_session sid (db g) = Some s ->
  includes (GameSession.participant_ids s) (userId sock) = true ->
  SocketHandlers.join_session g sock sid
  = mkOutcome
      (mkGateway (db g)
         (<[sid := {[socket_id sock]} ∪ room_members g sid]> (rooms g)))
      (mkSocket (socket_id sock) (userId sock) (username sock) (Some sid))
      (ack_ok (Some (data_session s)))
      [broadcast_to (socket_id sock) sid
         (user_joined (userId sock) (username sock))].
Proof.
  intros Hup Hs Hp. unfold SocketHandlers.join_session.
  now rewrite (findById_up _ _ Hup), Hs, Hp.
Qed.

(** X16: a participant who joins is put in the room of that session and
    in no other, the members already there stay, and user-joined goes to
    exactly those earlier members, never to the joiner; joining again
    changes no room. *)
Theorem join_session_enters_room g sock sid s :
  db_up (db g) = true ->
  lookup_session sid (db g) = Some s ->
  includes (GameSession.participant_ids s) (userId sock) = true ->
  let o := SocketHandlers.join_session g sock sid in
  ack o = ack_ok (Some (data_session s)) /\
  sessionId (socket o) = Some sid /\
  room_members (gateway o) sid = {[socket_id sock]} ∪ room_members g sid /\
  (forall r, r <> sid -> room_members (gateway o) r = room_members g r) /\
  (exists e,
     emitted o = [e] /\
     payload e = user_joined (userId sock) (username sock) /\
     recipients (gateway o) e = room_members g sid ∖ {[socket_id sock]}) /\
  rooms (gateway (SocketHandlers.join_session (gateway o) (socket o) sid))
  = rooms (gateway o).
Proof.
  intros Hup Hs Hp o. subst o.
  rewrite (join_session_accepts g sock sid s Hup Hs Hp).
  cbn [ack socket gateway emitted sessionId].
  assert (Hm : room_members
                 (mkGateway (db g)
                    (<[sid := {[socket_id sock]} ∪ room_members g sid]>
                       (rooms g))) sid
               = {[socket_id sock]} ∪ room_members g sid).
  { unfold room_members at 1. cbn [rooms]. now rewrite lookup_insert_eq. }
  split; [reflexivity|]. split; [reflexivity|]. split; [exact Hm|].
  split.
  - intros r Hr. unfold room_members. cbn [rooms].
    now rewrite lookup_insert_ne by congruence.
  - split.
    + eexists. split; [reflexivity|]. split; [reflexivity|].
      cbn [recipients]. rewrite Hm. apply set_eq. intros x.
      rewrite !elem_of_difference, elem_of_union. tauto.
    + rewrite join_session_accepts with (s := s); [|exact Hup|exact Hs|exact Hp].
      cbn [gateway rooms socket_id]. rewrite Hm, insert_insert_eq.
      f_equal. apply set_eq. intros x. rewrite !elem_of_union. tauto.
Qed.

Lemma join_session_enters_room_witness :
  room_members
    (gateway (SocketHandlers.join_session Fixture.hub Fixture.alice_socket
                "s1")) "s1"
  = {[ "sock-a" ]} ∪ room_members Fixture.hub "s1".
Proof.
  destruct (join_session_enters_room Fixture.hub Fixture.alice_socket "s1"
              Fixture.fresh_session eq_refl eq_refl eq_refl)
    as (_ & _ & H & _).
  exact H.
Defined.

(** X17: disconnect notifies nobody for a socket that never joined a
    session; for a socket that joined (a non-empty session id) user-left
    goes to the other members of that room and not to the socket
    itself. *)
Theorem disconnect_notifies_room g sock sid s :
  (sessionId sock = None -> RoomHandlers.disconnect sock = []) /\
  (db_up (db g) = true ->
   lookup_session sid (db g) = Some s ->
   includes (GameSession.participant_ids s) (userId sock) = true ->
   truthy sid = true ->
   let o := SocketHandlers.join_session g sock sid in
   exists b,
     RoomHandlers.disconnect (socket o) = [b] /\
     b = to_others (socket_id sock) sid
           (user_left (userId sock) (username sock)) /\
     audience (rooms (gateway o)) b
     = room_members g sid ∖ {[socket_id sock]}).
Proof.
  split.
  - intros H. unfold RoomHandlers.disconnect. now rewrite H.
  - intros Hup Hs Hp Ht o. subst o.
    rewrite (join_session_accepts g sock sid s Hup Hs Hp).
    cbn [socket gateway rooms]. unfold RoomHandlers.disconnect.
    cbn [sessionId socket_id userId username]. rewrite Ht.
    eexists. split; [reflexivity|]. split; [reflexivity|].
    cbn [audience]. rewrite lookup_insert_eq. cbn [from_option id].
    apply set_eq. intros x.
    rewrite !elem_of_difference, elem_of_union. tauto.
Qed.

Lemma disconnect_notifies_room_witness :
  exists b,
    RoomHandlers.disconnect
      (socket (SocketHandlers.join_session Fixture.hub Fixture.alice_socket
                 "s1")) = [b].
Proof.
  destruct (proj2 (disconnect_notifies_room Fixture.hub Fixture.alice_socket
                     "s1" Fixture.fresh_session)
              eq_refl eq_refl eq_refl eq_refl) as (b & Hb & _).
  exists b. exact Hb.
Defined.

(** ** Chat *)

(** X18: send-message checks no membership.  When the session and the
    sender exist (and the generated id is new), the text holds no
    U+0000 and the round type, general when none was given, is within
    50 characters, it appends exactly one chat row with the sender, the
    text and the round type and sends that text to the whole room; when
    the session or the sender does not exist, the payload has no
    message, the text holds U+0000 or the round type is one the column
    refuses, it stores nothing, sends nothing and acknowledges a
    failure. *)
Theorem send_message_stores_and_relays fresh now st sock sid text rt :
  db_up (core st) = true ->
  (session_exists sid (core st) = true ->
   user_exists (userId sock) (core st) = true ->
   existsb (fun m => String.eqb (ChatMessage.id m) fresh) (chat_messages st)
   = false ->
   has_nul text = false ->
   fits 50 (default "general" rt) = true ->
   RoomHandlers.send_message fresh now st sock sid (Some text) rt
   = (mkStore (core st)
        (chat_messages st
           ++ [ChatMessage.mk fresh sid (userId sock) text
                 (Some (default "general" rt)) false now])
        (meme_uploads st) (meme_reactions st) (audience_votes st)
        (matches st),
      reply_ok tt,
      [to_room sid
         (new_message fresh (userId sock) (username sock) (Some text)
            (default "general" rt) now)])) /\
  (session_exists sid (core st) = false
   \/ user_exists (userId sock) (core st) = false
   \/ has_nul text = true
   \/ (exists e, pg_varchar 50 (default "general" rt) = inl e) ->
   RoomHandlers.send_message fresh now st sock sid (Some text) rt
   = (st, reply_fail "Failed to send message", [])) /\
  RoomHandlers.send_message fresh now st sock sid None rt
  = (st, reply_fail "Failed to send message", []).
Proof.
  intros Hup. unfold RoomHandlers.send_message, statement, insert_chat_message.
  rewrite Hup. split; [|split].
  - intros Hs Hu Hf Htext Hrt. cbn [nullable].
    now rewrite (pg_text_fits _ Htext), (pg_varchar_fits _ _ Hrt), Hs, Hu, Hf.
  - intros Hbad. cbn [nullable]. unfold pg_text.
    destruct (has_nul text); [reflexivity|].
    destruct (pg_varchar 50 (default "general" rt)) as [e|ty]; [reflexivity|].
    destruct Hbad as [H|[H|[H|[e H]]]]; try discriminate; rewrite H;
      [reflexivity|].
    now rewrite andb_false_r.
  - cbn [nullable].
    now destruct (pg_varchar 50 (default "general" rt)).
Qed.

Lemma send_message_stores_and_relays_witness :
  RoomHandlers.send_message "m1" 100 lobby_store Fixture.carol_socket "s1"
    (Some "hello") None
  = (mkStore Fixture.world
       [ChatMessage.mk "m1" "s1" "user-c" "hello" (Some "general") false 100]
       [] [] [] [],
     reply_ok tt,
     [to_room "s1"
        (new_message "m1" "user-c" "carol" (Some "hello") "general" 100)]).
Proof.
  exact (proj1 (send_message_stores_and_relays "m1" 100 lobby_store
                  Fixture.carol_socket "s1" "hello" None eq_refl)
           eq_refl eq_refl eq_refl eq_refl eq_refl).
Defined.

(** ** Meme reactions *)

(** What a vote leaves behind when the pool is up: nothing, when the
    column refuses the reaction type, or when the voter has no reaction
    on the meme yet and the meme or the voter does not exist; otherwise
    the new reaction table, with the type as the column stores it, and
    the meme's total recounted from it. *)
Lemma vote_meme_run now st sock sid meme sent :
  db_up (core st) = true ->
  let user := userId sock in
  let voted := existsb (MemeReaction.has_key meme user) (meme_reactions st) in
  let accepted := voted || (meme_exists meme st && user_exists user (core st)) in
  RoomHandlers.vote_meme now st sock sid meme sent
  = match pg_varchar 50 sent with
    | inl _ => (st, reply_fail "Failed to vote", [])
    | inr reaction =>
        let rows' :=
          if voted then retype meme user reaction <$> meme_reactions st
          else meme_reactions st ++ [MemeReaction.mk meme user reaction now] in
        if accepted
        then (mkStore (core st) (chat_messages st)
                (with_total meme (Z.of_nat (length (reactions_of meme rows')))
                   <$> meme_uploads st)
                rows' (audience_votes st) (matches st),
              reply_ok tt,
              [to_room sid (meme_voted meme user sent)])
        else (st, reply_fail "Failed to vote", [])
    end.
Proof.
  intros Hup user voted accepted. subst user voted accepted.
  unfold RoomHandlers.vote_meme, sbind, statement, upsert_meme_reaction.
  rewrite Hup. destruct (pg_varchar 50 sent) as [e|reaction]; [reflexivity|].
  cbn zeta.
  destruct (existsb _ (meme_reactions st)) eqn:E; cbn [orb].
  - cbn [core]. rewrite Hup. reflexivity.
  - destruct (meme_exists meme st && user_exists (userId sock) (core st));
      cbn [negb]; [|reflexivity].
    cbn [core]. rewrite Hup. reflexivity.
Qed.

Lemma has_key_reaction_key meme user r :
  MemeReaction.has_key meme user r = true <-> reaction_key r = (meme, user).
Proof.
  unfold MemeReaction.has_key, reaction_key.
  rewrite andb_true_iff, !String.eqb_eq.
  split; [intros [-> ->]; reflexivity|intros [= -> ->]; auto].
Qed.

Lemma reaction_key_retype meme user reaction r :
  reaction_key (retype meme user reaction r) = reaction_key r.
Proof. unfold retype. now destruct (MemeReaction.has_key meme user r). Qed.

Lemma keys_retype meme user reaction (l : list MemeReaction.t) :
  reaction_key <$> (retype meme user reaction <$> l) = reaction_key <$> l.
Proof.
  rewrite <- list_fmap_compose. apply list_fmap_ext. intros _ r _.
  apply reaction_key_retype.
Qed.

(** X19: the reaction table keeps at most one row per (meme, voter)
    whatever vote-meme is sent, and after an accepted vote the voter has
    exactly one reaction on that meme and it is the type just sent, as
    the VARCHAR(50) column stores it (the type itself when it is within
    50 characters): the last vote wins. *)
Theorem vote_meme_last_vote_wins now st sock sid meme sent :
  db_up (core st) = true ->
  NoDup (reaction_key <$> meme_reactions st) ->
  let '(st', reply, _) := RoomHandlers.vote_meme now st sock sid meme sent in
  NoDup (reaction_key <$> meme_reactions st') /\
  (reply = reply_ok tt ->
   exists r,
     filter (fun r => MemeReaction.has_key meme (userId sock) r = true)
       (meme_reactions st') = [r] /\
     pg_varchar 50 sent = inr (MemeReaction.reaction_type r) /\
     (fits 50 sent = true -> MemeReaction.reaction_type r = sent)).
Proof.
  intros Hup Hnd. rewrite (vote_meme_run _ _ _ _ _ _ Hup).
  destruct (pg_varchar 50 sent) as [e|reaction] eqn:Esent;
    [split; [exact Hnd|discriminate]|].
  assert (Hfit : fits 50 sent = true -> reaction = sent).
  { intros Hf. rewrite (pg_varchar_fits _ _ Hf) in Esent. congruence. }
  cbn zeta.
  destruct (existsb _ (meme_reactions st)) eqn:E; cbn [orb].
  - cbn [meme_reactions]. split; [now rewrite keys_retype|]. intros _.
    apply existsb_exists in E as (r & Hr & Hk). apply list_elem_of_In in Hr.
    exists (retype meme (userId sock) reaction r). split.
    + assert (Hcut : forall l : list MemeReaction.t,
                 filter (fun r => MemeReaction.has_key meme (userId sock) r
                                  = true)
                   (retype meme (userId sock) reaction <$> l)
                 = retype meme (userId sock) reaction
                     <$> filter (fun r => MemeReaction.has_key meme
                                            (userId sock) r = true) l).
      { induction l as [|x l IH]; [reflexivity|].
        rewrite fmap_cons, !filter_cons.
        assert (Hx : MemeReaction.has_key meme (userId sock)
                       (retype meme (userId sock) reaction x)
                     = MemeReaction.has_key meme (userId sock) x).
        { unfold retype.
          destruct (MemeReaction.has_key meme (userId sock) x) eqn:Ex;
            [|exact Ex].
          unfold MemeReaction.has_key in *. exact Ex. }
        rewrite Hx. case_decide; [rewrite fmap_cons|]; now rewrite IH. }
      rewrite Hcut. f_equal.
      assert (Hone : filter (fun r => MemeReaction.has_key meme (userId sock) r
                                      = true) (meme_reactions st) = [r]).
      { clear Hcut. revert Hnd Hr.
        induction (meme_reactions st) as [|x l IH]; intros Hnd Hr;
          [inversion Hr|].
        rewrite fmap_cons in Hnd. apply NoDup_cons in Hnd as [Hx Hnd].
        apply elem_of_cons in Hr as [->|Hr].
        - rewrite filter_cons_True by exact Hk. f_equal.
          apply filter_none. intros y Hy Hyk. apply Hx.
          apply has_key_reaction_key in Hk, Hyk. rewrite Hk, <- Hyk.
          now apply list_elem_of_fmap_2.
        - rewrite filter_cons_False; [now apply IH|].
          intros Hxk. apply Hx.
          apply has_key_reaction_key in Hk, Hxk. rewrite Hxk, <- Hk.
          now apply list_elem_of_fmap_2. }
      rewrite Hone. reflexivity.
    + unfold retype. rewrite Hk. cbn. split; [reflexivity|exact Hfit].
  - destruct (meme_exists meme st && user_exists (userId sock) (core st));
      cbn [meme_reactions]; [|split; [exact Hnd|discriminate]].
    assert (Hnone : filter (fun r => MemeReaction.has_key meme (userId sock) r
                                     = true) (meme_reactions st) = []).
    { apply filter_none. intros r Hr Hk.
      assert (existsb (MemeReaction.has_key meme (userId sock))
                (meme_reactions st) = true)
        by (apply existsb_exists; exists r; split;
            [now apply list_elem_of_In|exact Hk]).
      congruence. }
    split.
    + rewrite fmap_app. apply NoDup_app. split; [exact Hnd|].
      split; [|apply NoDup_singleton].
      intros k Hk Hin. cbn in Hin. apply list_elem_of_singleton in Hin as ->.
      apply list_elem_of_fmap in Hk as (r & Hkey & Hr).
      assert (Hin : r ∈ filter (fun r => MemeReaction.has_key meme
                                           (userId sock) r = true)
                          (meme_reactions st)).
      { apply list_elem_of_filter. split; [|exact Hr].
        now apply has_key_reaction_key. }
      rewrite Hnone in Hin. inversion Hin.
    + intros _. exists (MemeReaction.mk meme (userId sock) reaction now).
      rewrite filter_app, Hnone, filter_cons_True, filter_nil;
        [split; [reflexivity|split; [reflexivity|exact Hfit]]|].
      unfold MemeReaction.has_key. cbn. now rewrite !String.eqb_refl.
Qed.

Lemma vote_meme_last_vote_wins_witness :
  let '(st', _, _) :=
    RoomHandlers.vote_meme 100 meme_store Fixture.bob_socket "s1" "meme-1"
      "laugh" in
  NoDup (reaction_key <$> meme_reactions st').
Proof.
  pose proof (vote_meme_last_vote_wins 100 meme_store Fixture.bob_socket "s1"
                "meme-1" "laugh" eq_refl (NoDup_nil_2 : NoDup (reaction_key <$> meme_reactions meme_store))) as H.
  destruct (RoomHandlers.vote_meme _ _ _ _ _ _) as [[st' reply] bs].
  exact (proj1 H).
Defined.

Lemma reactions_of_retype meme meme' user reaction (l : list MemeReaction.t) :
  length (reactions_of meme' (retype meme user reaction <$> l))
  = length (reactions_of meme' l).
Proof.
  unfold reactions_of. induction l as [|r l IH]; [reflexivity|].
  rewrite fmap_cons, !filter_cons.
  assert (Hr : MemeReaction.meme_id (retype meme user reaction r)
               = MemeReaction.meme_id r).
  { unfold retype. now destruct (MemeReaction.has_key meme user r). }
  rewrite Hr. case_decide; cbn [length]; now rewrite IH.
Qed.

(** X20: after an accepted vote the total stored on the meme is the
    number of reactions the meme has; a first vote of a voter raises
    that number by one and a repeated vote leaves it as it was, and the
    other memes keep their rows. *)
Theorem vote_meme_total_is_count now st sock sid meme reaction :
  db_up (core st) = true ->
  let '(st', reply, _) := RoomHandlers.vote_meme now st sock sid meme reaction in
  reply = reply_ok tt ->
  (forall m, m ∈ meme_uploads st' -> MemeUpload.id m = meme ->
             MemeUpload.total_reactions m = Some (count_reactions meme st')) /\
  count_reactions meme st'
  = count_reactions meme st
    + (if existsb (MemeReaction.has_key meme (userId sock)) (meme_reactions st)
       then 0 else 1) /\
  (forall m, m ∈ meme_uploads st' -> MemeUpload.id m <> meme ->
             m ∈ meme_uploads st).
Proof.
  intros Hup. rewrite (vote_meme_run _ _ _ _ _ _ Hup).
  destruct (pg_varchar 50 reaction) as [e|stored]; [discriminate|].
  cbn zeta.
  set (rows' := if existsb _ _ then _ else _).
  destruct (_ || _); [|discriminate]. intros _.
  assert (Hcount : count_reactions meme
                     (mkStore (core st) (chat_messages st)
                        (with_total meme
                           (Z.of_nat (length (reactions_of meme rows')))
                           <$> meme_uploads st)
                        rows' (audience_votes st) (matches st))
                   = Z.of_nat (length (reactions_of meme rows')))
    by reflexivity.
  rewrite Hcount. cbn [meme_uploads]. split; [|split].
  - intros m Hm Hid. apply list_elem_of_fmap in Hm as (m0 & -> & _).
    unfold with_total in *. destruct (String.eqb_spec (MemeUpload.id m0) meme).
    + reflexivity.
    + contradiction.
  - unfold count_reactions. fold (reactions_of meme (meme_reactions st)).
    subst rows'. destruct (existsb _ (meme_reactions st)).
    + rewrite reactions_of_retype. lia.
    + unfold reactions_of. rewrite filter_app, filter_cons_True, filter_nil
        by (cbn; apply String.eqb_refl).
      rewrite length_app. cbn [length]. lia.
  - intros m Hm Hid. apply list_elem_of_fmap in Hm as (m0 & -> & Hm0).
    unfold with_total in *.
    destruct (String.eqb_spec (MemeUpload.id m0) meme); [|exact Hm0].
    cbn in Hid. contradiction.
Qed.

Lemma vote_meme_total_is_count_witness :
  let '(st', _, _) :=
    RoomHandlers.vote_meme 100 meme_store Fixture.bob_socket "s1" "meme-1"
      "laugh" in
  count_reactions "meme-1" st' = count_reactions "meme-1" meme_store + 1.
Proof.
  pose proof (vote_meme_total_is_count 100 meme_store Fixture.bob_socket "s1"
                "meme-1" "laugh" eq_refl) as H.
  destruct (RoomHandlers.vote_meme _ _ _ _ _ _) as [[st' reply] bs] eqn:E.
  assert (Hr : reply = reply_ok tt) by (vm_compute in E; congruence).
  exact (proj1 (proj2 (H Hr))).
Defined.

(** ** Audience votes *)

(** X21: audience votes accumulate.  When the session, the voter and
    the nominee exist and the category is within 100 characters and
    holds no U+0000, the vote is appended with weight 1 however many
    votes the voter has already cast for that nominee, the total sent to
    the room is the earlier number of votes for that nominee in that
    category plus one, and the votes for every other nominee, category
    or session are as before; when one of them does not exist, the
    payload has no category or the category is one the column refuses,
    nothing is stored or sent. *)
Theorem audience_votes_accumulate now st sock sid cat nominee :
  db_up (core st) = true ->
  (session_exists sid (core st) = true ->
   user_exists (userId sock) (core st) = true ->
   user_exists nominee (core st) = true ->
   fits 100 cat = true ->
   let '(st', reply, sent) :=
     RoomHandlers.audience_vote now st sock sid (Some cat) nominee in
   reply = reply_ok tt /\
   audience_votes st'
   = audience_votes st
     ++ [AudienceVote.mk sid (Some (userId sock)) cat nominee (Some 1) now] /\
   sent = [to_room sid
             (audience_vote_recorded (Some cat) nominee
                (Z.of_nat (length (votes_for sid cat nominee st)) + 1))] /\
   (forall sid' cat' nominee',
      (sid', cat', nominee') <> (sid, cat, nominee) ->
      votes_for sid' cat' nominee' st' = votes_for sid' cat' nominee' st)) /\
  (session_exists sid (core st) = false
   \/ user_exists (userId sock) (core st) = false
   \/ user_exists nominee (core st) = false
   \/ (exists e, pg_varchar 100 cat = inl e) ->
   RoomHandlers.audience_vote now st sock sid (Some cat) nominee
   = (st, reply_fail "Failed to record vote", [])) /\
  RoomHandlers.audience_vote now st sock sid None nominee
  = (st, reply_fail "Failed to record vote", []).
Proof.
  intros Hup.
  unfold RoomHandlers.audience_vote, sbind, statement, insert_audience_vote.
  rewrite Hup. split; [|split].
  - intros Hs Hv Hn Hcat. cbn [nullable].
    rewrite (pg_varchar_fits _ _ Hcat), Hs, Hv, Hn. cbn [andb negb core].
    rewrite Hup. unfold count_votes. cbn [audience_votes].
    split; [reflexivity|]. split; [reflexivity|]. split.
    + do 3 f_equal. fold (votes_for sid cat nominee st).
      rewrite filter_app, filter_cons_True, filter_nil.
      * unfold votes_for. rewrite length_app. cbn [length]. lia.
      * unfold AudienceVote.is_for. cbn. now rewrite !String.eqb_refl.
    + intros sid' cat' nominee' Hne. unfold votes_for. cbn [audience_votes].
      rewrite filter_app, filter_cons_False, filter_nil, app_nil_r;
        [reflexivity|].
      unfold AudienceVote.is_for. cbn.
      rewrite !andb_true_iff, !String.eqb_eq. intros [[-> ->] ->].
      now apply Hne.
  - intros H. cbn [nullable].
    destruct (pg_varchar 100 cat) as [e|stored]; [reflexivity|].
    assert (E : session_exists sid (core st)
                && user_exists (userId sock) (core st)
                && user_exists nominee (core st) = false).
    { destruct H as [-> | [-> | [-> | [e He]]]];
        rewrite ?andb_false_r; try reflexivity. discriminate. }
    now rewrite E.
  - reflexivity.
Qed.

Lemma audience_votes_accumulate_witness :
  let '(st', reply, sent) :=
    RoomHandlers.audience_vote 100 lobby_store Fixture.carol_socket "s1"
      (Some "funniest") "user-a" in
  reply = reply_ok tt /\
  sent = [to_room "s1"
            (audience_vote_recorded (Some "funniest") "user-a" 1)].
Proof.
  pose proof (proj1 (audience_votes_accumulate 100 lobby_store
                       Fixture.carol_socket "s1" "funniest" "user-a" eq_refl)
                eq_refl eq_refl eq_refl eq_refl) as H.
  destruct (RoomHandlers.audience_vote _ _ _ _ _ _) as [[st' reply] sent].
  destruct H as (Hr & _ & Hs & _). split; [exact Hr | exact Hs].
Defined.

(** ** A session with its matches *)

#[local] Instance score_desc_trans : Transitive score_desc.
Proof.
  unfold score_desc. intros a b c.
  destruct (Match.connection_score a), (Match.connection_score b),
    (Match.connection_score c); try tauto; lia.
Qed.

#[local] Instance score_desc_total : Total score_desc.
Proof.
  unfold score_desc. intros a b.
  destruct (Match.connection_score a), (Match.connection_score b);
    try tauto; lia.
Qed.

(** X22: [getSessionWithMatches] and the get-session handler only read.
    For an id no session carries the result is null and the handler
    answers "Session not found"; otherwise the result is the session
    with exactly the matches of that session, best connection score
    first, matches without a score ahead of the scored ones. *)
Theorem getSessionWithMatches_best_first sid st :
  db_up (core st) = true ->
  exists r,
    SessionWithMatches.getSessionWithMatches sid st = (st, inr r) /\
    match lookup_session sid (core st) with
    | None =>
        r = None /\
        RoomHandlers.get_session st sid
        = (st, reply_fail "Session not found")
    | Some s =>
        exists ms,
          r = Some (s, ms) /\
          RoomHandlers.get_session st sid = (st, reply_ok (s, ms)) /\
          ms ≡ₚ filter (fun m => String.eqb (Match.game_session_id m) sid
                                 = true) (matches st) /\
          StronglySorted score_desc ms
    end.
Proof.
  intros Hup.
  assert (Hst : mkStore (core st) (chat_messages st) (meme_uploads st)
                  (meme_reactions st) (audience_votes st) (matches st) = st)
    by now destruct st.
  unfold RoomHandlers.get_session, SessionWithMatches.getSessionWithMatches,
    sbind, statement, on_core, select_session.
  rewrite Hup. cbn [core]. rewrite Hst.
  unfold lookup_session.
  destruct (filter _ (game_sessions (core st))) as [|s rest].
  - eexists. split; [reflexivity|]. now split.
  - rewrite Hup. unfold select_matches, sret. eexists. split; [reflexivity|].
    cbn [head]. eexists. split; [reflexivity|]. split; [reflexivity|].
    split; [apply merge_sort_Permutation|].
    apply StronglySorted_merge_sort; apply _.
Qed.

Lemma getSessionWithMatches_best_first_witness :
  RoomHandlers.get_session lobby_store "s9"
  = (lobby_store, reply_fail "Session not found").
Proof.
  destruct (getSessionWithMatches_best_first "s9" lobby_store eq_refl)
    as (r & _ & H).
  exact (proj2 H).
Defined.

(** ** The REST routes at their edges *)

Lemma select_room_includes room d :
  filter (fun r => String.eqb r room = true) (rooms_table d) = []
  <-> includes (rooms_table d) room = false.
Proof.
  unfold includes. split.
  - intros H. destruct (existsb _ _) eqn:E; [|reflexivity].
    apply existsb_exists in E as (r & Hr & Heq).
    apply list_elem_of_In in Hr. apply String.eqb_eq in Heq. subst r.
    apply (filter_nil_not_elem_of _ _ room) in H;
      [contradiction|apply String.eqb_refl].
  - intros H. apply filter_none. intros r Hr Heq.
    apply String.eqb_eq in Heq. subst r.
    assert (existsb (String.eqb room) (rooms_table d) = true).
    { apply existsb_exists. exists room.
      split; [now apply list_elem_of_In|apply String.eqb_refl]. }
    congruence.
Qed.

(** X23: PATCH writes nothing when it is rejected and when its body
    names nothing.  An invalid status or a negative round is answered
    422, an unknown session 404; a body without status and round whose
    gameState is absent or the empty string is accepted and answered
    with the stored session, unchanged. *)
Theorem patch_session_writes_nothing sid body d :
  (Routes.patch_valid body = false ->
   Routes.patch_session sid body d
   = (d, http_failure 422 "Validation failed")) /\
  (db_up d = true -> Routes.patch_valid body = true ->
   lookup_session sid d = None ->
   Routes.patch_session sid body d
   = (d, http_failure 404 "Game session not found")) /\
  (db_up d = true ->
   forall s, lookup_session sid d = Some s ->
   Routes.p_status body = None -> Routes.p_currentRound body = None ->
   Routes.p_gameState body = None \/ Routes.p_gameState body = Some "" ->
   Routes.patch_session sid body d
   = (d, http_success 200 (body_session (Some s)))).
Proof.
  unfold Routes.patch_session. split; [|split].
  - now intros ->.
  - intros Hup -> Hs. cbn [negb]. now rewrite findById_up, Hs.
  - intros Hup s Hs Hst Hr Hg.
    assert (Hv : Routes.patch_valid body = true).
    { unfold Routes.patch_valid. now rewrite Hst, Hr. }
    assert (Hu : Routes.patch_updates body = SessionUpdates.empty).
    { unfold Routes.patch_updates. rewrite Hst, Hr.
      now destruct Hg as [-> | ->]. }
    rewrite Hv, Hu. cbn [negb]. rewrite findById_up, Hs by exact Hup.
    unfold GameSessionRepository.update. cbn.
    now rewrite findById_up, Hs.
Qed.

Lemma patch_session_writes_nothing_witness :
  Routes.patch_session "s1" (Routes.mkPatch None (Some "") None) Fixture.world
  = (Fixture.world, http_success 200 (body_session (Some Fixture.fresh_session))).
Proof.
  exact (proj2 (proj2 (patch_session_writes_nothing "s1"
                         (Routes.mkPatch None (Some "") None) Fixture.world))
           eq_refl Fixture.fresh_session eq_refl eq_refl eq_refl
           (or_intror eq_refl)).
Defined.

(** X29: PATCH does not check its values against the columns: on an
    existing session a body that passes validation but holds a round
    index beyond INT, or a label the VARCHAR(50) column refuses, is
    answered with a 500 and writes nothing. *)
Theorem patch_session_refused_value sid body d s e :
  db_up d = true ->
  lookup_session sid d = Some s ->
  Routes.patch_valid body = true ->
  coerce_updates (Routes.patch_updates body) = inl e ->
  Routes.patch_session sid body d
  = (d, http_failure 500 "Internal server error").
Proof.
  intros Hup Hs Hvalid He. unfold Routes.patch_session.
  rewrite Hvalid. cbn [negb]. rewrite findById_up, Hs by exact Hup.
  destruct (coerce_updates_refused _ _ He) as [Hlen Hkind].
  rewrite (update_refused sid _ e d Hlen He), Hup.
  now destruct Hkind as [-> | [-> | ->]].
Qed.

Lemma patch_session_refused_value_witness :
  Routes.patch_session "s1" (Routes.mkPatch None None (Some 2147483648))
    Fixture.world
  = (Fixture.world, http_failure 500 "Internal server error").
Proof.
  exact (patch_session_refused_value "s1"
           (Routes.mkPatch None None (Some 2147483648)) Fixture.world
           Fixture.fresh_session numeric_value_out_of_range
           eq_refl eq_refl eq_refl eq_refl).
Defined.

(** X30: PATCH takes a status given as an array of status words: the
    validator checks the words one by one, the array is truthy whatever
    it holds, and the session's status becomes the array literal the
    driver sends for it, which is none of the four statuses; the
    session is then not among the active ones. *)
Theorem patch_session_status_array sid l d s :
  db_up d = true ->
  lookup_session sid d = Some s ->
  forallb Routes.status_word_ok l = true ->
  fits 50 (Routes.arrayString l) = true ->
  let u := SessionUpdates.mk None (Some (Routes.arrayString l)) None None
             None None None None None in
  Routes.patch_session sid
    (Routes.mkPatch (Some (Routes.status_words l)) None None) d
  = (set_game_sessions (update_row sid u <$> game_sessions d) d,
     http_success 200 (body_session (Some (apply_updates u s)))) /\
  GameSession.status (apply_updates u s) = Routes.arrayString l /\
  is_active (apply_updates u s) = false.
Proof.
  intros Hup Hs Hwords Hfit u. split; [|split; reflexivity].
  unfold Routes.patch_session, Routes.patch_valid.
  cbn [Routes.p_status Routes.p_currentRound]. rewrite Hwords.
  cbn [andb negb]. rewrite findById_up, Hs by exact Hup.
  unfold Routes.patch_updates.
  cbn [Routes.p_status Routes.p_currentRound Routes.p_gameState].
  fold u. rewrite update_up, Hs; try reflexivity; try assumption.
  - discriminate.
  - unfold stored_as_sent, u. cbn. now rewrite Hfit.
Qed.

Lemma patch_session_status_array_witness :
  exists d' s',
    Routes.patch_session "s1"
      (Routes.mkPatch (Some (Routes.status_words ["lobby"])) None None)
      Fixture.world
    = (d', http_success 200 (body_session (Some s'))) /\
    GameSession.status s' = "{" +:+ dquote +:+ "lobby" +:+ dquote +:+ "}" /\
    is_active s' = false.
Proof.
  destruct (patch_session_status_array "s1" ["lobby"] Fixture.world
              Fixture.fresh_session eq_refl eq_refl eq_refl eq_refl)
    as (Hrun & Hst & Hact).
  eexists _, _. split; [exact Hrun|]. split; [exact Hst | exact Hact].
Defined.

(** X24: the leaderboard route only reads and never returns more than
    ten entries, with the total it reports being their number; for an id
    no session carries it answers 200 with an empty leaderboard rather
    than 404. *)
Theorem get_leaderboard_at_most_ten sid d :
  fst (Routes.get_leaderboard sid d) = d /\
  (db_up d = true ->
   exists l,
     Routes.get_leaderboard sid d
     = (d, http_success 200 (body_leaderboard l (length l))) /\
     (length l <= 10)%nat /\
     (lookup_session sid d = None -> l = [])).
Proof.
  unfold Routes.get_leaderboard, GameSessionRepository.getLeaderboard, qbind,
    query, Leaderboard.leaderboard_rows.
  destruct (db_up d); [|split; [reflexivity|discriminate]].
  split; [reflexivity|]. intros _. eexists. split; [reflexivity|].
  split; [rewrite length_fmap, length_take; lia|].
  intros Hnone. unfold Leaderboard.aggregates, Leaderboard.joined_rows.
  unfold lookup_session in Hnone.
  destruct (filter (fun s => has_id sid s = true) (game_sessions d));
    [reflexivity|discriminate].
Qed.

Lemma get_leaderboard_at_most_ten_witness :
  Routes.get_leaderboard "s9" Fixture.seeded_world
  = (Fixture.seeded_world, http_success 200 (body_leaderboard [] 0)).
Proof.
  destruct (proj2 (get_leaderboard_at_most_ten "s9" Fixture.seeded_world)
              eq_refl) as (l & Hrun & _ & Hnil).
  rewrite (Hnil eq_refl) in Hrun. exact Hrun.
Defined.

(** X25: POST /session answers 422 for an empty participant list
    (before it looks at the room) and 404 for a room that does not
    exist, writing nothing in either case; for an existing room and an
    unused id it answers 201 with a lobby session carrying the given
    participants and the caller as creator, whether or not the caller is
    one of them, and GET /session/:id then returns that session. *)
Theorem post_session_then_get fresh now user room parts d :
  db_up d = true ->
  (parts = [] ->
   Routes.post_session fresh now user room parts d
   = (d, http_failure 422 "Validation failed")) /\
  (parts <> [] -> includes (rooms_table d) room = false ->
   Routes.post_session fresh now user room parts d
   = (d, http_failure 404 "Room not found")) /\
  (parts <> [] -> includes (rooms_table d) room = true ->
   session_exists fresh d = false ->
   exists d' s,
     Routes.post_session fresh now user room parts d
     = (d', http_success 201 (body_session (Some s))) /\
     ReadRoutes.get_session fresh d'
     = (d', http_success 200 (body_session (Some s))) /\
     s = GameSession.mk fresh (Some room) "lobby" 0 None parts None None now
           (json_created_by user)).
Proof.
  intros Hup. unfold Routes.post_session. split; [|split].
  - now intros ->.
  - intros Hp Hroom. destruct parts as [|p parts]; [contradiction|].
    cbn [length Nat.ltb Nat.leb]. unfold query, select_room. rewrite Hup.
    apply select_room_includes in Hroom. now rewrite Hroom.
  - intros Hp Hroom Hfresh. destruct parts as [|p parts]; [contradiction|].
    cbn [length Nat.ltb Nat.leb]. unfold query at 1. unfold select_room.
    rewrite Hup.
    destruct (filter _ (rooms_table d)) as [|r rs] eqn:E.
    + apply select_room_includes in E. congruence.
    + rewrite (create_up _ _ _ _ _ _ Hup Hroom Hfresh).
      eexists _, _. split; [reflexivity|]. split; [|reflexivity].
      unfold ReadRoutes.get_session.
      rewrite findById_up by exact Hup. now rewrite lookup_created.
Qed.

Lemma post_session_then_get_witness :
  exists d' s,
    Routes.post_session "s7" 9 "user-c" "room-1" ["user-a"] Fixture.world
    = (d', http_success 201 (body_session (Some s))) /\
    ReadRoutes.get_session "s7" d'
    = (d', http_success 200 (body_session (Some s))).
Proof.
  destruct (proj2 (proj2 (post_session_then_get "s7" 9 "user-c" "room-1"
                            ["user-a"] Fixture.world eq_refl))
              ltac:(discriminate) eq_refl eq_refl)
    as (d' & s & H1 & H2 & _).
  exists d', s. split; assumption.
Defined.

(** X26: the sessions route of a room answers 404 when the room does
    not exist; otherwise it lists exactly the stored sessions of that
    room whose status is lobby or playing, newest first, reports their
    number as the total, and writes nothing. *)
Theorem get_room_sessions_active_only room d :
  db_up d = true ->
  (includes (rooms_table d) room = false ->
   ReadRoutes.get_room_sessions room d
   = (d, ReadRoutes.failure 404 "Room not found")) /\
  (includes (rooms_table d) room = true ->
   exists l,
     ReadRoutes.get_room_sessions room d
     = (d, ReadRoutes.answer 200 (ReadRoutes.listing l (length l))) /\
     StronglySorted (desc_by GameSession.created_at) l /\
     (forall s, s ∈ l <->
                s ∈ game_sessions d /\
                GameSession.room_id s = Some room /\
                (GameSession.status s = "lobby"
                 \/ GameSession.status s = "playing"))).
Proof.
  intros Hup. unfold ReadRoutes.get_room_sessions, query, select_room.
  rewrite Hup. split.
  - intros Hroom. apply select_room_includes in Hroom. now rewrite Hroom.
  - intros Hroom.
    destruct (filter _ (rooms_table d)) as [|r rs] eqn:E.
    + apply select_room_includes in E. congruence.
    + unfold ReadRoutes.select_active_in_room. rewrite Hup. eexists.
      split; [reflexivity|]. split; [apply order_desc_sorted|].
      intros s. rewrite elem_of_order_desc, list_elem_of_filter.
      rewrite andb_true_iff. unfold in_room, is_active, includes.
      cbn [existsb]. rewrite orb_false_r, orb_true_iff, !String.eqb_eq.
      destruct (GameSession.room_id s) as [r'|].
      * rewrite String.eqb_eq. split.
        -- intros [[-> Hst] Hs]. auto.
        -- intros (Hs & [= ->] & Hst). auto.
      * split; [intros [[Hf _] _]; discriminate|intros (_ & Hf & _); discriminate].
Qed.

Lemma get_room_sessions_active_only_witness :
  ReadRoutes.get_room_sessions "room-9" Fixture.seeded_world
  = (Fixture.seeded_world, ReadRoutes.failure 404 "Room not found").
Proof.
  exact (proj1 (get_room_sessions_active_only "room-9" Fixture.seeded_world
                  eq_refl) eq_refl).
Defined.

(** ** Advancing a session that is not there *)

(** X27: next-round on an id no session carries acknowledges "Session
    not found", writes nothing and announces nothing; and whatever it is
    sent, next-round leaves the responses, the users and the rooms
    table alone. *)
Theorem next_round_missing_session now g sock sid :
  (db_up (db g) = true -> lookup_session sid (db g) = None ->
   SocketHandlers.next_round now g sock sid
   = mkOutcome g sock (ack_fail "Session not found") []) /\
  round_responses (db (gateway (SocketHandlers.next_round now g sock sid)))
  = round_responses (db g) /\
  users (db (gateway (SocketHandlers.next_round now g sock sid)))
  = users (db g) /\
  rooms_table (db (gateway (SocketHandlers.next_round now g sock sid)))
  = rooms_table (db g) /\
  rooms (gateway (SocketHandlers.next_round now g sock sid)) = rooms g.
Proof.
  split.
  - intros Hup Hs. unfold SocketHandlers.next_round, qbind.
    rewrite (findById_up _ _ Hup), Hs. cbn. now destruct g.
  - destruct (db_up (db g)) eqn:Hup.
    + destruct (lookup_session sid (db g)) as [s|] eqn:Hs.
      * rewrite (next_round_run _ _ _ _ _ Hup Hs).
        now destruct (SocketHandlers.plan_next_round (Some s)).
      * unfold SocketHandlers.next_round, qbind.
        rewrite (findById_up _ _ Hup), Hs. cbn. now repeat split.
    + unfold SocketHandlers.next_round, qbind.
      rewrite (findById_down _ _ Hup). cbn. now repeat split.
Qed.

Lemma next_round_missing_session_witness :
  SocketHandlers.next_round 100 Fixture.hub Fixture.alice_socket "s9"
  = mkOutcome Fixture.hub Fixture.alice_socket
      (ack_fail "Session not found") [].
Proof.
  exact (proj1 (next_round_missing_session 100 Fixture.hub
                  Fixture.alice_socket "s9") eq_refl eq_refl).
Defined.

(** ** Voting again *)

Lemma retype_fixed meme user reaction r :
  (MemeReaction.has_key meme user r = true ->
   MemeReaction.reaction_type r = reaction) ->
  retype meme user reaction r = r.
Proof.
  intros H. unfold retype.
  destruct (MemeReaction.has_key meme user r); [|reflexivity].
  destruct r as [m u ty at_]. cbn in *. now rewrite H.
Qed.

Lemma retype_retype meme user reaction (l : list MemeReaction.t) :
  retype meme user reaction <$> (retype meme user reaction <$> l)
  = retype meme user reaction <$> l.
Proof.
  rewrite <- list_fmap_compose. apply list_fmap_ext. intros _ r _. cbn.
  apply retype_fixed. unfold retype.
  destruct (MemeReaction.has_key meme user r) eqn:E; [reflexivity|].
  congruence.
Qed.

Lemma with_total_twice meme n (l : list MemeUpload.t) :
  with_total meme n <$> (with_total meme n <$> l) = with_total meme n <$> l.
Proof.
  rewrite <- list_fmap_compose. apply list_fmap_ext. intros _ m _. cbn.
  unfold with_total. destruct (String.eqb (MemeUpload.id m) meme) eqn:E.
  - cbn. now rewrite E.
  - now rewrite E.
Qed.

Lemma existsb_retype meme user reaction (l : list MemeReaction.t) :
  existsb (MemeReaction.has_key meme user) (retype meme user reaction <$> l)
  = existsb (MemeReaction.has_key meme user) l.
Proof.
  induction l as [|r l IH]; [reflexivity|].
  rewrite fmap_cons. cbn [existsb]. rewrite IH. f_equal.
  unfold retype. destruct (MemeReaction.has_key meme user r) eqn:E;
    [|exact E].
  unfold MemeReaction.has_key in *. exact E.
Qed.

(** X28: sending the same vote again changes nothing: an accepted
    vote-meme followed by the same vote from the same voter leaves the
    store exactly as the first vote left it, and is acknowledged and
    announced as the first one was. *)
Theorem vote_meme_again_is_idle now now' st sock sid meme reaction :
  db_up (core st) = true ->
  let '(st1, reply1, sent1) :=
    RoomHandlers.vote_meme now st sock sid meme reaction in
  reply1 = reply_ok tt ->
  RoomHandlers.vote_meme now' st1 sock sid meme reaction
  = (st1, reply1, sent1).
Proof.
  intros Hup. rewrite (vote_meme_run _ _ _ _ _ _ Hup).
  destruct (pg_varchar 50 reaction) as [e|stored] eqn:Es; [discriminate|].
  cbn zeta.
  destruct (existsb (MemeReaction.has_key meme (userId sock))
              (meme_reactions st)) eqn:E; cbn [orb].
  - intros _. rewrite vote_meme_run by exact Hup. rewrite Es. cbn zeta.
    cbn [meme_reactions core meme_uploads chat_messages audience_votes
         matches].
    rewrite existsb_retype, E. cbn [orb].
    now rewrite retype_retype, with_total_twice.
  - destruct (meme_exists meme st && user_exists (userId sock) (core st));
      [|discriminate].
    intros _. rewrite vote_meme_run by exact Hup. rewrite Es. cbn zeta.
    cbn [meme_reactions core meme_uploads chat_messages audience_votes
         matches].
    assert (Hold : retype meme (userId sock) stored <$> meme_reactions st
                   = meme_reactions st).
    { rewrite <- (list_fmap_id (meme_reactions st)) at 2.
      apply list_fmap_ext. intros i r Hr. apply retype_fixed. intros Hk.
      apply list_elem_of_lookup_2 in Hr.
      assert (existsb (MemeReaction.has_key meme (userId sock))
                (meme_reactions st) = true)
        by (apply existsb_exists; exists r; split;
            [now apply list_elem_of_In|exact Hk]).
      congruence. }
    assert (Hnow : existsb (MemeReaction.has_key meme (userId sock))
                     (meme_reactions st
                        ++ [MemeReaction.mk meme (userId sock) stored now])
                   = true).
    { rewrite existsb_app. cbn. unfold MemeReaction.has_key. cbn.
      now rewrite !String.eqb_refl, orb_true_r. }
    rewrite Hnow. cbn [orb]. rewrite fmap_app, Hold.
    change (retype meme (userId sock) stored
              <$> [MemeReaction.mk meme (userId sock) stored now])
      with [retype meme (userId sock) stored
              (MemeReaction.mk meme (userId sock) stored now)].
    rewrite retype_fixed by reflexivity.
    now rewrite with_total_twice.
Qed.

Lemma vote_meme_again_is_idle_witness :
  let '(st1, reply1, sent1) :=
    RoomHandlers.vote_meme 100 meme_store Fixture.bob_socket "s1" "meme-1"
      "laugh" in
  RoomHandlers.vote_meme 200 st1 Fixture.bob_socket "s1" "meme-1" "laugh"
  = (st1, reply1, sent1).
Proof.
  pose proof (vote_meme_again_is_idle 100 200 meme_store Fixture.bob_socket
                "s1" "meme-1" "laugh" eq_refl) as H.
  destruct (RoomHandlers.vote_meme 100 _ _ _ _ _) as [[st1 reply1] sent1] eqn:E.
  apply H. vm_compute in E. congruence.
Defined.
